(** * CARBONIQ: the off-chain balance ledger and the marketplace settlement

    A shallow embedding of the Express routes of the repository
    - [server/routes/balance.ts]      (balance ledger), and
    - [server/routes/marketplace.ts]  (listings and purchases),
    together with the edge read handler [api/balance/email/[userEmail].ts].
    The serverless copies under [api/marketplace/] follow the same steps as
    the Express routes.

    Conventions of the embedding:
    - A JavaScript number is represented by an integer ([Z]): the quantities
      are token and rupee counts.  The sums the ledger computes are sums of
      doubles: [js_add] rounds the exact sum to the nearest double (ties to
      even), so that it is exact only as long as the sum stays within the
      safe integers, [-(2^53 - 1) .. 2^53 - 1].  Fractions, [NaN] and the
      infinities (sums of magnitude [2^1024] and beyond) are not
      represented.
    - A string is the sequence of its UTF-8 bytes; [s.length] counts UTF-16
      code units ([js_length]).  [toLowerCase] is modelled on the ASCII
      range: e-mail addresses and wallet addresses are taken to be ASCII.
    - An optional field ([userId?: string]) is an [option]; [None] is the
      absent ([undefined]) value.  [rupeesBalance] is an [option Z], because
      blobs fetched from the content store may lack it: [None] stands for an
      absent or [null] field, the values on which [?? 100] and
      [typeof ... !== 'number'] agree.
    - A required request field that is missing and one that is the empty
      string (or zero) are both falsy; they are represented by [""] and [0].
    - Timestamps ([new Date().toISOString()], [Date.now()]) are the
      millisecond count [now] at which the request is served.
    - Every [fetch] asks the environment for an outcome ([Net]); the pinning
      service itself (pinned content and its name index) is part of the
      state.
    - A handler runs to completion without interleaving. *)

From Stdlib Require Import ZArith String Ascii List Lia.
From stdpp Require Import gmap strings list fin_maps pretty.

Local Open Scope string_scope.
Local Open Scope Z_scope.

(** ** JavaScript helpers *)

(** [String.prototype.toLowerCase], on the ASCII range. *)
Definition lower_ascii (c : ascii) : ascii :=
  let n := nat_of_ascii c in
  if (Nat.leb 65 n && Nat.leb n 90)%bool then ascii_of_nat (n + 32) else c.

Fixpoint toLowerCase (s : string) : string :=
  match s with
  | EmptyString => EmptyString
  | String c r => String (lower_ascii c) (toLowerCase r)
  end.

(** Truthiness of a string: [!s] holds exactly for the empty string. *)
Definition truthy (s : string) : bool :=
  match s with EmptyString => false | _ => true end.

(** Truthiness of an optional string ([if (userId)]). *)
Definition truthy_opt (o : option string) : bool :=
  match o with Some s => truthy s | None => false end.

(** Truthiness of a number: [!n] holds exactly for zero. *)
Definition truthy_num (n : Z) : bool := negb (Z.eqb n 0).

(** [n || 0] on numbers. *)
Definition or_zero (n : Z) : Z := if truthy_num n then n else 0.

(** The double nearest to the integer [z], ties to even: integers below
    [2^53] in magnitude are doubles; beyond, a double keeps the leading 53
    bits. *)
Definition round_double (z : Z) : Z :=
  let a := Z.abs z in
  if a <? 2 ^ 53 then z
  else
    let e := Z.log2 a - 52 in
    let q := a / 2 ^ e in
    let r := a mod 2 ^ e in
    let half := 2 ^ (e - 1) in
    let q' :=
      if r <? half then q
      else if half <? r then q + 1
      else if Z.even q then q else q + 1 in
    Z.sgn z * (q' * 2 ^ e).

(** [a + b] on numbers. *)
Definition js_add (a b : Z) : Z := round_double (a + b).

(** [Number.isSafeInteger]: the range on which sums of integers are exact. *)
Definition safe_integer (z : Z) : bool := Z.abs z <=? 2 ^ 53 - 1.

(** [s.length]: the number of UTF-16 code units of a string, by the leading
    byte of each character: one unit for a character of one to three bytes,
    two for a character of four bytes, none for a continuation byte. *)
Definition code_units (c : ascii) : nat :=
  let n := nat_of_ascii c in
  if Nat.ltb n 128 then 1%nat
  else if Nat.ltb n 192 then 0%nat
  else if Nat.ltb n 240 then 1%nat
  else 2%nat.

Fixpoint js_length (s : string) : nat :=
  match s with
  | EmptyString => 0%nat
  | String c r => (code_units c + js_length r)%nat
  end.

(** [a ?? b]. *)
Definition nullish {A} (a : option A) (b : A) : A :=
  match a with Some x => x | None => b end.

(** [a ?? b] where [b] is itself optional. *)
Definition nullish_opt {A} (a b : option A) : option A :=
  match a with Some x => Some x | None => b end.

(** ** Data model ([shared/api.ts], [server/routes/balance.ts]) *)

Record Transaction := mkTransaction {
  tx_id : string;
  tx_amount : Z;
  tx_adminSignature : string;
  tx_timestamp : Z;
  tx_ticketId : string;
  tx_walletAddress : option string;
  tx_userEmail : string;
  tx_adminEmail : option string
}.

Record UserBalance := mkUserBalance {
  userEmail : string;
  userId : option string;
  walletAddress : option string;
  totalBalance : Z;
  rupeesBalance : option Z;
  transactions : list Transaction;
  lastUpdated : Z
}.

Inductive ListingStatus := active | sold | cancelled.

Record MarketplaceListing := mkListing {
  l_id : string;
  l_sellerEmail : string;
  l_sellerUserId : option string;
  l_sellerWallet : string;
  l_amountTokens : Z;
  l_priceRupees : Z;
  l_status : ListingStatus;
  l_createdAt : Z;
  l_updatedAt : Z
}.

Inductive OrderStatus := completed | failed.

Record MarketplaceOrder := mkOrder {
  o_id : string;
  o_listingId : string;
  o_buyerEmail : string;
  o_buyerUserId : option string;
  o_buyerWallet : string;
  o_amountTokens : Z;
  o_totalRupees : Z;
  o_status : OrderStatus;
  o_adminSignature : option string;
  o_createdAt : Z
}.

Global Instance ListingStatus_eq_dec : EqDecision ListingStatus.
Proof. solve_decision. Defined.

(** One completed delta application: the account key, the token delta
    ([amount]) and the rupee delta ([deltaRupees]). *)
Record LedgerDelta := mkDelta {
  d_account : string;
  d_tokens : Z;
  d_rupees : Z
}.

(** ** State *)

(** The module-level stores of the two route files, the pinning service, and
    a ghost history [applied] of the ledger deltas: [applied] is extended
    when [storeUserBalanceInternal] or [storeUserBalance] has written its
    snapshot, and is read by no function. *)
Record World := mkWorld {
  inMemoryBalances : gmap string UserBalance;
  emailToIpfsMap : gmap string string;
  userIdToEmail : gmap string string;
  listings : list MarketplaceListing;
  orders : list MarketplaceOrder;
  listingsCid : option string;
  ordersCid : option string;
  pinataCreds : bool;
  ipfs : gmap string UserBalance;
  pinList : gmap string string;
  applied : list LedgerDelta
}.

Definition set_inMemoryBalances (f : gmap string UserBalance → gmap string UserBalance) (w : World) : World :=
  mkWorld (f (inMemoryBalances w)) (emailToIpfsMap w) (userIdToEmail w) (listings w) (orders w)
          (listingsCid w) (ordersCid w) (pinataCreds w) (ipfs w) (pinList w) (applied w).

Definition set_emailToIpfsMap (f : gmap string string → gmap string string) (w : World) : World :=
  mkWorld (inMemoryBalances w) (f (emailToIpfsMap w)) (userIdToEmail w) (listings w) (orders w)
          (listingsCid w) (ordersCid w) (pinataCreds w) (ipfs w) (pinList w) (applied w).

Definition set_userIdToEmail (f : gmap string string → gmap string string) (w : World) : World :=
  mkWorld (inMemoryBalances w) (emailToIpfsMap w) (f (userIdToEmail w)) (listings w) (orders w)
          (listingsCid w) (ordersCid w) (pinataCreds w) (ipfs w) (pinList w) (applied w).

Definition set_listings (f : list MarketplaceListing → list MarketplaceListing) (w : World) : World :=
  mkWorld (inMemoryBalances w) (emailToIpfsMap w) (userIdToEmail w) (f (listings w)) (orders w)
          (listingsCid w) (ordersCid w) (pinataCreds w) (ipfs w) (pinList w) (applied w).

Definition set_orders (f : list MarketplaceOrder → list MarketplaceOrder) (w : World) : World :=
  mkWorld (inMemoryBalances w) (emailToIpfsMap w) (userIdToEmail w) (listings w) (f (orders w))
          (listingsCid w) (ordersCid w) (pinataCreds w) (ipfs w) (pinList w) (applied w).

Definition set_listingsCid (c : option string) (w : World) : World :=
  mkWorld (inMemoryBalances w) (emailToIpfsMap w) (userIdToEmail w) (listings w) (orders w)
          c (ordersCid w) (pinataCreds w) (ipfs w) (pinList w) (applied w).

Definition set_ordersCid (c : option string) (w : World) : World :=
  mkWorld (inMemoryBalances w) (emailToIpfsMap w) (userIdToEmail w) (listings w) (orders w)
          (listingsCid w) c (pinataCreds w) (ipfs w) (pinList w) (applied w).

(** The pinning service accepts [content] under [name] and answers [cid]. *)
Definition pin_balance (name cid : string) (content : UserBalance) (w : World) : World :=
  mkWorld (inMemoryBalances w) (emailToIpfsMap w) (userIdToEmail w) (listings w) (orders w)
          (listingsCid w) (ordersCid w) (pinataCreds w)
          (<[cid := content]> (ipfs w)) (<[name := cid]> (pinList w)) (applied w).

Definition log_delta (d : LedgerDelta) (w : World) : World :=
  mkWorld (inMemoryBalances w) (emailToIpfsMap w) (userIdToEmail w) (listings w) (orders w)
          (listingsCid w) (ordersCid w) (pinataCreds w) (ipfs w) (pinList w) (applied w ++ [d]).

(** The process at start-up: empty stores. *)
Definition initial (creds : bool) : World :=
  mkWorld ∅ ∅ ∅ [] [] None None creds ∅ ∅ [].

(** ** Environment and the handler monad *)

(** Outcome of one [fetch]: it throws, it answers with [!ok], or it answers
    [ok]; [hash] is the [IpfsHash] of an upload answer and is unused by the
    reads, whose payload is the pinned content. *)
Inductive Net := NetThrow | NetFail | NetOk (hash : string).

Record St := mkSt { world : World; net : list Net }.

Inductive Result (A : Type) := Val (a : A) | Throw (msg : string).
Arguments Val {A} a.
Arguments Throw {A} msg.

Definition M (A : Type) : Type := St → Result A * St.

Definition ret {A} (a : A) : M A := fun s => (Val a, s).

Definition bind {A B} (m : M A) (k : A → M B) : M B :=
  fun s => match m s with
           | (Val a, s') => k a s'
           | (Throw e, s') => (Throw e, s')
           end.

Definition throw {A} (e : string) : M A := fun s => (Throw e, s).

Definition gets {A} (f : World → A) : M A := fun s => (Val (f (world s)), s).

Definition modify (f : World → World) : M unit :=
  fun s => (Val tt, mkSt (f (world s)) (net s)).

(** The next answer of the network; an exhausted script answers [!ok]. *)
Definition fetch : M Net :=
  fun s => match net s with
           | [] => (Val NetFail, s)
           | o :: rest => (Val o, mkSt (world s) rest)
           end.

Notation "'let*' x ':=' m 'in' k" := (bind m (fun x => k))
  (at level 10, x pattern, m at level 200, k at level 200).

(** ** [server/routes/balance.ts] *)

Definition balance_name (emailKey : string) : string := emailKey +:+ "_balance.json".

(** The Pinata search of the read paths: [rows[0]]'s hash if the request
    succeeds and a pin of that name exists; every failure is swallowed. *)
Definition searchPinata (emailKey : string) : M (option string) :=
  let* o := fetch in
  match o with
  | NetOk _ =>
      let* row := gets (fun w => pinList w !! balance_name emailKey) in
      match row with
      | Some hash =>
          if truthy hash
          then let* _ := modify (set_emailToIpfsMap (<[emailKey := hash]>)) in ret (Some hash)
          else ret None
      | None => ret None
      end
  | _ => ret None
  end.

(** [emailToIpfsMap.get(emailKey)] read as a truthy hash. *)
Definition known_hash (emailKey : string) (w : World) : option string :=
  match emailToIpfsMap w !! emailKey with
  | Some h => if truthy h then Some h else None
  | None => None
  end.

(** [if (typeof bal.rupeesBalance !== 'number') bal.rupeesBalance = 100] *)
Definition coerce_rupees (bal : UserBalance) : UserBalance :=
  match rupeesBalance bal with
  | Some _ => bal
  | None => mkUserBalance (userEmail bal) (userId bal) (walletAddress bal) (totalBalance bal)
                          (Some 100) (transactions bal) (lastUpdated bal)
  end.

Definition default_balance (emailKey : string) (now : Z) : UserBalance :=
  mkUserBalance emailKey None None 0 (Some 100) [] now.

Definition getUserBalanceByEmailInternal (now : Z) (email : string) : M (option UserBalance) :=
  let emailKey := toLowerCase email in
  let* mem := gets (fun w => inMemoryBalances w !! emailKey) in
  match mem with
  | Some b => ret (Some b)
  | None =>
      let* h0 := gets (known_hash emailKey) in
      let* ipfsHash :=
        match h0 with
        | Some h => ret (Some h)
        | None =>
            let* headers := gets pinataCreds in
            if headers then searchPinata emailKey else ret None
        end in
      match ipfsHash with
      | None => ret (Some (default_balance emailKey now))
      | Some h =>
          let* o := fetch in
          match o with
          | NetOk _ =>
              let* content := gets (fun w => ipfs w !! h) in
              match content with
              | Some bal => ret (Some (coerce_rupees bal))
              | None => ret None
              end
          | _ => ret None
          end
      end
  end.

Record StoreArgs := mkStoreArgs {
  a_userEmail : string;
  a_userId : option string;
  a_walletAddress : option string;
  a_amount : Z;
  a_adminSignature : string;
  a_ticketId : string;
  a_deltaRupees : option Z
}.

(** [`tx_${Date.now()}_${Math.random().toString(36).slice(2, 9)}`] *)
Definition tx_ident (now : Z) (rand : string) : string :=
  "tx_" +:+ pretty now +:+ "_" +:+ rand.

(** The snapshot [storeUserBalanceInternal] writes, from the snapshot
    [getUserBalanceByEmailInternal] returned ([null] on a failed fetch). *)
Definition newBal (now : Z) (rand : string) (args : StoreArgs)
    (existing0 : option UserBalance) : UserBalance :=
  let emailKey := toLowerCase (a_userEmail args) in
  let existing :=
    match existing0 with
    | Some e => e
    | None => mkUserBalance emailKey (a_userId args) (a_walletAddress args) 0 (Some 100) [] now
    end in
  mkUserBalance
    (userEmail existing)
    (nullish_opt (userId existing) (a_userId args))
    (nullish_opt (walletAddress existing) (a_walletAddress args))
    (js_add (or_zero (totalBalance existing)) (a_amount args))
    (Some (js_add (nullish (rupeesBalance existing) 100) (nullish (a_deltaRupees args) 0)))
    (transactions existing ++
       [mkTransaction (tx_ident now rand) (a_amount args) (a_adminSignature args) now
                      (a_ticketId args) (a_walletAddress args) emailKey None])
    now.

Definition storeUserBalanceInternal (now : Z) (rand : string) (args : StoreArgs) : M UserBalance :=
  let emailKey := toLowerCase (a_userEmail args) in
  let* existing := getUserBalanceByEmailInternal now emailKey in
  let newBal := newBal now rand args existing in
  let* headers := gets pinataCreds in
  let* _ :=
    if headers then
      let* o := fetch in
      match o with
      | NetThrow => throw "fetch failed"
      | NetOk cid =>
          let* _ := modify (pin_balance (balance_name emailKey) cid newBal) in
          if truthy cid then modify (set_emailToIpfsMap (<[emailKey := cid]>)) else ret tt
      | NetFail => modify (set_inMemoryBalances (<[emailKey := newBal]>))
      end
    else modify (set_inMemoryBalances (<[emailKey := newBal]>)) in
  let* _ := modify (log_delta (mkDelta emailKey (a_amount args) (nullish (a_deltaRupees args) 0))) in
  ret newBal.

(** *** HTTP layer *)

Inductive Response :=
| Err (code : Z) (error : string)
| OkBalance (body : UserBalance)
| OkStored (cid : string) (balance : Z) (ipfsUrl : string) (note : option string)
| Created (listing : MarketplaceListing)
| OkListings (ls : list MarketplaceListing)
| OkBought (listing : MarketplaceListing) (order : MarketplaceOrder)
           (buyerBalance sellerBalance : Z * Z).

(** [try { ... } catch (e) { res.status(500).json({ error: e?.message || dflt }) }] *)
Definition handle (dflt : string) (m : M Response) : St → Response * St :=
  fun s => match m s with
           | (Val r, s') => (r, s')
           | (Throw e, s') => (Err 500 (if truthy e then e else dflt), s')
           end.

Record StoreRequest := mkStoreRequest {
  sr_userEmail : string;
  sr_userId : option string;
  sr_walletAddress : option string;
  sr_amount : Z;
  sr_adminSignature : string;
  sr_ticketId : string;
  sr_adminEmail : option string
}.

(** The snapshot [storeUserBalance] writes, from the snapshot it loaded. *)
Definition updatedBalance (now : Z) (rand : string) (req : StoreRequest)
    (existingBalance : option UserBalance) : UserBalance :=
  let emailKey := toLowerCase (sr_userEmail req) in
  let newTransaction :=
    mkTransaction (tx_ident now rand) (sr_amount req) (sr_adminSignature req) now
                  (sr_ticketId req) (sr_walletAddress req) emailKey (sr_adminEmail req) in
  match existingBalance with
  | Some e =>
      mkUserBalance (userEmail e) (userId e) (walletAddress e)
                    (js_add (totalBalance e) (sr_amount req))
                    (Some (nullish (rupeesBalance e) 100))
                    (transactions e ++ [newTransaction]) now
  | None =>
      mkUserBalance emailKey (sr_userId req) (sr_walletAddress req)
                    (sr_amount req) (Some 100) [newTransaction] now
  end.

Definition storeUserBalance (now : Z) (rand : string) (req : StoreRequest) : M Response :=
  if negb (truthy (sr_userEmail req)) || negb (truthy_num (sr_amount req))
     || negb (truthy (sr_adminSignature req)) || negb (truthy (sr_ticketId req))
  then ret (Err 400 "Missing required fields (userEmail, amount, adminSignature, ticketId)")
  else
    let emailKey := toLowerCase (sr_userEmail req) in
    let* _ :=
      match sr_userId req with
      | Some u => if truthy u then modify (set_userIdToEmail (<[u := emailKey]>)) else ret tt
      | None => ret tt
      end in
    let* existingIpfsHash := gets (known_hash emailKey) in
    let* existingBalance :=
      match existingIpfsHash with
      | Some h =>
          let* o := fetch in
          match o with
          | NetOk _ => gets (fun w => ipfs w !! h)
          | _ => ret None
          end
      | None => gets (fun w => inMemoryBalances w !! emailKey)
      end in
    let updated := updatedBalance now rand req existingBalance in
    let delta := mkDelta emailKey (sr_amount req) 0 in
    let* headers := gets pinataCreds in
    if headers then
      let* o := fetch in
      match o with
      | NetThrow => throw "fetch failed"
      | NetFail =>
          let* _ := modify (set_inMemoryBalances (<[emailKey := updated]>)) in
          let* _ := modify (log_delta delta) in
          ret (OkStored "" (totalBalance updated) ""
                        (Some "Stored in-memory (Pinata not available)"))
      | NetOk cid =>
          let* _ := modify (pin_balance (balance_name emailKey) cid updated) in
          let* _ := modify (set_emailToIpfsMap (<[emailKey := cid]>)) in
          let* _ := modify (log_delta delta) in
          ret (OkStored cid (totalBalance updated)
                        ("https://gateway.pinata.cloud/ipfs/" +:+ cid) None)
      end
    else
      let* _ := modify (set_inMemoryBalances (<[emailKey := updated]>)) in
      let* _ := modify (log_delta delta) in
      ret (OkStored "" (totalBalance updated) ""
                    (Some "Stored in-memory (Pinata credentials missing)")).

(** The body the public read route answers when it has no snapshot:
    [{ userEmail, totalBalance: 0, transactions: [], lastUpdated }]. *)
Definition empty_body (emailKey : string) (uid : option string) (now : Z) : UserBalance :=
  mkUserBalance emailKey uid None 0 None [] now.

Definition getUserBalanceByEmail (now : Z) (email : string) : M Response :=
  if negb (truthy email) then ret (Err 400 "User email required")
  else
    let emailKey := toLowerCase email in
    let* mem := gets (fun w => inMemoryBalances w !! emailKey) in
    match mem with
    | Some b => ret (OkBalance b)
    | None =>
        let* h0 := gets (known_hash emailKey) in
        let* ipfsHash :=
          match h0 with
          | Some h => ret (Some h)
          | None =>
              let* headers := gets pinataCreds in
              if headers then searchPinata emailKey else ret None
          end in
        match ipfsHash with
        | None => ret (OkBalance (empty_body emailKey None now))
        | Some h =>
            let* o := fetch in
            match o with
            | NetOk _ =>
                let* content := gets (fun w => ipfs w !! h) in
                match content with
                | Some balance => ret (OkBalance balance)
                | None => ret (OkBalance (empty_body emailKey None now))
                end
            | _ => ret (OkBalance (empty_body emailKey None now))
            end
        end
    end.

Definition getUserBalance (now : Z) (uid : string) : M Response :=
  if negb (truthy uid) then ret (Err 400 "User ID required")
  else
    let* emailKey := gets (fun w => userIdToEmail w !! uid) in
    match emailKey with
    | Some e =>
        if truthy e then getUserBalanceByEmail now e
        else ret (OkBalance (empty_body "" (Some uid) now))
    | None => ret (OkBalance (empty_body "" (Some uid) now))
    end.

(** ** [server/routes/marketplace.ts] *)

Definition pinJSON : M (option string) :=
  let* headers := gets pinataCreds in
  if negb headers then ret None
  else
    let* o := fetch in
    match o with
    | NetThrow => throw "fetch failed"
    | NetFail => ret None
    | NetOk h => ret (Some h)
    end.

Definition saveListings : M unit :=
  let* cid := pinJSON in
  if truthy_opt cid then modify (set_listingsCid cid) else ret tt.

Definition saveOrders : M unit :=
  let* cid := pinJSON in
  if truthy_opt cid then modify (set_ordersCid cid) else ret tt.

(** [`${reason}${listingId ? `|listing:${listingId}` : ""}${cp ? `|cp:${cp}` : ""}`] *)
Definition txNote (reason listingId counterpartyEmail : string) : string :=
  reason +:+ (if truthy listingId then "|listing:" +:+ listingId else "")
         +:+ (if truthy counterpartyEmail then "|cp:" +:+ counterpartyEmail else "").

Definition updateUserBalanceByEmail (now : Z) (rand : string) (email : string)
    (deltaTokens deltaRupees : Z) (reason listingId counterpartyEmail : string) : M (Z * Z) :=
  let* current := getUserBalanceByEmailInternal now email in
  let newTokens := js_add (or_zero (from_option totalBalance 0 current)) deltaTokens in
  let newRupees := js_add (nullish (current ≫= rupeesBalance) 100) deltaRupees in
  let* _ :=
    storeUserBalanceInternal now rand
      (mkStoreArgs email (current ≫= userId) (current ≫= walletAddress) deltaTokens
                   (txNote reason listingId counterpartyEmail)
                   ("market_" +:+ pretty now) (Some deltaRupees)) in
  ret (newTokens, newRupees).

Record CreateListingRequest := mkCreateListingRequest {
  cl_sellerEmail : string;
  cl_sellerUserId : option string;
  cl_sellerWallet : string;
  cl_amountTokens : Z;
  cl_priceRupees : Z;
  cl_signature : string
}.

Definition createListing (now : Z) (uuid : string) (req : CreateListingRequest) : M Response :=
  if negb (truthy (cl_sellerEmail req)) || negb (truthy (cl_sellerWallet req))
     || negb (truthy_num (cl_amountTokens req)) || negb (truthy_num (cl_priceRupees req))
     || negb (truthy (cl_signature req))
  then ret (Err 400 "Missing required fields")
  else if Nat.ltb (js_length (cl_signature req)) 10
  then ret (Err 400 "Invalid signature")
  else
    let* bal := getUserBalanceByEmailInternal now (cl_sellerEmail req) in
    let available := or_zero (from_option totalBalance 0 bal) in
    if available <? cl_amountTokens req
    then ret (Err 400 "Insufficient token balance")
    else
      let listing :=
        mkListing uuid (toLowerCase (cl_sellerEmail req)) (cl_sellerUserId req)
                  (cl_sellerWallet req) (cl_amountTokens req) (cl_priceRupees req)
                  active now now in
      let* _ := modify (set_listings (cons listing)) in
      let* _ := saveListings in
      ret (Created listing).

Definition status_name (s : ListingStatus) : string :=
  match s with active => "active" | sold => "sold" | cancelled => "cancelled" end.

Definition listListings (status : string) : M Response :=
  let status := if truthy status then status else "active" in
  let* ls := gets listings in
  ret (OkListings (List.filter (fun l => String.eqb (status_name (l_status l)) status) ls)).

Record BuyListingRequest := mkBuyListingRequest {
  b_listingId : string;
  b_buyerEmail : string;
  b_buyerUserId : option string;
  b_buyerWallet : string;
  b_signature : string
}.

(** [listings.find((l) => l.id === listingId)] *)
Definition find_listing (listingId : string) (ls : list MarketplaceListing)
  : option MarketplaceListing :=
  List.find (fun l => String.eqb (l_id l) listingId) ls.

(** [listing.status = "sold"; listing.updatedAt = ...] *)
Definition sell (now : Z) (l : MarketplaceListing) : MarketplaceListing :=
  mkListing (l_id l) (l_sellerEmail l) (l_sellerUserId l) (l_sellerWallet l)
            (l_amountTokens l) (l_priceRupees l) sold (l_createdAt l) now.

(** The assignment goes to the object [find] returned, which sits in the
    array: the first listing with that id is updated in place. *)
Fixpoint mark_sold (listingId : string) (now : Z) (ls : list MarketplaceListing)
  : list MarketplaceListing :=
  match ls with
  | [] => []
  | l :: rest =>
      if String.eqb (l_id l) listingId then sell now l :: rest
      else l :: mark_sold listingId now rest
  end.

Definition buyListing (now : Z) (uuid rand : string) (req : BuyListingRequest) : M Response :=
  if negb (truthy (b_listingId req)) || negb (truthy (b_buyerEmail req))
     || negb (truthy (b_buyerWallet req)) || negb (truthy (b_signature req))
  then ret (Err 400 "Missing required fields")
  else
    let* found := gets (fun w => find_listing (b_listingId req) (listings w)) in
    match found with
    | None => ret (Err 404 "Listing not found")
    | Some listing =>
        if negb (bool_decide (l_status listing = active))
        then ret (Err 400 "Listing not available")
        else if String.eqb (l_sellerEmail listing) (toLowerCase (b_buyerEmail req))
        then ret (Err 400 "Cannot buy your own listing")
        else
          let* balBuyer := getUserBalanceByEmailInternal now (b_buyerEmail req) in
          let rupees := nullish (balBuyer ≫= rupeesBalance) 100 in
          if rupees <? l_priceRupees listing
          then ret (Err 400 "Insufficient rupees balance")
          else
            let* buyerBalance :=
              updateUserBalanceByEmail now rand (b_buyerEmail req)
                (l_amountTokens listing) (- l_priceRupees listing)
                "market_buy" (l_id listing) (l_sellerEmail listing) in
            let* sellerBalance :=
              updateUserBalanceByEmail now rand (l_sellerEmail listing)
                (- l_amountTokens listing) (l_priceRupees listing)
                "market_sell" (l_id listing) (b_buyerEmail req) in
            let* _ := modify (set_listings (mark_sold (l_id listing) now)) in
            let* _ := saveListings in
            let order :=
              mkOrder uuid (l_id listing) (toLowerCase (b_buyerEmail req))
                      (b_buyerUserId req) (b_buyerWallet req)
                      (l_amountTokens listing) (l_priceRupees listing)
                      completed (Some (b_signature req)) now in
            let* _ := modify (set_orders (cons order)) in
            let* _ := saveOrders in
            ret (OkBought (sell now listing) order buyerBalance sellerBalance)
    end.

(** The error answers, under the names the specification gives them. *)
Definition MissingFields : Response := Err 400 "Missing required fields".
Definition InvalidSignature : Response := Err 400 "Invalid signature".
Definition NotFound : Response := Err 404 "Listing not found".
Definition ListingUnavailable : Response := Err 400 "Listing not available".
Definition SelfTrade : Response := Err 400 "Cannot buy your own listing".
Definition InsufficientBalance : Response := Err 400 "Insufficient rupees balance".
Definition InsufficientTokens : Response := Err 400 "Insufficient token balance".

(** ** The server as a transition system *)

Record Env := mkEnv {
  now : Z;
  uuid : string;
  rand : string;
  replies : list Net
}.

Inductive Request :=
| StoreBalance (req : StoreRequest)
| GetBalance (uid : string)
| GetBalanceByEmail (email : string)
| CreateListing (req : CreateListingRequest)
| ListListings (status : string)
| BuyListing (req : BuyListingRequest).

Definition route (e : Env) (r : Request) : St → Response * St :=
  match r with
  | StoreBalance req => handle "Failed to store balance" (storeUserBalance (now e) (rand e) req)
  | GetBalance uid => handle "Failed to retrieve balance" (getUserBalance (now e) uid)
  | GetBalanceByEmail email =>
      handle "Failed to retrieve balance" (getUserBalanceByEmail (now e) email)
  | CreateListing req => handle "Failed to create listing" (createListing (now e) (uuid e) req)
  | ListListings status => handle "Failed to list" (listListings status)
  | BuyListing req => handle "Failed to buy listing" (buyListing (now e) (uuid e) (rand e) req)
  end.

Definition serve (e : Env) (r : Request) (w : World) : Response * World :=
  let '(resp, s) := route e r (mkSt w (replies e)) in (resp, world s).

Fixpoint serve_all (rs : list (Env * Request)) (w : World) : World :=
  match rs with
  | [] => w
  | (e, r) :: rest => serve_all rest (snd (serve e r w))
  end.

(** ** [api/balance/email/[userEmail].ts]: the edge read route *)

Module Edge.

(** The loop over [ipfsGateways]: the first gateway that answers wins, its
    blob is coerced and cached in memory; a gateway that fails is skipped. *)
Fixpoint tryGateways (n : nat) (emailKey ipfsHash : string) : M (option UserBalance) :=
  match n with
  | O => ret None
  | S n' =>
      let* o := fetch in
      match o with
      | NetOk _ =>
          let* content := gets (fun w => ipfs w !! ipfsHash) in
          match content with
          | Some balanceData =>
              let balanceData := coerce_rupees balanceData in
              let* _ := modify (set_inMemoryBalances (<[emailKey := balanceData]>)) in
              ret (Some balanceData)
          | None => tryGateways n' emailKey ipfsHash
          end
      | _ => tryGateways n' emailKey ipfsHash
      end
  end.

(** The handler; the [note] of its default answer is left out. *)
Definition handler (now : Z) (email : string) : M Response :=
  if negb (truthy email) then ret (Err 400 "User email required")
  else
    let emailKey := toLowerCase email in
    let* mem := gets (fun w => inMemoryBalances w !! emailKey) in
    match mem with
    | Some b => ret (OkBalance b)
    | None =>
        let* h0 := gets (known_hash emailKey) in
        let* ipfsHash :=
          match h0 with
          | Some h => ret (Some h)
          | None =>
              let* headers := gets pinataCreds in
              if headers then searchPinata emailKey else ret None
          end in
        let* balanceData :=
          match ipfsHash with
          | Some h => tryGateways 5 emailKey h
          | None => ret None
          end in
        match balanceData with
        | Some b => ret (OkBalance b)
        | None => ret (OkBalance (default_balance emailKey now))
        end
    end.

Definition serve (e : Env) (email : string) (w : World) : Response * World :=
  let '(resp, s) := handle "Failed to retrieve balance" (handler (now e) email)
                           (mkSt w (replies e)) in
  (resp, world s).

End Edge.

(** * Vocabulary of the properties *)

(** ** Frames *)

(** The state with the address index ([emailToIpfsMap]) blanked. *)
Definition index_erase (w : World) : World := set_emailToIpfsMap (fun _ => ∅) w.

(** Where a snapshot returned by the internal read comes from. *)
Inductive snapshot_source (now : Z) (emailKey : string) (w : World)
  : option UserBalance → Prop :=
| from_memory b :
    inMemoryBalances w !! emailKey = Some b → snapshot_source now emailKey w (Some b)
| from_default :
    inMemoryBalances w !! emailKey = None →
    snapshot_source now emailKey w (Some (default_balance emailKey now))
| from_ipfs h bal :
    inMemoryBalances w !! emailKey = None →
    ipfs w !! h = Some bal → snapshot_source now emailKey w (Some (coerce_rupees bal))
| from_failure :
    inMemoryBalances w !! emailKey = None → snapshot_source now emailKey w None.

(** ** The transaction-sum invariant *)

(** [sum(tx.amount for tx in transactions)] *)
Definition sum_amounts (txs : list Transaction) : Z :=
  fold_right Z.add 0 (map tx_amount txs).

(** The totals a history runs through: the sums of its first record, of its
    first two records, and so on. *)
Fixpoint running_totals (acc : Z) (amounts : list Z) : list Z :=
  match amounts with
  | [] => []
  | a :: rest => (acc + a) :: running_totals (acc + a) rest
  end.

(** Every running total of the history is a safe integer, so that no sum
    computed along it was rounded. *)
Definition history_safe (txs : list Transaction) : bool :=
  forallb safe_integer (running_totals 0 (map tx_amount txs)).

(** [tokenBalance == sum(tx.amount for tx in transactions)], for a history
    whose running totals are safe integers. *)
Definition tx_sum_ok (b : UserBalance) : Prop :=
  history_safe (transactions b) = true →
  totalBalance b = sum_amounts (transactions b).

(** Every snapshot held in memory or pinned satisfies the invariant. *)
Definition ledger_ok (w : World) : Prop :=
  (∀ k b, inMemoryBalances w !! k = Some b → tx_sum_ok b)
  ∧ (∀ c b, ipfs w !! c = Some b → tx_sum_ok b).

(** ** Delta application *)

(** The three ways [storeUserBalanceInternal] ends, after its read left the
    state [w1] and produced the snapshot [nb] for the account [key]. *)
Inductive store_end (key : string) (nb : UserBalance) (d : LedgerDelta) (w1 : World)
  : Result UserBalance → World → Prop :=
| stored_in_memory :
    store_end key nb d w1 (Val nb) (log_delta d (set_inMemoryBalances (<[key := nb]>) w1))
| stored_pinned cid :
    store_end key nb d w1 (Val nb)
      (log_delta d ((if truthy cid then set_emailToIpfsMap (<[key := cid]>) else id)
                      (pin_balance (balance_name key) cid nb w1)))
| store_failed e :
    store_end key nb d w1 (Throw e) w1.

(** What a delta application leaves of the state it started from. *)
Record delta_frame {A} (d : LedgerDelta) (w : World) (r : Result A) (w' : World) : Prop := {
  df_listings : listings w' = listings w;
  df_orders : orders w' = orders w;
  df_creds : pinataCreds w' = pinataCreds w;
  df_applied :
    applied w' = match r with Val _ => (applied w ++ [d])%list | Throw _ => applied w end;
  df_ledger : ledger_ok w → ledger_ok w'
}.

(** The state with the two collection ids blanked. *)
Definition cids_erase (w : World) : World := set_listingsCid None (set_ordersCid None w).

(** ** The effect of a delta application on the balance stores *)





(** ** Purchases *)

(** The request carries its four required fields. *)
Definition has_required_fields (req : BuyListingRequest) : Prop :=
  b_listingId req ≠ "" ∧ b_buyerEmail req ≠ "" ∧ b_buyerWallet req ≠ "" ∧ b_signature req ≠ "".

(** The rupee balance the purchase compares with the price:
    [balBuyer?.rupeesBalance ?? 100] for the snapshot just read. *)
Definition buyer_rupees (now : Z) (buyerEmail : string) (s : St) : Z :=
  match getUserBalanceByEmailInternal now buyerEmail s with
  | (Val balBuyer, _) => nullish (balBuyer ≫= rupeesBalance) 100
  | (Throw _, _) => 100
  end.

(** The state after the rupee check has read the buyer's snapshot. *)
Definition after_rupee_check (now : Z) (buyerEmail : string) (s : St) : St :=
  snd (getUserBalanceByEmailInternal now buyerEmail s).

(** The two deltas of a purchase of the listing [L]. *)
Definition buyer_delta (req : BuyListingRequest) (L : MarketplaceListing) : LedgerDelta :=
  mkDelta (toLowerCase (b_buyerEmail req)) (l_amountTokens L) (- l_priceRupees L).

Definition seller_delta (L : MarketplaceListing) : LedgerDelta :=
  mkDelta (toLowerCase (l_sellerEmail L)) (- l_amountTokens L) (l_priceRupees L).

(** The checks of [buyListing], in the order of the source. *)
Inductive buy_check (now : Z) (req : BuyListingRequest) (s : St) : Type :=
| check_missing : ¬ has_required_fields req → buy_check now req s
| check_not_found :
    has_required_fields req →
    find_listing (b_listingId req) (listings (world s)) = None → buy_check now req s
| check_unavailable L :
    has_required_fields req →
    find_listing (b_listingId req) (listings (world s)) = Some L →
    l_status L ≠ active → buy_check now req s
| check_self_trade L :
    has_required_fields req →
    find_listing (b_listingId req) (listings (world s)) = Some L →
    l_status L = active →
    l_sellerEmail L = toLowerCase (b_buyerEmail req) → buy_check now req s
| check_insufficient L :
    has_required_fields req →
    find_listing (b_listingId req) (listings (world s)) = Some L →
    l_status L = active →
    l_sellerEmail L ≠ toLowerCase (b_buyerEmail req) →
    buyer_rupees now (b_buyerEmail req) s < l_priceRupees L → buy_check now req s
| check_passed L :
    has_required_fields req →
    find_listing (b_listingId req) (listings (world s)) = Some L →
    l_status L = active →
    l_sellerEmail L ≠ toLowerCase (b_buyerEmail req) →
    l_priceRupees L ≤ buyer_rupees now (b_buyerEmail req) s → buy_check now req s.

(** What a purchase that passed every check does to the state. *)
Record buy_settled (now : Z) (req : BuyListingRequest) (L : MarketplaceListing)
    (w : World) (r : Result Response) (w' : World) : Prop := {
  bs_listings :
    listings w' = listings w ∨ listings w' = mark_sold (l_id L) now (listings w);
  bs_ledger : ledger_ok w → ledger_ok w';
  bs_result :
    match r with
    | Val resp =>
        (∃ o bb sb, resp = OkBought (sell now L) o bb sb)
        ∧ applied w' = (applied w ++ [buyer_delta req L; seller_delta L])%list
        ∧ listings w' = mark_sold (l_id L) now (listings w)
    | Throw _ => True
    end
}.

(** What [handle] answers for the outcome [r] of a handler. *)
Definition answer (dflt : string) (r : Result Response) : Response :=
  match r with
  | Val resp => resp
  | Throw e => Err 500 (if truthy e then e else dflt)
  end.

(** The purchase answered 200. *)
Definition bought (resp : Response) : Prop :=
  ∃ l o bb sb, resp = OkBought l o bb sb.

(** ** The collection of listings *)

(** A listing that has left [active] is kept as it is. *)
Definition keeps_terminal (old new : MarketplaceListing) : Prop :=
  l_status old ≠ active → new = old.

(** New listings come in front; the old ones stay in place, the terminal
    ones unchanged. *)
Definition listings_evolve (ls ls' : list MarketplaceListing) : Prop :=
  ∃ pre kept, ls' = (pre ++ kept)%list ∧ Forall2 keeps_terminal ls kept.

(** ** Sample runs *)

(** A request served at time [t], with no answer from the network. *)
Definition demo_env (t : Z) : Env := mkEnv t ("id-" +:+ pretty t) "r4nd0m" [].

(** A market of one listing: [a@x.com] is granted 50 tokens and offers 20 of
    them for 20 rupees; nothing is pinned (no credentials). *)
Definition demo_requests : list (Env * Request) :=
  [ (demo_env 1, StoreBalance (mkStoreRequest "a@x.com" (Some "uid-a") (Some "0xA") 50
                                              "0xsignature-admin" "ticket-1" None));
    (demo_env 2, CreateListing (mkCreateListingRequest "A@x.com" (Some "uid-a") "0xA" 20 20
                                                       "0xsignature-seller")) ].

Definition demo_market : World := serve_all demo_requests (initial false).

(** [b@x.com] buys that listing. *)
Definition demo_buy : BuyListingRequest :=
  mkBuyListingRequest "id-2" "B@x.com" (Some "uid-b") "0xB" "0xsignature-buyer".

(** The market once the listing is sold. *)
Definition demo_sold : World := snd (serve (demo_env 3) (BuyListing demo_buy) demo_market).

(** The seller offers 5 more tokens. *)
Definition demo_relist : CreateListingRequest :=
  mkCreateListingRequest "a@x.com" None "0xA" 5 5 "0xsignature-seller".

(** The seller tries to buy the listing. *)
Definition demo_self_buy : BuyListingRequest :=
  mkBuyListingRequest "id-2" "A@X.com" (Some "uid-a") "0xA" "0xsignature-seller".

(** A market whose listing costs more than the 100 rupees of a new account. *)
Definition demo_dear_market : World :=
  serve_all
    [ (demo_env 1, StoreBalance (mkStoreRequest "a@x.com" (Some "uid-a") (Some "0xA") 500
                                                "0xsignature-admin" "ticket-1" None));
      (demo_env 2, CreateListing (mkCreateListingRequest "a@x.com" (Some "uid-a") "0xA" 150 150
                                                         "0xsignature-seller")) ]
    (initial false).

(** Two grants to [a@x.com]: 2^53 tokens, then one more. *)
Definition demo_large_grants : list (Env * Request) :=
  [ (demo_env 1, StoreBalance (mkStoreRequest "a@x.com" (Some "uid-a") (Some "0xA")
                                              9007199254740992
                                              "0xsignature-admin" "ticket-1" None));
    (demo_env 2, StoreBalance (mkStoreRequest "a@x.com" (Some "uid-a") (Some "0xA") 1
                                              "0xsignature-admin" "ticket-2" None)) ].

(** ** Account metadata *)

(** The written snapshot has the [userId] and the [walletAddress] of the
    snapshot [ex], where [ex] has one. *)
Definition keeps_metadata (ex written : UserBalance) : Prop :=
  (is_Some (userId ex) → userId written = userId ex)
  ∧ (is_Some (walletAddress ex) → walletAddress written = walletAddress ex).

(** The next request to the content store is not answered [ok]. *)
Definition read_fails (replies : list Net) : Prop :=
  match replies with NetOk _ :: _ => False | _ => True end.

(** The snapshot the public grant route loads: the blob pinned under the
    known hash when there is one ([None] when the content store does not
    answer), the snapshot in memory otherwise. *)
Definition loaded_by_grant (key : string) (s : St) : option UserBalance :=
  match known_hash key (world s) with
  | Some h =>
      match net s with
      | NetOk _ :: _ => ipfs (world s) !! h
      | _ => None
      end
  | None => inMemoryBalances (world s) !! key
  end.

(** ** The rupee check *)

(** The rupees the purchase takes the buyer to hold, from the state and the
    answers the content store is about to give: those of the snapshot in
    memory if the account has one; otherwise those of the blob pinned under
    the account's hash (the known hash, or the pin the pinning service lists
    under the account's name) when every request on the way is answered;
    100 for a snapshot without numeric [rupeesBalance], and 100 when a
    request fails, the blob is missing or nothing is found for the account. *)
Definition rupees_seen (key : string) (w : World) (replies : list Net) : Z :=
  let pinned (h : string) (replies : list Net) :=
    match replies with
    | NetOk _ :: _ =>
        match ipfs w !! h with
        | Some b => nullish (rupeesBalance b) 100
        | None => 100
        end
    | _ => 100
    end in
  match inMemoryBalances w !! key with
  | Some m => nullish (rupeesBalance m) 100
  | None =>
      match known_hash key w with
      | Some h => pinned h replies
      | None =>
          if pinataCreds w then
            match replies with
            | NetOk _ :: rest =>
                match pinList w !! balance_name key with
                | Some h => if truthy h then pinned h rest else 100
                | None => 100
                end
            | _ => 100
            end
          else 100
      end
  end.

(** A world with credentials where the snapshot of [b@x.com], pinned and its
    hash known, holds no rupee, and [a@x.com] offers 20 tokens for 50
    rupees. *)
Definition demo_poor_buyer : World :=
  mkWorld ∅ {["b@x.com" := "QmB"]} ∅
          [mkListing "id-2" "a@x.com" (Some "uid-a") "0xA" 20 50 active 2 2] []
          None None true
          {["QmB" := mkUserBalance "b@x.com" (Some "uid-b") (Some "0xB") 0 (Some 0) [] 1]}
          {[balance_name "b@x.com" := "QmB"]} [].

(** ** Reads *)

(** The account has no snapshot in memory, no known hash and no pin. *)
Definition never_seen (emailKey : string) (w : World) : Prop :=
  inMemoryBalances w !! emailKey = None
  ∧ known_hash emailKey w = None
  ∧ pinList w !! balance_name emailKey = None.

(** A blob pinned before [rupeesBalance] existed, its hash known. *)
Definition old_blob : UserBalance :=
  mkUserBalance "old@x.com" (Some "uid-o") None 7 None
    [mkTransaction "tx_0_abc" 7 "0xsignature-admin" 0 "ticket-0" None "old@x.com" None] 0.

(** A server with credentials that knows the hash of [old_blob]. *)
Definition old_world : World :=
  mkWorld ∅ {["old@x.com" := "QmOld"]} ∅ [] [] None None true
          {["QmOld" := old_blob]} {[balance_name "old@x.com" := "QmOld"]} [].

(** The two answers of the request validation of [createListing]. *)
Definition validation_error (resp : Response) : Prop :=
  resp = MissingFields ∨ resp = InvalidSignature.

(** A listing of -5 tokens for -5 rupees. *)
Definition negative_request : CreateListingRequest :=
  mkCreateListingRequest "a@x.com" None "0xA" (-5) (-5) "0xsignature".

(** The server finds nothing for the account: no snapshot in memory, no
    known hash, and no pin it could list, for want of credentials or of a
    pin with a hash under the account's name. *)
Definition nothing_found (emailKey : string) (w : World) : Prop :=
  inMemoryBalances w !! emailKey = None
  ∧ known_hash emailKey w = None
  ∧ (pinataCreds w = false
     ∨ ∀ h, pinList w !! balance_name emailKey = Some h → truthy h = false).

(** The content store answers the next three requests. *)
Definition store_answers (s : St) : Prop :=
  ∃ c1 c2 c3 rest, net s = NetOk c1 :: NetOk c2 :: NetOk c3 :: rest.

(** Where a completed delta application left the snapshot it wrote. *)
Definition stored (key : string) (b : UserBalance) (w : World) : Prop :=
  inMemoryBalances w !! key = Some b ∨ ∃ cid, ipfs w !! cid = Some b.

(** ** Holdings *)

(** The tokens and rupees of an account as the snapshot in memory has them;
    an account without snapshot holds the default grant. *)
Definition holdings (key : string) (w : World) : Z * Z :=
  match inMemoryBalances w !! key with
  | Some b => (totalBalance b, nullish (rupeesBalance b) 100)
  | None => (0, 100)
  end.

(** A server without Pinata credentials, which therefore never learnt a
    hash: every snapshot lives in [inMemoryBalances]. *)
Definition memory_mode (w : World) : Prop :=
  pinataCreds w = false ∧ emailToIpfsMap w = ∅.

(** The order [buyListing] records for the listing [L]. *)
Definition order_of (now : Z) (uuid : string) (req : BuyListingRequest)
    (L : MarketplaceListing) : MarketplaceOrder :=
  mkOrder uuid (l_id L) (toLowerCase (b_buyerEmail req)) (b_buyerUserId req)
          (b_buyerWallet req) (l_amountTokens L) (l_priceRupees L)
          completed (Some (b_signature req)) now.

(** ** Admin grants *)

(** The grant carries its four required fields ([amount] is tested for
    truthiness: zero counts as missing). *)
Definition store_fields_ok (req : StoreRequest) : Prop :=
  sr_userEmail req ≠ "" ∧ sr_amount req ≠ 0
  ∧ sr_adminSignature req ≠ "" ∧ sr_ticketId req ≠ "".

Definition StoreMissingFields : Response :=
  Err 400 "Missing required fields (userEmail, amount, adminSignature, ticketId)".

(** The answers of a grant that went through. *)
Definition store_accepted (resp : Response) : Prop :=
  ∃ cid bal url note, resp = OkStored cid bal url note.

(** The requests that only read: the two balance reads and the listing of
    the collection. *)
Definition is_read (r : Request) : Prop :=
  match r with
  | GetBalance _ | GetBalanceByEmail _ | ListListings _ => True
  | _ => False
  end.

(** The hash index [m'] is [m], possibly with the hash the pinning service
    lists for one account added. *)
Definition learns_pinned_hash (w : World) (m' : gmap string string) : Prop :=
  m' = emailToIpfsMap w
  ∨ ∃ key h, pinList w !! balance_name key = Some h ∧ m' = <[key := h]> (emailToIpfsMap w).

(** The grant of the sample market: 50 tokens for [a@x.com]. *)
Definition demo_grant : StoreRequest :=
  mkStoreRequest "a@x.com" (Some "uid-a") (Some "0xA") 50 "0xsignature-admin" "ticket-1" None.

(** ** Listings *)

(** The request passes the validation of [createListing]. *)
Definition listing_fields_ok (req : CreateListingRequest) : Prop :=
  cl_sellerEmail req ≠ "" ∧ cl_sellerWallet req ≠ ""
  ∧ cl_amountTokens req ≠ 0 ∧ cl_priceRupees req ≠ 0
  ∧ (10 ≤ js_length (cl_signature req))%nat.

(** The listing [createListing] makes of a request. *)
Definition listing_of (e : Env) (req : CreateListingRequest) : MarketplaceListing :=
  mkListing (uuid e) (toLowerCase (cl_sellerEmail req)) (cl_sellerUserId req)
            (cl_sellerWallet req) (cl_amountTokens req) (cl_priceRupees req)
            active (now e) (now e).

(** What one request does to the collection: nothing, one listing made of a
    validated request put in front, or the first listing of some id sold. *)
Inductive listing_step (e : Env) (ls : list MarketplaceListing)
  : list MarketplaceListing → Prop :=
| step_same : listing_step e ls ls
| step_new req : listing_fields_ok req → listing_step e ls (listing_of e req :: ls)
| step_sold id : listing_step e ls (mark_sold id (now e) ls).

(** What holds of every listing the server ever holds. *)
Definition wellformed (l : MarketplaceListing) : Prop :=
  toLowerCase (l_sellerEmail l) = l_sellerEmail l
  ∧ l_sellerEmail l ≠ "" ∧ l_sellerWallet l ≠ ""
  ∧ l_amountTokens l ≠ 0 ∧ l_priceRupees l ≠ 0
  ∧ l_status l ≠ cancelled
  ∧ (l_status l = active → l_updatedAt l = l_createdAt l).

(** ** Snapshots in memory on a server with credentials *)

(** The pinning service refused the grant of 50 tokens to [a@x.com], which
    went to memory; it accepts the next uploads. *)
Definition demo_fallback : World :=
  snd (serve (demo_env 1) (StoreBalance demo_grant) (initial true)).

(** A market on a server with credentials where the pinning service was
    down so far: [a@x.com] holds 50 tokens and offers 20 of them for 20
    rupees, [b@x.com] holds 10 tokens; both snapshots are in memory. *)
Definition demo_fallback_market : World :=
  serve_all
    [ (demo_env 1, StoreBalance demo_grant);
      (demo_env 2, StoreBalance (mkStoreRequest "b@x.com" (Some "uid-b") (Some "0xB") 10
                                                "0xsignature-admin" "ticket-2" None));
      (demo_env 3, CreateListing (mkCreateListingRequest "a@x.com" (Some "uid-a") "0xA" 20 20
                                                         "0xsignature-seller")) ]
    (initial true).

Definition demo_fallback_buy : BuyListingRequest :=
  mkBuyListingRequest "id-3" "b@x.com" (Some "uid-b") "0xB" "0xsignature-buyer".


(** ** The gateways of the edge read *)

(** The request did not answer [ok]. *)
Definition gateway_failed (o : Net) : Prop :=
  match o with NetOk _ => False | _ => True end.

(** * [functions/api/[[path]].ts]: the Cloudflare Pages router *)

Module Router.

(** [s.split(sep)] for a one-character separator. *)
Fixpoint split (sep : ascii) (s : string) : list string :=
  match s with
  | EmptyString => [EmptyString]
  | String c r =>
      if Ascii.eqb c sep then EmptyString :: split sep r
      else match split sep r with
           | [] => [String c EmptyString]
           | x :: xs => String c x :: xs
           end
  end.

(** [path.split('/')[n]]; [None] stands for [undefined]. *)
Definition segment (n : nat) (path : string) : option string :=
  nth_error (split "/" path) n.

Definition startsWith (s pre : string) : bool := String.prefix pre s.

(** The handler a request is passed to, with the [req.params] the router
    sets; [Preflight] is the answer to [OPTIONS], [NotFound] the [default]
    case. *)
Inductive Target :=
| Preflight
| Ping
| Demo
| AdminLogin
| AdminValidate
| ListTickets
| CreateTicket
| GetTicket (id : option string)
| UpdateTicketStatus (id : option string)
| DeleteTicket (id : option string)
| ClearAllTickets
| ClearTicketsByStatus
| UploadReport
| AnalyzeReport
| StoreUserBalance
| GetUserBalance (userId : option string)
| GetUserBalanceByEmail (userEmail : option string)
| GetAllBalances
| CreateListing
| ListListings
| BuyListing
| NotFound.

(** [onRequest], up to the choice of the handler: the [switch (true)] takes
    the first case whose condition holds. *)
Definition dispatch (method path : string) : Target :=
  if String.eqb method "OPTIONS" then Preflight
  else if String.eqb path "/ping" then Ping
  else if String.eqb path "/demo" && String.eqb method "GET" then Demo
  else if String.eqb path "/admin/login" && String.eqb method "POST" then AdminLogin
  else if String.eqb path "/admin/validate" && String.eqb method "GET" then AdminValidate
  else if String.eqb path "/tickets" && String.eqb method "GET" then ListTickets
  else if String.eqb path "/tickets" && String.eqb method "POST" then CreateTicket
  else if startsWith path "/tickets/" && String.eqb method "GET"
       then GetTicket (segment 2 path)
  else if startsWith path "/tickets/" && String.eqb method "PATCH"
       then UpdateTicketStatus (segment 2 path)
  else if startsWith path "/tickets/" && String.eqb method "DELETE"
       then DeleteTicket (segment 2 path)
  else if String.eqb path "/tickets/clear/all" && String.eqb method "DELETE"
       then ClearAllTickets
  else if String.eqb path "/tickets/clear/status" && String.eqb method "DELETE"
       then ClearTicketsByStatus
  else if String.eqb path "/upload-report" && String.eqb method "POST" then UploadReport
  else if String.eqb path "/analyze-report" && String.eqb method "POST" then AnalyzeReport
  else if String.eqb path "/balance/store" && String.eqb method "POST" then StoreUserBalance
  else if startsWith path "/balance/" && String.eqb method "GET"
       then GetUserBalance (segment 2 path)
  else if startsWith path "/balance/email/" && String.eqb method "GET"
       then GetUserBalanceByEmail (segment 3 path)
  else if String.eqb path "/balance" && String.eqb method "GET" then GetAllBalances
  else if String.eqb path "/marketplace/list" && String.eqb method "POST" then CreateListing
  else if String.eqb path "/marketplace/listings" && String.eqb method "GET" then ListListings
  else if String.eqb path "/marketplace/buy" && String.eqb method "POST" then BuyListing
  else NotFound.

End Router.

(** * The ticket desk of the Express server: the store and the ticket
      routes ([server/routes/store.ts]) and the admin routes
      ([server/CommandMenu.tsx]) *)

Module Tickets.

Section Desk.

(** The handlers pass the analysis of a report along without reading it. *)
Context {AnalysisResult : Type}.

Inductive TicketStatus := pending | approved | rejected.

Definition status_name (s : TicketStatus) : string :=
  match s with pending => "pending" | approved => "approved" | rejected => "rejected" end.

Record Ticket := mkTicket {
  t_id : string;
  t_walletAddress : string;
  t_userId : string;
  t_userEmail : string;
  t_reportCid : string;
  t_reportName : string;
  t_analysis : AnalysisResult;
  t_status : TicketStatus;
  t_txHash : option string;
  t_createdAt : Z;
  t_updatedAt : Z
}.

(** ** The store *)

(** [ticketsCache] once loaded, and [adminSessions]. *)
Record Store := mkStore {
  tickets : list Ticket;
  adminSessions : gmap string Z
}.

Definition set_tickets (t : list Ticket) (st : Store) : Store :=
  mkStore t (adminSessions st).

Definition set_adminSessions (f : gmap string Z → gmap string Z) (st : Store) : Store :=
  mkStore (tickets st) (f (adminSessions st)).

(** [ticketsCache = t; await fs.writeFile(...)]: the cache is replaced
    before the write, which succeeds when [disk] holds and throws
    otherwise. *)
Definition saveTickets (disk : bool) (t : list Ticket) (st : Store) : Result unit * Store :=
  if disk then (Val tt, set_tickets t st) else (Throw "write failed", set_tickets t st).

(** [all.unshift(ticket); await saveTickets(all)] *)
Definition addTicket (disk : bool) (ticket : Ticket) (st : Store) : Result unit * Store :=
  saveTickets disk (ticket :: tickets st) st.

(** [all.find((t) => t.id === id)] *)
Definition getTicketById (id : string) (st : Store) : option Ticket :=
  List.find (fun t => String.eqb (t_id t) id) (tickets st).

(** [all[idx] = updater({ ...all[idx] })] for the first index with that id. *)
Fixpoint update_first (id : string) (updater : Ticket → Ticket) (all : list Ticket)
  : list Ticket :=
  match all with
  | [] => []
  | t :: rest =>
      if String.eqb (t_id t) id then updater t :: rest
      else t :: update_first id updater rest
  end.

Definition updateTicket (disk : bool) (id : string) (updater : Ticket → Ticket) (st : Store)
  : Result unit * Store :=
  match getTicketById id st with
  | None => (Val tt, st)
  | Some _ => saveTickets disk (update_first id updater (tickets st)) st
  end.

(** [all.splice(idx, 1)] for the first index with that id. *)
Fixpoint remove_first (id : string) (all : list Ticket) : list Ticket :=
  match all with
  | [] => []
  | t :: rest => if String.eqb (t_id t) id then rest else t :: remove_first id rest
  end.

Definition deleteTicket (disk : bool) (id : string) (st : Store) : Result bool * Store :=
  match getTicketById id st with
  | None => (Val false, st)
  | Some _ =>
      match saveTickets disk (remove_first id (tickets st)) st with
      | (Val _, st') => (Val true, st')
      | (Throw e, st') => (Throw e, st')
      end
  end.

(** [token] stands for [crypto.randomBytes(24).toString("hex")]. *)
Definition createAdminSession (now : Z) (token : string) (hours : Z) (st : Store)
  : (string * Z) * Store :=
  let expiresAt := now + hours * 60 * 60 * 1000 in
  ((token, expiresAt), set_adminSessions (<[token := expiresAt]>) st).

Definition validateAdmin (now : Z) (token : option string) (st : Store) : bool * Store :=
  if negb (truthy_opt token) then (false, st)
  else
    let tok := default "" token in
    match adminSessions st !! tok with
    | None => (false, st)
    | Some exp =>
        if negb (truthy_num exp) then (false, st)
        else if now >? exp then (false, set_adminSessions (delete tok) st)
        else (true, st)
    end.

(** ** The routes *)

Inductive Response :=
| Err (code : Z) (error : string)
| OkTickets (ts : list Ticket)
| OkTicket (code : Z) (t : option Ticket)
| Success
| Cleared (clearedCount : Z) (remainingCount : option Z)
| Session (token : string) (expiresAt : Z)
| Valid
| Invalid
| Unhandled (e : string).

(** What one request finds in its environment: the clock, the random id and
    token, and whether the write of [tickets.json] succeeds. *)
Record Env := mkEnv {
  now : Z;
  uuid : string;
  token : string;
  disk : bool
}.

(** A route without [try]: a rejected promise leaves the request unanswered
    by the handler. *)
Definition unhandled (r : Result unit * Store) (k : Store → Response * Store)
  : Response * Store :=
  match r with
  | (Val _, st) => k st
  | (Throw e, st) => (Unhandled e, st)
  end.

(** [catch (e) { res.status(500).json({ error: e?.message || dflt }) }] *)
Definition caught (dflt e : string) : Response := Err 500 (if truthy e then e else dflt).

(** [t.walletAddress.toLowerCase() === walletAddress.toLowerCase()] *)
Definition same_wallet (walletAddress : string) (t : Ticket) : bool :=
  String.eqb (toLowerCase (t_walletAddress t)) (toLowerCase walletAddress).

(** The admin routes; [adminUser] and [adminPass] stand for
    [process.env.ADMIN_USERNAME] and [process.env.ADMIN_PASSWORD]. *)
Definition adminLogin (adminUser adminPass : option string) (e : Env)
    (username password : option string) (st : Store) : Response * Store :=
  let expectedUser := if truthy_opt adminUser then default "" adminUser else "admin" in
  let expectedPass := if truthy_opt adminPass then default "" adminPass else "admin" in
  if negb (bool_decide (username = Some expectedUser))
     || negb (bool_decide (password = Some expectedPass))
  then (Err 401 "Invalid credentials", st)
  else
    let '((tok, expiresAt), st') := createAdminSession (now e) (token e) 8 st in
    (Session tok expiresAt, st').

Definition validateAdminSession (e : Env) (adminToken : option string) (st : Store)
  : Response * Store :=
  let '(isValid, st') := validateAdmin (now e) adminToken st in
  if isValid then (Valid, st') else (Invalid, st').

Definition listTickets (e : Env) (adminToken walletAddress : option string) (st : Store)
  : Response * Store :=
  let all := tickets st in
  let '(isAdmin, st') := validateAdmin (now e) adminToken st in
  let walletAddress := if truthy_opt walletAddress then default "" walletAddress else "" in
  if negb isAdmin then
    if negb (truthy walletAddress) then (Err 400 "walletAddress required", st')
    else (OkTickets (List.filter (same_wallet walletAddress) all), st')
  else if truthy walletAddress
  then (OkTickets (List.filter (same_wallet walletAddress) all), st')
  else (OkTickets all, st').

Definition getTicket (id : string) (st : Store) : Response * Store :=
  match getTicketById id st with
  | None => (Err 404 "Not found", st)
  | Some t => (OkTicket 200 (Some t), st)
  end.

Record CreateTicketRequest := mkCreateTicketRequest {
  c_walletAddress : string;
  c_reportCid : string;
  c_reportName : string;
  c_analysis : option AnalysisResult;
  c_userId : string;
  c_userEmail : string
}.

Definition createTicket (e : Env) (body : CreateTicketRequest) (st : Store)
  : Response * Store :=
  match c_analysis body with
  | Some analysis =>
      if negb (truthy (c_walletAddress body)) || negb (truthy (c_reportCid body))
         || negb (truthy (c_reportName body)) || negb (truthy (c_userId body))
         || negb (truthy (c_userEmail body))
      then (Err 400 "Missing required fields", st)
      else
        let ticket :=
          mkTicket (uuid e) (c_walletAddress body) (c_userId body) (c_userEmail body)
                   (c_reportCid body) (c_reportName body) analysis pending None
                   (now e) (now e) in
        unhandled (addTicket (disk e) ticket st) (fun st' => (OkTicket 201 (Some ticket), st'))
  | None => (Err 400 "Missing required fields", st)
  end.

Record UpdateTicketRequest := mkUpdateTicketRequest {
  u_action : string;
  u_txHash : option string
}.

(** The updater of [updateTicketStatus]. *)
Definition apply_action (now : Z) (body : UpdateTicketRequest) (prev : Ticket) : Ticket :=
  let txHash := if truthy_opt (u_txHash body) then u_txHash body else t_txHash prev in
  if String.eqb (u_action body) "approve" then
    mkTicket (t_id prev) (t_walletAddress prev) (t_userId prev) (t_userEmail prev)
             (t_reportCid prev) (t_reportName prev) (t_analysis prev) approved txHash
             (t_createdAt prev) now
  else if String.eqb (u_action body) "reject" then
    mkTicket (t_id prev) (t_walletAddress prev) (t_userId prev) (t_userEmail prev)
             (t_reportCid prev) (t_reportName prev) (t_analysis prev) rejected (t_txHash prev)
             (t_createdAt prev) now
  else if String.eqb (u_action body) "setTxHash" then
    mkTicket (t_id prev) (t_walletAddress prev) (t_userId prev) (t_userEmail prev)
             (t_reportCid prev) (t_reportName prev) (t_analysis prev) (t_status prev) txHash
             (t_createdAt prev) now
  else prev.

Definition updateTicketStatus (e : Env) (adminToken : option string) (id : string)
    (body : UpdateTicketRequest) (st : Store) : Response * Store :=
  let '(isAdmin, st1) := validateAdmin (now e) adminToken st in
  if negb isAdmin then (Err 401 "Unauthorized", st1)
  else
    match getTicketById id st1 with
    | None => (Err 404 "Not found", st1)
    | Some _ =>
        unhandled (updateTicket (disk e) id (apply_action (now e) body) st1)
                  (fun st2 => (OkTicket 200 (getTicketById id st2), st2))
    end.

(** The message of the [TypeError] that reading [req.body.walletAddress]
    raises on Node when the request came without a body ([req.body] is
    [undefined]). *)
Definition no_body : string :=
  "Cannot read properties of undefined (reading 'walletAddress')".

(** [(req.query.walletAddress as string) || req.body.walletAddress]: the
    body is read only when the query names no wallet.  [body] is [None] for
    a request without body, and the [walletAddress] of the body otherwise;
    the result is [None] when reading the body raises. *)
Definition wallet_given (queryWallet : option string) (body : option (option string))
  : option (option string) :=
  if truthy_opt queryWallet then Some queryWallet else body.

(** The route [deleteTicket] ([deleteTicket] above is the
    [deleteTicketFromStore] it imports). *)
Definition deleteTicketRoute (e : Env) (adminToken : option string) (id : string)
    (queryWallet : option string) (body : option (option string)) (st : Store)
  : Response * Store :=
  let '(isAdmin, st1) := validateAdmin (now e) adminToken st in
  match getTicketById id st1 with
  | None => (Err 404 "Not found", st1)
  | Some ticket =>
      match wallet_given queryWallet body with
      | None => (caught "Delete failed" no_body, st1)
      | Some walletAddress =>
          if negb isAdmin
             && (negb (truthy_opt walletAddress)
                 || negb (same_wallet (default "" walletAddress) ticket))
          then (Err 401 "Unauthorized", st1)
          else
            match deleteTicket (disk e) id st1 with
            | (Val deleted, st2) =>
                if negb deleted then (Err 404 "Not found", st2) else (Success, st2)
            | (Throw msg, st2) => (caught "Delete failed" msg, st2)
            end
      end
  end.

Definition clearAllTickets (e : Env) (adminToken : option string) (st : Store)
  : Response * Store :=
  let '(isAdmin, st1) := validateAdmin (now e) adminToken st in
  if negb isAdmin then (Err 401 "Unauthorized", st1)
  else
    let clearedCount := Z.of_nat (length (tickets st1)) in
    match saveTickets (disk e) [] st1 with
    | (Val _, st2) => (Cleared clearedCount None, st2)
    | (Throw msg, st2) => (caught "Clear failed" msg, st2)
    end.

Definition clearTicketsByStatus (e : Env) (adminToken status : option string) (st : Store)
  : Response * Store :=
  let '(isAdmin, st1) := validateAdmin (now e) adminToken st in
  if negb isAdmin then (Err 401 "Unauthorized", st1)
  else if negb (truthy_opt status) then (Err 400 "Status is required", st1)
  else
    let all := tickets st1 in
    let filteredTickets :=
      List.filter (fun t => negb (String.eqb (status_name (t_status t)) (default "" status)))
                  all in
    let clearedCount := Z.of_nat (length all) - Z.of_nat (length filteredTickets) in
    match saveTickets (disk e) filteredTickets st1 with
    | (Val _, st2) =>
        (Cleared clearedCount (Some (Z.of_nat (length filteredTickets))), st2)
    | (Throw msg, st2) => (caught "Clear failed" msg, st2)
    end.

(** ** The desk as a transition system *)

Inductive Request :=
| AdminLogin (username password : option string)
| ValidateAdminSession (adminToken : option string)
| ListTickets (adminToken walletAddress : option string)
| GetTicket (id : string)
| CreateTicket (body : CreateTicketRequest)
| UpdateTicketStatus (adminToken : option string) (id : string) (body : UpdateTicketRequest)
| DeleteTicket (adminToken : option string) (id : string) (queryWallet : option string)
               (body : option (option string))
| ClearAllTickets (adminToken : option string)
| ClearTicketsByStatus (adminToken status : option string).

Definition serve (adminUser adminPass : option string) (e : Env) (r : Request) (st : Store)
  : Response * Store :=
  match r with
  | AdminLogin username password => adminLogin adminUser adminPass e username password st
  | ValidateAdminSession adminToken => validateAdminSession e adminToken st
  | ListTickets adminToken walletAddress => listTickets e adminToken walletAddress st
  | GetTicket id => getTicket id st
  | CreateTicket body => createTicket e body st
  | UpdateTicketStatus adminToken id body => updateTicketStatus e adminToken id body st
  | DeleteTicket adminToken id queryWallet body =>
      deleteTicketRoute e adminToken id queryWallet body st
  | ClearAllTickets adminToken => clearAllTickets e adminToken st
  | ClearTicketsByStatus adminToken status => clearTicketsByStatus e adminToken status st
  end.

End Desk.

Arguments Ticket : clear implicits.
Arguments Store : clear implicits.
Arguments Response : clear implicits.
Arguments CreateTicketRequest : clear implicits.
Arguments Request : clear implicits.

End Tickets.

(** ** Vocabulary of the ticket desk *)

Section DeskVocabulary.

Context {AnalysisResult : Type}.

(** The token names a session that has not expired at [now]. *)
Definition admin_valid (now : Z) (token : option string)
    (st : Tickets.Store AnalysisResult) : Prop :=
  ∃ tok exp, token = Some tok ∧ tok ≠ ""
             ∧ Tickets.adminSessions st !! tok = Some exp ∧ exp ≠ 0 ∧ now ≤ exp.

(** The wallet a delete request gives is the ticket's, up to case. *)
Definition owner_of (queryWallet : option string) (body : option (option string))
    (t : Tickets.Ticket AnalysisResult) : Prop :=
  ∃ w, Tickets.wallet_given queryWallet body = Some (Some w)
       ∧ w ≠ "" ∧ toLowerCase (Tickets.t_walletAddress t) = toLowerCase w.

(** Who may have caused a change of the tickets. *)
Definition authorized (e : Tickets.Env) (r : Tickets.Request AnalysisResult)
    (st : Tickets.Store AnalysisResult) : Prop :=
  match r with
  | Tickets.CreateTicket _ => True
  | Tickets.UpdateTicketStatus adminToken _ _
  | Tickets.ClearAllTickets adminToken
  | Tickets.ClearTicketsByStatus adminToken _ => admin_valid (Tickets.now e) adminToken st
  | Tickets.DeleteTicket adminToken id queryWallet body =>
      admin_valid (Tickets.now e) adminToken st
      ∨ ∃ t, Tickets.getTicketById id st = Some t ∧ owner_of queryWallet body t
  | _ => False
  end.

End DeskVocabulary.

(** A desk with one pending ticket of the wallet [0xAbC], and the session
    [s3cr3t] that expires at 1000. *)
Definition demo_ticket : Tickets.Ticket string :=
  Tickets.mkTicket "t-1" "0xAbC" "uid-a" "a@x.com" "QmReport" "report.pdf" "analysis"
                   Tickets.pending None 10 10.

Definition demo_desk : Tickets.Store string :=
  Tickets.mkStore [demo_ticket] {["s3cr3t" := 1000]}.

(** * The serverless ticket desk: [api/admin/login.ts], the validation
      handler beside it ([unnamed/part_005]) and the handler of one ticket
      ([unnamed/part_006]) *)

Module Serverless.

Section Desk.

Context {AnalysisResult : Type}.

(** The module-level [tickets] of the ticket index ([unnamed/part_007])
    and [sessions] of [api/admin/login.ts] (token to [expiresAt]), which the
    other handlers import. *)
Record State := mkState {
  tickets : list (Tickets.Ticket AnalysisResult);
  sessions : gmap string Z
}.

Definition set_tickets (f : list (Tickets.Ticket AnalysisResult)
                            → list (Tickets.Ticket AnalysisResult))
    (st : State) : State :=
  mkState (f (tickets st)) (sessions st).

Definition set_sessions (f : gmap string Z → gmap string Z) (st : State) : State :=
  mkState (tickets st) (f (sessions st)).

Inductive Response :=
| NoContent
| Err (code : Z) (error : string)
| Session (token : string) (expiresAt : Z)
| Valid
| OkTicket (code : Z) (t : Tickets.Ticket AnalysisResult)
| Success.

(** [sessions.get(token)] is there and [Date.now() > session.expiresAt]
    does not hold. *)
Definition session_ok (now : Z) (token : string) (st : State) : bool :=
  match sessions st !! token with
  | Some expiresAt => negb (now >? expiresAt)
  | None => false
  end.

(** [api/admin/login.ts]; [rand] stands for
    [Math.random().toString(36).substr(2, 9)]. *)
Definition login (now : Z) (rand : string) (method : string)
    (username password : option string) (st : State) : Response * State :=
  if String.eqb method "OPTIONS" then (NoContent, st)
  else if negb (String.eqb method "POST") then (Err 405 "Method not allowed", st)
  else if negb (truthy_opt username) || negb (truthy_opt password)
  then (Err 400 "Username and password required", st)
  else if negb (bool_decide (username = Some "admin"))
          || negb (bool_decide (password = Some "admin123"))
  then (Err 401 "Invalid credentials", st)
  else
    let token := "admin_" +:+ pretty now +:+ "_" +:+ rand in
    let expiresAt := now + 24 * 60 * 60 * 1000 in
    (Session token expiresAt, set_sessions (<[token := expiresAt]>) st).

(** The validation handler ([unnamed/part_005]). *)
Definition validate (now : Z) (method : string) (token : option string) (st : State)
  : Response * State :=
  if String.eqb method "OPTIONS" then (NoContent, st)
  else if negb (String.eqb method "GET") then (Err 405 "Method not allowed", st)
  else if negb (truthy_opt token) then (Err 401 "Admin token required", st)
  else
    let tok := default "" token in
    if negb (session_ok now tok st)
    then (Err 401 "Invalid or expired token", set_sessions (delete tok) st)
    else (Valid, st).

(** The handler of one ticket ([unnamed/part_006]). *)
Definition find_ticket (id : string) (st : State) : option (Tickets.Ticket AnalysisResult) :=
  List.find (fun t => String.eqb (Tickets.t_id t) id) (tickets st).

(** The assignments of [handleUpdateTicket] to the ticket [find] returned. *)
Definition update_action (now : Z) (body : Tickets.UpdateTicketRequest)
    (ticket : Tickets.Ticket AnalysisResult) : Tickets.Ticket AnalysisResult :=
  let action := Tickets.u_action body in
  Tickets.mkTicket (Tickets.t_id ticket) (Tickets.t_walletAddress ticket)
    (Tickets.t_userId ticket) (Tickets.t_userEmail ticket) (Tickets.t_reportCid ticket)
    (Tickets.t_reportName ticket) (Tickets.t_analysis ticket)
    (if String.eqb action "approve" then Tickets.approved
     else if String.eqb action "reject" then Tickets.rejected
     else Tickets.t_status ticket)
    (if String.eqb action "approve" && truthy_opt (Tickets.u_txHash body)
     then Tickets.u_txHash body else Tickets.t_txHash ticket)
    (Tickets.t_createdAt ticket) now.

Definition handleUpdateTicket (now : Z) (adminToken : option string) (id : string)
    (body : Tickets.UpdateTicketRequest) (st : State) : Response * State :=
  if negb (truthy_opt adminToken) then (Err 401 "Admin token required", st)
  else if negb (session_ok now (default "" adminToken) st)
  then (Err 401 "Invalid or expired admin token", st)
  else
    match find_ticket id st with
    | None => (Err 404 "Ticket not found", st)
    | Some ticket =>
        (OkTicket 200 (update_action now body ticket),
         set_tickets (Tickets.update_first id (update_action now body)) st)
    end.

Definition handleDeleteTicket (now : Z) (adminToken walletAddress : option string)
    (id : string) (st : State) : Response * State :=
  match find_ticket id st with
  | None => (Err 404 "Ticket not found", st)
  | Some ticket =>
      if truthy_opt adminToken then
        if negb (session_ok now (default "" adminToken) st)
        then (Err 401 "Invalid or expired admin token", st)
        else (Success, set_tickets (Tickets.remove_first id) st)
      else if truthy_opt walletAddress
              && String.eqb (Tickets.t_walletAddress ticket) (default "" walletAddress)
      then (Success, set_tickets (Tickets.remove_first id) st)
      else (Err 403 "Not authorized to delete this ticket", st)
  end.

End Desk.

Arguments State : clear implicits.
Arguments Response : clear implicits.

End Serverless.

(** * [api/marketplace/buy.ts]: the edge purchase *)

Module EdgeMarket.

(** The file carries its own [pinJSON], [getUserBalanceByEmailInternal],
    [storeUserBalanceInternal] and [updateUserBalanceByEmail], word for word
    the functions of those names of the Express routes, which stand for them
    here; its [saveListings] and [saveOrders] return the cid and record
    nothing. *)
Definition saveOrders : M (option string) := pinJSON.

Definition saveListings : M (option string) := pinJSON.

(** The handler; [None] is the empty answer 204 to [OPTIONS]. *)
Definition handler (now : Z) (uuid rand : string) (method : string)
    (req : BuyListingRequest) : M (option Response) :=
  if String.eqb method "OPTIONS" then ret None
  else if negb (String.eqb method "POST") then ret (Some (Err 405 "Method not allowed"))
  else if negb (truthy (b_listingId req)) || negb (truthy (b_buyerEmail req))
          || negb (truthy (b_buyerWallet req)) || negb (truthy (b_signature req))
  then ret (Some (Err 400 "Missing required fields"))
  else
    let* found := gets (fun w => find_listing (b_listingId req) (listings w)) in
    match found with
    | None => ret (Some (Err 404 "Listing not found"))
    | Some listing =>
        if negb (bool_decide (l_status listing = active))
        then ret (Some (Err 400 "Listing not available"))
        else if String.eqb (l_sellerEmail listing) (toLowerCase (b_buyerEmail req))
        then ret (Some (Err 400 "Cannot buy your own listing"))
        else
          let* balBuyer := getUserBalanceByEmailInternal now (b_buyerEmail req) in
          let rupees := nullish (balBuyer ≫= rupeesBalance) 100 in
          if rupees <? l_priceRupees listing
          then ret (Some (Err 400 "Insufficient rupees balance"))
          else
            let* buyerBalance :=
              updateUserBalanceByEmail now rand (b_buyerEmail req)
                (l_amountTokens listing) (- l_priceRupees listing)
                "market_buy" (l_id listing) (l_sellerEmail listing) in
            let* sellerBalance :=
              updateUserBalanceByEmail now rand (l_sellerEmail listing)
                (- l_amountTokens listing) (l_priceRupees listing)
                "market_sell" (l_id listing) (b_buyerEmail req) in
            let* _ := modify (set_listings (mark_sold (l_id listing) now)) in
            let* _ := saveListings in
            let order :=
              mkOrder uuid (l_id listing) (toLowerCase (b_buyerEmail req))
                      (b_buyerUserId req) (b_buyerWallet req)
                      (l_amountTokens listing) (l_priceRupees listing)
                      completed (Some (b_signature req)) now in
            let* _ := modify (set_orders (cons order)) in
            let* _ := saveOrders in
            ret (Some (OkBought (sell now listing) order buyerBalance sellerBalance))
    end.

Definition serve (e : Env) (method : string) (req : BuyListingRequest) (w : World)
  : option Response * World :=
  match handler (now e) (uuid e) (rand e) method req (mkSt w (replies e)) with
  | (Val resp, s) => (resp, world s)
  | (Throw msg, s) => (Some (Err 500 (if truthy msg then msg else "Failed to buy listing")),
                       world s)
  end.

End EdgeMarket.

(** The edge handler's outcome [r1] is the Express handler's outcome [r2]:
    the same answer, the same requests consumed, the same state up to the two
    collection ids. *)
Definition agree (r1 : Result (option Response) * St) (r2 : Result Response * St) : Prop :=
  fst r1 = match fst r2 with Val resp => Val (Some resp) | Throw msg => Throw msg end
  ∧ net (snd r1) = net (snd r2)
  ∧ cids_erase (world (snd r1)) = cids_erase (world (snd r2)).

(** * Reasoning about handlers *)

Lemma bind_val {A B} (m : M A) (k : A → M B) s a s' :
  m s = (Val a, s') → bind m k s = k a s'.
Proof. intros H. unfold bind. now rewrite H. Qed.

Lemma bind_throw {A B} (m : M A) (k : A → M B) s e s' :
  m s = (Throw e, s') → bind m k s = (Throw e, s').
Proof. intros H. unfold bind. now rewrite H. Qed.

(** Case analysis on the scrutinee of the innermost [match] of the goal. *)
Ltac case_scrutinee :=
  match goal with
  | |- context [match ?x with _ => _ end] =>
      lazymatch x with
      | context [match _ with _ => _ end] => fail
      | _ => destruct x eqn:?
      end
  end.

Ltac run_monad :=
  unfold bind, ret, gets, modify, throw, fetch; simpl.

(** ** Reads leave everything but the address index alone *)

Section ReadFrame.
Variables w w' : World.
Hypothesis same : index_erase w' = index_erase w.

Lemma frame_inMemoryBalances : inMemoryBalances w' = inMemoryBalances w.
Proof. exact (f_equal inMemoryBalances same). Qed.
Lemma frame_userIdToEmail : userIdToEmail w' = userIdToEmail w.
Proof. exact (f_equal userIdToEmail same). Qed.
Lemma frame_listings : listings w' = listings w.
Proof. exact (f_equal listings same). Qed.
Lemma frame_orders : orders w' = orders w.
Proof. exact (f_equal orders same). Qed.
Lemma frame_listingsCid : listingsCid w' = listingsCid w.
Proof. exact (f_equal listingsCid same). Qed.
Lemma frame_ordersCid : ordersCid w' = ordersCid w.
Proof. exact (f_equal ordersCid same). Qed.
Lemma frame_pinataCreds : pinataCreds w' = pinataCreds w.
Proof. exact (f_equal pinataCreds same). Qed.
Lemma frame_ipfs : ipfs w' = ipfs w.
Proof. exact (f_equal ipfs same). Qed.
Lemma frame_pinList : pinList w' = pinList w.
Proof. exact (f_equal pinList same). Qed.
Lemma frame_applied : applied w' = applied w.
Proof. exact (f_equal applied same). Qed.
End ReadFrame.

Lemma searchPinata_frame emailKey s :
  ∃ r s', searchPinata emailKey s = (Val r, s')
          ∧ index_erase (world s') = index_erase (world s).
Proof.
  unfold searchPinata. run_monad.
  repeat case_scrutinee; simpl; eauto.
Qed.

Lemma getUserBalanceByEmailInternal_frame now email s :
  ∃ r s', getUserBalanceByEmailInternal now email s = (Val r, s')
          ∧ index_erase (world s') = index_erase (world s)
          ∧ snapshot_source now (toLowerCase email) (world s) r.
Proof.
  unfold getUserBalanceByEmailInternal.
  unfold bind at 1. unfold gets at 1. simpl.
  destruct (inMemoryBalances (world s) !! toLowerCase email) as [b|] eqn:Hmem.
  { do 2 eexists. split; [reflexivity|]. split; [reflexivity|]. now constructor. }
  unfold bind at 1. unfold gets at 1. simpl.
  assert (∃ h s1, (match known_hash (toLowerCase email) (world s) with
                   | Some h => ret (Some h)
                   | None => let* headers := gets pinataCreds in
                             if headers then searchPinata (toLowerCase email) else ret None
                   end) s = (Val h, s1)
                  ∧ index_erase (world s1) = index_erase (world s)) as (h & s1 & Hh & Hs1).
  { destruct (known_hash _ _); [unfold ret; eauto|].
    unfold bind, gets. simpl. destruct (pinataCreds (world s)); [|unfold ret; eauto].
    apply searchPinata_frame. }
  rewrite (bind_val _ _ _ _ _ Hh).
  destruct h as [h|].
  2:{ do 2 eexists. split; [reflexivity|]. split; [exact Hs1|]. now constructor. }
  run_monad.
  destruct (net s1) as [|o rest]; simpl.
  { do 2 eexists. split; [reflexivity|]. split; [exact Hs1|]. now constructor. }
  destruct o; simpl;
    try (do 2 eexists; split; [reflexivity|]; split; [exact Hs1|]; now constructor).
  destruct (ipfs (world s1) !! h) as [bal|] eqn:Hc; simpl.
  - do 2 eexists. split; [reflexivity|]. split; [exact Hs1|].
    rewrite (frame_ipfs _ _ Hs1) in Hc. now apply from_ipfs with h.
  - do 2 eexists. split; [reflexivity|]. split; [exact Hs1|]. now constructor.
Qed.

(** ** The transaction-sum invariant *)

Lemma sum_amounts_snoc txs t : sum_amounts (txs ++ [t]) = sum_amounts txs + tx_amount t.
Proof.
  unfold sum_amounts. induction txs as [|x txs IH]; simpl; [lia|].
  rewrite IH. lia.
Qed.

Lemma or_zero_id n : or_zero n = n.
Proof.
  unfold or_zero, truthy_num. destruct (Z.eqb_spec n 0); simpl; congruence.
Qed.

Lemma js_add_exact a b : safe_integer (a + b) = true → js_add a b = a + b.
Proof.
  unfold safe_integer, js_add, round_double. intros H.
  apply Z.leb_le in H.
  destruct (Z.ltb_spec (Z.abs (a + b)) (2 ^ 53)); [reflexivity|lia].
Qed.

Lemma running_totals_snoc acc l a :
  running_totals acc (l ++ [a])
  = (running_totals acc l ++ [acc + fold_right Z.add 0 l + a])%list.
Proof.
  revert acc. induction l as [|x l IH]; intros acc; simpl.
  - f_equal. lia.
  - rewrite IH. do 3 f_equal. lia.
Qed.

Lemma history_safe_snoc txs t :
  history_safe (txs ++ [t]) = true →
  history_safe txs = true ∧ safe_integer (sum_amounts txs + tx_amount t) = true.
Proof.
  unfold history_safe, sum_amounts.
  rewrite map_app. simpl. rewrite running_totals_snoc, forallb_app. simpl.
  rewrite andb_true_r. intros [H1 H2]%andb_prop. auto.
Qed.

Lemma coerce_rupees_sum b : tx_sum_ok b → tx_sum_ok (coerce_rupees b).
Proof. unfold coerce_rupees, tx_sum_ok. now destruct (rupeesBalance b). Qed.

Lemma default_balance_sum k now : tx_sum_ok (default_balance k now).
Proof. intros _. reflexivity. Qed.

Lemma snapshot_source_sum now k w r b :
  ledger_ok w → snapshot_source now k w r → r = Some b → tx_sum_ok b.
Proof.
  intros [Hmem Hpin] Hsrc Hr. destruct Hsrc; inversion Hr; subst.
  - eauto.
  - apply default_balance_sum.
  - apply coerce_rupees_sum. eauto.
Qed.

Lemma newBal_sum now rand args ex :
  (∀ b, ex = Some b → tx_sum_ok b) → tx_sum_ok (newBal now rand args ex).
Proof.
  intros H. unfold newBal, tx_sum_ok. simpl.
  intros [Hsafe Hlast]%history_safe_snoc. simpl in Hlast.
  rewrite sum_amounts_snoc, or_zero_id. simpl.
  destruct ex as [b|]; simpl in *.
  - rewrite (H b eq_refl Hsafe). now apply js_add_exact.
  - now apply js_add_exact.
Qed.

Lemma updatedBalance_sum now rand req ex :
  (∀ b, ex = Some b → tx_sum_ok b) → tx_sum_ok (updatedBalance now rand req ex).
Proof.
  intros H. unfold updatedBalance, tx_sum_ok.
  destruct ex as [b|]; simpl.
  - intros [Hsafe Hlast]%history_safe_snoc. simpl in Hlast.
    rewrite sum_amounts_snoc. simpl. rewrite (H b eq_refl Hsafe).
    now apply js_add_exact.
  - intros _. unfold sum_amounts. simpl. lia.
Qed.

Lemma ledger_ok_erase w w' :
  index_erase w' = index_erase w → ledger_ok w → ledger_ok w'.
Proof.
  intros E [Hm Hp]. split; intros k b.
  - rewrite (frame_inMemoryBalances _ _ E). apply Hm.
  - rewrite (frame_ipfs _ _ E). apply Hp.
Qed.

Lemma ledger_ok_memory k b w :
  tx_sum_ok b → ledger_ok w → ledger_ok (set_inMemoryBalances (<[k := b]>) w).
Proof.
  intros Hb [Hm Hp]. split; simpl; [|exact Hp].
  intros k' b'. rewrite lookup_insert. case_decide.
  - intros [= <-]. exact Hb.
  - apply Hm.
Qed.

Lemma ledger_ok_pin name cid b w :
  tx_sum_ok b → ledger_ok w → ledger_ok (pin_balance name cid b w).
Proof.
  intros Hb [Hm Hp]. split; simpl; [exact Hm|].
  intros c b'. rewrite lookup_insert. case_decide.
  - intros [= <-]. exact Hb.
  - apply Hp.
Qed.

(** ** Delta application *)

Lemma storeUserBalanceInternal_cases now rand args s :
  let key := toLowerCase (a_userEmail args) in
  ∃ ex s1 r s',
    getUserBalanceByEmailInternal now key s = (Val ex, s1)
    ∧ index_erase (world s1) = index_erase (world s)
    ∧ snapshot_source now (toLowerCase key) (world s) ex
    ∧ storeUserBalanceInternal now rand args s = (r, s')
    ∧ store_end key (newBal now rand args ex)
                (mkDelta key (a_amount args) (nullish (a_deltaRupees args) 0))
                (world s1) r (world s').
Proof.
  intros key.
  destruct (getUserBalanceByEmailInternal_frame now key s) as (ex & s1 & Hget & He & Hsrc).
  exists ex, s1.
  cut (∃ r s', storeUserBalanceInternal now rand args s = (r, s')
               ∧ store_end key (newBal now rand args ex)
                   (mkDelta key (a_amount args) (nullish (a_deltaRupees args) 0))
                   (world s1) r (world s')).
  { intros (r & s' & H1 & H2). exists r, s'. auto. }
  clear He Hsrc.
  unfold storeUserBalanceInternal. fold key.
  rewrite (bind_val _ _ _ _ _ Hget).
  run_monad.
  destruct (pinataCreds (world s1)); simpl.
  - destruct (net s1) as [|o rest]; simpl.
    + do 2 eexists. split; [reflexivity|]. constructor.
    + destruct o as [| |cid]; simpl.
      * do 2 eexists. split; [reflexivity|]. constructor.
      * do 2 eexists. split; [reflexivity|]. constructor.
      * pose proof (stored_pinned key (newBal now rand args ex)
                      (mkDelta key (a_amount args) (nullish (a_deltaRupees args) 0))
                      (world s1) cid) as Hp.
        destruct (truthy cid) eqn:Hc; simpl;
          do 2 eexists; (split; [reflexivity|]); exact Hp.
  - do 2 eexists. split; [reflexivity|]. constructor.
Qed.

Lemma store_end_frame key nb d w1 r w' :
  (ledger_ok w1 → tx_sum_ok nb) → store_end key nb d w1 r w' → delta_frame d w1 r w'.
Proof.
  intros Hb H. destruct H.
  - split; try reflexivity. intros Hok. apply ledger_ok_memory; auto.
  - split; try (destruct (truthy cid); reflexivity).
    intros Hok.
    assert (ledger_ok (pin_balance (balance_name key) cid nb w1)) as Hp
      by (apply ledger_ok_pin; auto).
    destruct (truthy cid); [|exact Hp].
    destruct Hp as [Hm Hi]. split; [exact Hm | exact Hi].
  - split; try reflexivity. tauto.
Qed.

Lemma delta_frame_erase {A} d w w1 (r : Result A) w' :
  index_erase w1 = index_erase w → delta_frame d w1 r w' → delta_frame d w r w'.
Proof.
  intros E [H1 H2 H3 H4 H5]. split.
  - now rewrite H1, (frame_listings _ _ E).
  - now rewrite H2, (frame_orders _ _ E).
  - now rewrite H3, (frame_pinataCreds _ _ E).
  - now rewrite H4, (frame_applied _ _ E).
  - intros Hok. apply H5. symmetry in E. now apply (ledger_ok_erase w).
Qed.

Lemma storeUserBalanceInternal_frame now rand args s :
  ∃ r s', storeUserBalanceInternal now rand args s = (r, s')
    ∧ delta_frame (mkDelta (toLowerCase (a_userEmail args)) (a_amount args)
                           (nullish (a_deltaRupees args) 0))
                  (world s) r (world s').
Proof.
  destruct (storeUserBalanceInternal_cases now rand args s)
    as (ex & s1 & r & s' & Hget & He & Hsrc & Hst & Hend).
  exists r, s'. split; [exact Hst|].
  apply (delta_frame_erase _ _ (world s1)); [exact He|].
  eapply store_end_frame; [|exact Hend].
  intros Hok. apply newBal_sum. intros b Hb.
  eapply snapshot_source_sum; [|exact Hsrc|exact Hb].
  symmetry in He. now apply (ledger_ok_erase (world s1)).
Qed.

Lemma updateUserBalanceByEmail_frame now rand email dt dr reason lid cp s :
  ∃ r s', updateUserBalanceByEmail now rand email dt dr reason lid cp s = (r, s')
    ∧ delta_frame (mkDelta (toLowerCase email) dt dr) (world s) r (world s').
Proof.
  unfold updateUserBalanceByEmail.
  destruct (getUserBalanceByEmailInternal_frame now email s) as (cur & s0 & Hget & He & _).
  rewrite (bind_val _ _ _ _ _ Hget).
  match goal with
  | |- context [storeUserBalanceInternal now rand ?a] =>
      destruct (storeUserBalanceInternal_frame now rand a s0) as (r & s' & Hst & Hfr)
  end.
  simpl in Hfr.
  destruct r as [b|e].
  - rewrite (bind_val _ _ _ _ _ Hst). unfold ret.
    do 2 eexists. split; [reflexivity|].
    apply (delta_frame_erase _ _ (world s0)); [exact He|].
    destruct Hfr; split; auto.
  - rewrite (bind_throw _ _ _ _ _ Hst).
    do 2 eexists. split; [reflexivity|].
    apply (delta_frame_erase _ _ (world s0)); [exact He|].
    destruct Hfr; split; auto.
Qed.

(** ** Pinning the marketplace collections *)

Lemma pinJSON_frame s :
  ∃ r s', pinJSON s = (r, s') ∧ world s' = world s.
Proof.
  unfold pinJSON. run_monad.
  destruct (pinataCreds (world s)); simpl; [|eauto].
  destruct (net s) as [|[]]; simpl; eauto.
Qed.

Lemma saveListings_frame s :
  ∃ r s', saveListings s = (r, s') ∧ cids_erase (world s') = cids_erase (world s).
Proof.
  unfold saveListings.
  destruct (pinJSON_frame s) as ([cid|e] & s1 & H & Hw).
  - rewrite (bind_val _ _ _ _ _ H). run_monad.
    destruct (truthy_opt cid); simpl; do 2 eexists; (split; [reflexivity|]);
      simpl; now rewrite Hw.
  - rewrite (bind_throw _ _ _ _ _ H). do 2 eexists. split; [reflexivity|]. now rewrite Hw.
Qed.

Lemma saveOrders_frame s :
  ∃ r s', saveOrders s = (r, s') ∧ cids_erase (world s') = cids_erase (world s).
Proof.
  unfold saveOrders.
  destruct (pinJSON_frame s) as ([cid|e] & s1 & H & Hw).
  - rewrite (bind_val _ _ _ _ _ H). run_monad.
    destruct (truthy_opt cid); simpl; do 2 eexists; (split; [reflexivity|]);
      simpl; now rewrite Hw.
  - rewrite (bind_throw _ _ _ _ _ H). do 2 eexists. split; [reflexivity|]. now rewrite Hw.
Qed.

Section CidFrame.
Variables w w' : World.
Hypothesis same : cids_erase w' = cids_erase w.

Lemma cframe_inMemoryBalances : inMemoryBalances w' = inMemoryBalances w.
Proof. exact (f_equal inMemoryBalances same). Qed.
Lemma cframe_listings : listings w' = listings w.
Proof. exact (f_equal listings same). Qed.
Lemma cframe_orders : orders w' = orders w.
Proof. exact (f_equal orders same). Qed.
Lemma cframe_ipfs : ipfs w' = ipfs w.
Proof. exact (f_equal ipfs same). Qed.
Lemma cframe_applied : applied w' = applied w.
Proof. exact (f_equal applied same). Qed.
Lemma cframe_ledger : ledger_ok w → ledger_ok w'.
Proof.
  intros [Hm Hp]. split; intros k b.
  - rewrite cframe_inMemoryBalances. apply Hm.
  - rewrite cframe_ipfs. apply Hp.
Qed.
End CidFrame.

(** ** Purchases *)

Lemma bind_gets {A B} (f : World → A) (k : A → M B) s :
  bind (gets f) k s = k (f (world s)) s.
Proof. reflexivity. Qed.

Lemma bind_modify {B} (f : World → World) (k : unit → M B) s :
  bind (modify f) k s = k tt (mkSt (f (world s)) (net s)).
Proof. reflexivity. Qed.

Lemma truthy_iff s : truthy s = true ↔ s ≠ "".
Proof. destruct s; simpl; split; congruence. Qed.

Lemma required_fields_check req :
  has_required_fields req →
  negb (truthy (b_listingId req)) || negb (truthy (b_buyerEmail req))
  || negb (truthy (b_buyerWallet req)) || negb (truthy (b_signature req)) = false.
Proof.
  intros (H1 & H2 & H3 & H4).
  apply truthy_iff in H1, H2, H3, H4. now rewrite H1, H2, H3, H4.
Qed.

Lemma has_required_fields_dec req : {has_required_fields req} + {¬ has_required_fields req}.
Proof.
  unfold has_required_fields.
  destruct (string_dec (b_listingId req) ""); [right; tauto|].
  destruct (string_dec (b_buyerEmail req) ""); [right; tauto|].
  destruct (string_dec (b_buyerWallet req) ""); [right; tauto|].
  destruct (string_dec (b_signature req) ""); [right; tauto|].
  left; tauto.
Qed.

Lemma buy_check_total now req s : buy_check now req s.
Proof.
  destruct (has_required_fields_dec req) as [Hf|Hf]; [|now apply check_missing].
  destruct (find_listing (b_listingId req) (listings (world s))) as [L|] eqn:Hfind;
    [|now apply check_not_found].
  destruct (decide (l_status L = active)) as [Ha|Ha];
    [|now apply check_unavailable with L].
  destruct (string_dec (l_sellerEmail L) (toLowerCase (b_buyerEmail req))) as [Hs|Hs];
    [now apply check_self_trade with L|].
  destruct (Z_lt_le_dec (buyer_rupees now (b_buyerEmail req) s) (l_priceRupees L));
    [now apply check_insufficient with L | now apply check_passed with L].
Qed.

Lemma buyListing_missing now uuid rand req s :
  ¬ has_required_fields req → buyListing now uuid rand req s = (Val MissingFields, s).
Proof.
  intros Hf. unfold buyListing.
  destruct (negb (truthy (b_listingId req)) || negb (truthy (b_buyerEmail req))
            || negb (truthy (b_buyerWallet req)) || negb (truthy (b_signature req))) eqn:E;
    [reflexivity|].
  exfalso. apply Hf.
  repeat (apply orb_false_elim in E; destruct E as [E ?]).
  repeat match goal with H : negb _ = false |- _ => apply negb_false_iff, truthy_iff in H end.
  unfold has_required_fields. tauto.
Qed.

Lemma buyListing_not_found now uuid rand req s :
  has_required_fields req →
  find_listing (b_listingId req) (listings (world s)) = None →
  buyListing now uuid rand req s = (Val NotFound, s).
Proof.
  intros Hf Hfind. unfold buyListing.
  rewrite (required_fields_check _ Hf), bind_gets, Hfind. reflexivity.
Qed.

Lemma buyListing_unavailable now uuid rand req s L :
  has_required_fields req →
  find_listing (b_listingId req) (listings (world s)) = Some L →
  l_status L ≠ active →
  buyListing now uuid rand req s = (Val ListingUnavailable, s).
Proof.
  intros Hf Hfind Ha. unfold buyListing.
  rewrite (required_fields_check _ Hf), bind_gets, Hfind.
  rewrite bool_decide_eq_false_2 by exact Ha. reflexivity.
Qed.

Lemma buyListing_self_trade now uuid rand req s L :
  has_required_fields req →
  find_listing (b_listingId req) (listings (world s)) = Some L →
  l_status L = active →
  l_sellerEmail L = toLowerCase (b_buyerEmail req) →
  buyListing now uuid rand req s = (Val SelfTrade, s).
Proof.
  intros Hf Hfind Ha Hs. unfold buyListing.
  rewrite (required_fields_check _ Hf), bind_gets, Hfind.
  rewrite bool_decide_eq_true_2 by exact Ha. simpl.
  rewrite Hs, String.eqb_refl. reflexivity.
Qed.

Lemma buyListing_insufficient now uuid rand req s L :
  has_required_fields req →
  find_listing (b_listingId req) (listings (world s)) = Some L →
  l_status L = active →
  l_sellerEmail L ≠ toLowerCase (b_buyerEmail req) →
  buyer_rupees now (b_buyerEmail req) s < l_priceRupees L →
  buyListing now uuid rand req s
  = (Val InsufficientBalance, after_rupee_check now (b_buyerEmail req) s).
Proof.
  intros Hf Hfind Ha Hs Hr. unfold buyListing.
  rewrite (required_fields_check _ Hf), bind_gets, Hfind.
  rewrite bool_decide_eq_true_2 by exact Ha. simpl.
  apply String.eqb_neq in Hs. rewrite Hs.
  unfold buyer_rupees in Hr. unfold after_rupee_check.
  destruct (getUserBalanceByEmailInternal_frame now (b_buyerEmail req) s)
    as (bal & s1 & Hget & _ & _).
  rewrite Hget in Hr |- *. rewrite (bind_val _ _ _ _ _ Hget).
  apply Z.ltb_lt in Hr. rewrite Hr. reflexivity.
Qed.

Lemma buyListing_passed now uuid rand req s L :
  has_required_fields req →
  find_listing (b_listingId req) (listings (world s)) = Some L →
  l_status L = active →
  l_sellerEmail L ≠ toLowerCase (b_buyerEmail req) →
  l_priceRupees L ≤ buyer_rupees now (b_buyerEmail req) s →
  ∃ r s', buyListing now uuid rand req s = (r, s')
          ∧ buy_settled now req L (world s) r (world s').
Proof.
  intros Hf Hfind Ha Hs Hr. unfold buyListing.
  rewrite (required_fields_check _ Hf), bind_gets, Hfind.
  rewrite bool_decide_eq_true_2 by exact Ha. simpl.
  apply String.eqb_neq in Hs. rewrite Hs.
  unfold buyer_rupees in Hr.
  destruct (getUserBalanceByEmailInternal_frame now (b_buyerEmail req) s)
    as (bal & s1 & Hget & He1 & _).
  rewrite Hget in Hr. rewrite (bind_val _ _ _ _ _ Hget).
  apply Z.ltb_ge in Hr. rewrite Hr.
  (* buyer *)
  destruct (updateUserBalanceByEmail_frame now rand (b_buyerEmail req)
              (l_amountTokens L) (- l_priceRupees L) "market_buy" (l_id L)
              (l_sellerEmail L) s1) as (r2 & s2 & Hu2 & F2).
  apply (delta_frame_erase _ _ _ _ _ He1) in F2.
  destruct r2 as [bb|e].
  2:{ rewrite (bind_throw _ _ _ _ _ Hu2). do 2 eexists. split; [reflexivity|].
      destruct F2. split; auto. }
  rewrite (bind_val _ _ _ _ _ Hu2).
  (* seller *)
  destruct (updateUserBalanceByEmail_frame now rand (l_sellerEmail L)
              (- l_amountTokens L) (l_priceRupees L) "market_sell" (l_id L)
              (b_buyerEmail req) s2) as (r3 & s3 & Hu3 & F3).
  assert (listings (world s3) = listings (world s)) as Hl3
    by (destruct F2, F3; congruence).
  assert (ledger_ok (world s) → ledger_ok (world s3)) as Hk3
    by (destruct F2, F3; auto).
  destruct r3 as [sb|e].
  2:{ rewrite (bind_throw _ _ _ _ _ Hu3). do 2 eexists. split; [reflexivity|].
      split; auto. }
  rewrite (bind_val _ _ _ _ _ Hu3).
  assert (applied (world s3)
          = (applied (world s) ++ [buyer_delta req L; seller_delta L])%list) as Ha3.
  { destruct F2 as [_ _ _ A2 _], F3 as [_ _ _ A3 _]. rewrite A3, A2.
    rewrite <- app_assoc. reflexivity. }
  (* the listing *)
  rewrite bind_modify.
  set (s4 := mkSt (set_listings (mark_sold (l_id L) now) (world s3)) (net s3)).
  assert (listings (world s4) = mark_sold (l_id L) now (listings (world s))) as Hl4
    by (simpl; now rewrite Hl3).
  assert (ledger_ok (world s) → ledger_ok (world s4)) as Hk4.
  { intros Hok. destruct (Hk3 Hok) as [Hm Hp]. split; [exact Hm | exact Hp]. }
  destruct (saveListings_frame s4) as (r5 & s5 & Hs5 & He5).
  destruct r5 as [[]|e].
  2:{ rewrite (bind_throw _ _ _ _ _ Hs5). do 2 eexists. split; [reflexivity|].
      split; auto.
      - right. now rewrite (cframe_listings _ _ He5).
      - intros Hok. apply (cframe_ledger _ _ He5). auto. }
  rewrite (bind_val _ _ _ _ _ Hs5).
  (* the order *)
  rewrite bind_modify.
  match goal with
  | |- context [saveOrders] =>
      match goal with
      | |- ∃ r s', bind saveOrders _ ?st = _ ∧ _ =>
          set (s6 := st); destruct (saveOrders_frame s6) as (r7 & s7 & Hs7 & He7)
      end
  end.
  assert (listings (world s6) = mark_sold (l_id L) now (listings (world s))) as Hl6
    by (simpl; now rewrite (cframe_listings _ _ He5)).
  assert (ledger_ok (world s) → ledger_ok (world s6)) as Hk6.
  { intros Hok. destruct (cframe_ledger _ _ He5 (Hk4 Hok)) as [Hm Hp].
    split; [exact Hm | exact Hp]. }
  destruct r7 as [[]|e].
  2:{ rewrite (bind_throw _ _ _ _ _ Hs7). do 2 eexists. split; [reflexivity|].
      split; auto.
      - right. now rewrite (cframe_listings _ _ He7).
      - intros Hok. apply (cframe_ledger _ _ He7). auto. }
  rewrite (bind_val _ _ _ _ _ Hs7). unfold ret.
  do 2 eexists. split; [reflexivity|].
  split.
  - right. now rewrite (cframe_listings _ _ He7).
  - intros Hok. apply (cframe_ledger _ _ He7). auto.
  - split; [eauto|]. split.
    + rewrite (cframe_applied _ _ He7). simpl.
      rewrite (cframe_applied _ _ He5). simpl. exact Ha3.
    + now rewrite (cframe_listings _ _ He7).
Qed.

(** ** The routes, as seen from outside *)

Lemma handle_answer dflt m s :
  handle dflt m s = (answer dflt (fst (m s)), snd (m s)).
Proof. unfold handle. destruct (m s) as [[resp|e] s']; reflexivity. Qed.

Lemma serve_buy e req w :
  serve e (BuyListing req) w
  = (answer "Failed to buy listing"
       (fst (buyListing (now e) (uuid e) (rand e) req (mkSt w (replies e)))),
     world (snd (buyListing (now e) (uuid e) (rand e) req (mkSt w (replies e))))).
Proof. unfold serve, route. rewrite handle_answer. reflexivity. Qed.

(** ** Every route preserves the transaction-sum invariant *)

Lemma storeUserBalance_frame now rand req s :
  ∃ r s', storeUserBalance now rand req s = (r, s')
    ∧ listings (world s') = listings (world s)
    ∧ (ledger_ok (world s) → ledger_ok (world s')).
Proof.
  unfold storeUserBalance.
  destruct (negb (truthy (sr_userEmail req)) || negb (truthy_num (sr_amount req))
            || negb (truthy (sr_adminSignature req)) || negb (truthy (sr_ticketId req)));
    [unfold ret; eauto|].
  set (key := toLowerCase (sr_userEmail req)).
  assert (∃ s0, (match sr_userId req with
                 | Some u => if truthy u then modify (set_userIdToEmail (<[u := key]>))
                             else ret tt
                 | None => ret tt
                 end) s = (Val tt, s0)
                ∧ listings (world s0) = listings (world s)
                ∧ (ledger_ok (world s) → ledger_ok (world s0))) as (s0 & H0 & Hl0 & Hk0).
  { destruct (sr_userId req) as [u|]; [destruct (truthy u)|]; eexists;
      (split; [reflexivity|]); (split; [reflexivity|]); auto. }
  rewrite (bind_val _ _ _ _ _ H0), bind_gets.
  assert (∃ ex s1, (match known_hash key (world s0) with
                    | Some h => let* o := fetch in
                                match o with
                                | NetOk _ => gets (fun w => ipfs w !! h)
                                | _ => ret None
                                end
                    | None => gets (fun w => inMemoryBalances w !! key)
                    end) s0 = (Val ex, s1)
                   ∧ world s1 = world s0
                   ∧ (ledger_ok (world s0) → ∀ b, ex = Some b → tx_sum_ok b))
    as (ex & s1 & H1 & Hw1 & Hex).
  { destruct (known_hash key (world s0)) as [h|].
    - run_monad. destruct (net s0) as [|[| |c] rest]; simpl;
        do 2 eexists; (split; [reflexivity|]); (split; [reflexivity|]);
        try discriminate. intros [Hm Hp]. eauto.
    - run_monad. do 2 eexists. split; [reflexivity|]. split; [reflexivity|].
      intros [Hm Hp]. eauto. }
  rewrite (bind_val _ _ _ _ _ H1), bind_gets.
  assert (ledger_ok (world s) → tx_sum_ok (updatedBalance now rand req ex)) as Hup.
  { intros Hok. apply updatedBalance_sum. auto. }
  assert (∀ w', listings w' = listings (world s1) →
                (ledger_ok (world s) → ledger_ok w') →
                listings w' = listings (world s)
                ∧ (ledger_ok (world s) → ledger_ok w')) as Hfin.
  { intros w' E K. split; [|exact K]. now rewrite E, Hw1. }
  assert (ledger_ok (world s) → ledger_ok (world s1)) as Hk1
    by (rewrite Hw1; exact Hk0).
  rewrite Hw1.
  destruct (pinataCreds (world s0)).
  - unfold bind at 1. unfold fetch.
    destruct (net s1) as [|[| |cid] rest]; simpl; do 2 eexists;
      (split; [reflexivity|]); apply Hfin; try reflexivity; simpl; intros Hok.
    + pose proof (ledger_ok_memory key _ _ (Hup Hok) (Hk1 Hok)) as [? ?]. split; assumption.
    + auto.
    + pose proof (ledger_ok_memory key _ _ (Hup Hok) (Hk1 Hok)) as [? ?]. split; assumption.
    + pose proof (ledger_ok_pin (balance_name key) cid _ _ (Hup Hok) (Hk1 Hok)) as [? ?].
      split; assumption.
  - simpl. do 2 eexists. split; [reflexivity|]. apply Hfin; [reflexivity|].
    simpl. intros Hok.
    pose proof (ledger_ok_memory key _ _ (Hup Hok) (Hk1 Hok)) as [? ?]. split; assumption.
Qed.

Lemma getUserBalanceByEmail_frame now email s :
  ∃ r s', getUserBalanceByEmail now email s = (Val r, s')
          ∧ index_erase (world s') = index_erase (world s).
Proof.
  unfold getUserBalanceByEmail.
  destruct (negb (truthy email)); [unfold ret; eauto|].
  rewrite bind_gets.
  destruct (inMemoryBalances (world s) !! toLowerCase email); [unfold ret; eauto|].
  rewrite bind_gets.
  assert (∃ h s1, (match known_hash (toLowerCase email) (world s) with
                   | Some h => ret (Some h)
                   | None => let* headers := gets pinataCreds in
                             if headers then searchPinata (toLowerCase email) else ret None
                   end) s = (Val h, s1)
                  ∧ index_erase (world s1) = index_erase (world s)) as (h & s1 & Hh & Hs1).
  { destruct (known_hash _ _); [unfold ret; eauto|].
    rewrite bind_gets. destruct (pinataCreds (world s)); [|unfold ret; eauto].
    apply searchPinata_frame. }
  rewrite (bind_val _ _ _ _ _ Hh).
  destruct h as [h|]; [|unfold ret; eauto].
  run_monad.
  destruct (net s1) as [|[| |c] rest]; simpl; eauto.
  destruct (ipfs (world s1) !! h); simpl; eauto.
Qed.

Lemma getUserBalance_frame now uid s :
  ∃ r s', getUserBalance now uid s = (Val r, s')
          ∧ index_erase (world s') = index_erase (world s).
Proof.
  unfold getUserBalance.
  destruct (negb (truthy uid)); [unfold ret; eauto|].
  rewrite bind_gets.
  destruct (userIdToEmail (world s) !! uid) as [e|]; [|unfold ret; eauto].
  destruct (truthy e); [|unfold ret; eauto].
  apply getUserBalanceByEmail_frame.
Qed.

(** What [createListing] does to the collection: nothing, or one new active
    listing in front. *)
Lemma createListing_frame now uuid req s :
  ∃ r s', createListing now uuid req s = (r, s')
    ∧ (ledger_ok (world s) → ledger_ok (world s'))
    ∧ applied (world s') = applied (world s)
    ∧ (listings (world s') = listings (world s)
       ∨ ∃ l, l_status l = active ∧ listings (world s') = l :: listings (world s)).
Proof.
  unfold createListing.
  destruct (negb (truthy (cl_sellerEmail req)) || negb (truthy (cl_sellerWallet req))
            || negb (truthy_num (cl_amountTokens req))
            || negb (truthy_num (cl_priceRupees req))
            || negb (truthy (cl_signature req))); [unfold ret; eauto 10|].
  destruct (Nat.ltb (js_length (cl_signature req)) 10); [unfold ret; eauto 10|].
  destruct (getUserBalanceByEmailInternal_frame now (cl_sellerEmail req) s)
    as (bal & s1 & Hget & He & _).
  rewrite (bind_val _ _ _ _ _ Hget).
  destruct (or_zero (from_option totalBalance 0 bal) <? cl_amountTokens req).
  { unfold ret. do 2 eexists. split; [reflexivity|].
    split; [apply (ledger_ok_erase _ _ He)|].
    split; [apply (frame_applied _ _ He)|].
    left. apply (frame_listings _ _ He). }
  rewrite bind_modify.
  match goal with
  | |- ∃ r s', bind saveListings _ ?st = _ ∧ _ =>
      set (s2 := st); destruct (saveListings_frame s2) as (r3 & s3 & Hs3 & He3)
  end.
  assert (ledger_ok (world s) → ledger_ok (world s3)) as Hk.
  { intros Hok. apply (cframe_ledger _ _ He3).
    destruct (ledger_ok_erase _ _ He Hok) as [Hm Hp]. split; [exact Hm | exact Hp]. }
  assert (applied (world s3) = applied (world s)) as Hap.
  { rewrite (cframe_applied _ _ He3). simpl. apply (frame_applied _ _ He). }
  assert (∃ l, l_status l = active ∧ listings (world s3) = l :: listings (world s)) as Hl.
  { eexists. split; [|rewrite (cframe_listings _ _ He3); simpl;
                      rewrite (frame_listings _ _ He); reflexivity]. reflexivity. }
  destruct r3 as [[]|e].
  - rewrite (bind_val _ _ _ _ _ Hs3). unfold ret. do 2 eexists. split; [reflexivity|]. auto.
  - rewrite (bind_throw _ _ _ _ _ Hs3). do 2 eexists. split; [reflexivity|]. auto.
Qed.

(** ** How the collection of listings evolves *)

Lemma keeps_terminal_refl ls : Forall2 keeps_terminal ls ls.
Proof. induction ls; constructor; auto. intros _. reflexivity. Qed.

Lemma keeps_terminal_trans ls1 ls2 ls3 :
  Forall2 keeps_terminal ls1 ls2 → Forall2 keeps_terminal ls2 ls3 →
  Forall2 keeps_terminal ls1 ls3.
Proof.
  intros H. revert ls3. induction H as [|a b l1 l2 Hab _ IH]; intros ls3 H23.
  - inversion H23. constructor.
  - inversion H23 as [|? c ? l3 Hbc H' ]; subst. constructor; [|auto].
    intros Ha. pose proof (Hab Ha) as ->. auto.
Qed.

Lemma listings_evolve_refl ls : listings_evolve ls ls.
Proof. exists [], ls. split; [reflexivity | apply keeps_terminal_refl]. Qed.

Lemma listings_evolve_eq ls ls' : ls' = ls → listings_evolve ls ls'.
Proof. intros ->. apply listings_evolve_refl. Qed.

Lemma listings_evolve_cons l ls : listings_evolve ls (l :: ls).
Proof. exists [l], ls. split; [reflexivity | apply keeps_terminal_refl]. Qed.

Lemma listings_evolve_trans ls1 ls2 ls3 :
  listings_evolve ls1 ls2 → listings_evolve ls2 ls3 → listings_evolve ls1 ls3.
Proof.
  intros (pre & kept & -> & H12) (pre' & kept' & -> & H23).
  apply Forall2_app_inv_l in H23 as (k1 & k2 & Hk1 & Hk2 & ->).
  exists (pre' ++ k1)%list, k2. split; [now rewrite app_assoc|].
  now apply keeps_terminal_trans with kept.
Qed.

Lemma mark_sold_keeps_terminal listingId now ls L :
  find_listing listingId ls = Some L → l_status L = active →
  Forall2 keeps_terminal ls (mark_sold listingId now ls).
Proof.
  unfold find_listing. induction ls as [|l ls IH]; simpl; [constructor|].
  destruct (String.eqb (l_id l) listingId).
  - intros [= ->] Ha. constructor; [|apply keeps_terminal_refl].
    intros Hn. contradiction.
  - intros Hf Ha. constructor; [intros _; reflexivity | auto].
Qed.

(** ** One request *)

Lemma serve_route e r w :
  serve e r w = (fst (route e r (mkSt w (replies e))),
                 world (snd (route e r (mkSt w (replies e))))).
Proof. unfold serve. now destruct (route e r (mkSt w (replies e))). Qed.

Lemma serve_step e r w :
  listings_evolve (listings w) (listings (snd (serve e r w)))
  ∧ (ledger_ok w → ledger_ok (snd (serve e r w))).
Proof.
  rewrite serve_route. simpl snd.
  set (s := mkSt w (replies e)).
  change (listings w) with (listings (world s)).
  change (ledger_ok w) with (ledger_ok (world s)).
  unfold route.
  destruct r as [req|uid|email|req|status|req]; rewrite handle_answer; simpl snd.
  - destruct (storeUserBalance_frame (now e) (rand e) req s) as (r & s' & H & Hl & Hk).
    rewrite H. simpl. split; [now apply listings_evolve_eq | exact Hk].
  - destruct (getUserBalance_frame (now e) uid s) as (r & s' & H & He).
    rewrite H. simpl.
    split; [apply listings_evolve_eq, (frame_listings _ _ He) | apply (ledger_ok_erase _ _ He)].
  - destruct (getUserBalanceByEmail_frame (now e) email s) as (r & s' & H & He).
    rewrite H. simpl.
    split; [apply listings_evolve_eq, (frame_listings _ _ He) | apply (ledger_ok_erase _ _ He)].
  - destruct (createListing_frame (now e) (uuid e) req s) as (r & s' & H & Hk & _ & Hl).
    rewrite H. simpl. split; [|exact Hk].
    destruct Hl as [-> | (l & _ & ->)];
      [apply listings_evolve_refl | apply listings_evolve_cons].
  - split; [apply listings_evolve_refl | auto].
  - destruct (buy_check_total (now e) req s) as [Hf|Hf Hn|L Hf Hfind Ha|L Hf Hfind Ha Hs
                                                |L Hf Hfind Ha Hs Hr|L Hf Hfind Ha Hs Hr].
    + rewrite buyListing_missing by exact Hf.
      split; [apply listings_evolve_refl | auto].
    + rewrite buyListing_not_found by assumption.
      split; [apply listings_evolve_refl | auto].
    + rewrite (buyListing_unavailable _ _ _ _ _ L) by assumption.
      split; [apply listings_evolve_refl | auto].
    + rewrite (buyListing_self_trade _ _ _ _ _ L) by assumption.
      split; [apply listings_evolve_refl | auto].
    + rewrite (buyListing_insufficient _ _ _ _ _ L) by assumption.
      unfold after_rupee_check. simpl.
      destruct (getUserBalanceByEmailInternal_frame (now e) (b_buyerEmail req) s)
        as (bal & s1 & Hget & He & _).
      rewrite Hget. simpl.
      split; [apply listings_evolve_eq, (frame_listings _ _ He)
             | apply (ledger_ok_erase _ _ He)].
    + destruct (buyListing_passed (now e) (uuid e) (rand e) req s L Hf Hfind Ha Hs Hr)
        as (r & s' & Hbuy & [Hl Hk _]).
      rewrite Hbuy. simpl. split; [|exact Hk].
      destruct Hl as [-> | ->]; [apply listings_evolve_refl|].
      exists [], (mark_sold (l_id L) (now e) (listings (world s))).
      split; [reflexivity|]. apply mark_sold_keeps_terminal with L; [|exact Ha].
      unfold find_listing in *. apply find_some in Hfind as Hid.
      destruct Hid as [_ Hid]. apply String.eqb_eq in Hid. now rewrite Hid.
Qed.

Lemma serve_all_step rs w :
  listings_evolve (listings w) (listings (serve_all rs w))
  ∧ (ledger_ok w → ledger_ok (serve_all rs w)).
Proof.
  revert w. induction rs as [|[e r] rs IH]; intros w; simpl.
  - split; [apply listings_evolve_refl | auto].
  - destruct (serve_step e r w) as [Hl Hk].
    destruct (IH (snd (serve e r w))) as [Hl' Hk'].
    split; [now apply listings_evolve_trans with (listings (snd (serve e r w))) | auto].
Qed.

Lemma initial_ledger_ok creds : ledger_ok (initial creds).
Proof. split; simpl; intros k b; rewrite lookup_empty; discriminate. Qed.

(** ** The edge read route *)

(** The snapshot the gateway loop caches is the pinned one, coerced. *)
Lemma tryGateways_frame n emailKey h s :
  ∃ r s', Edge.tryGateways n emailKey h s = (Val r, s')
    ∧ (ledger_ok (world s) → ledger_ok (world s'))
    ∧ listings (world s') = listings (world s)
    ∧ applied (world s') = applied (world s)
    ∧ ∀ b, r = Some b → is_Some (rupeesBalance b).
Proof.
  revert s. induction n as [|n IH]; intros s; simpl.
  - unfold ret. do 2 eexists. split; [reflexivity|].
    split; [auto|]. split; [reflexivity|]. split; [reflexivity|].
    intros b Hb. discriminate Hb.
  - unfold bind at 1. unfold fetch.
    destruct (net s) as [|o rest] eqn:Hn.
    + destruct (IH s) as (r & s' & H & Hrest). exists r, s'. split; [exact H | exact Hrest].
    + assert (∃ r s', Edge.tryGateways n emailKey h (mkSt (world s) rest) = (Val r, s')
                ∧ (ledger_ok (world s) → ledger_ok (world s'))
                ∧ listings (world s') = listings (world s)
                ∧ applied (world s') = applied (world s)
                ∧ ∀ b, r = Some b → is_Some (rupeesBalance b)) as Hskip
        by (destruct (IH (mkSt (world s) rest)) as (r & s' & H & Hrest); exists r, s'; auto).
      destruct o as [| |c]; try exact Hskip.
      rewrite bind_gets. cbn [world].
      destruct (ipfs (world s) !! h) as [bal|] eqn:Hc; [|exact Hskip].
      rewrite bind_modify. unfold ret. do 2 eexists. split; [reflexivity|].
      cbn [world]. split; [|split; [reflexivity|split; [reflexivity|]]].
      * intros Hok. apply ledger_ok_memory; [|exact Hok].
        apply coerce_rupees_sum. destruct Hok as [_ Hp]. eauto.
      * intros b [= <-]. unfold coerce_rupees.
        destruct (rupeesBalance bal) eqn:E; simpl; [rewrite E|]; eauto.
Qed.

(** The edge route keeps the transaction-sum invariant, the listings and the
    delta history. *)
Lemma edge_serve_frame e email w :
  (ledger_ok w → ledger_ok (snd (Edge.serve e email w)))
  ∧ listings (snd (Edge.serve e email w)) = listings w
  ∧ applied (snd (Edge.serve e email w)) = applied w.
Proof.
  unfold Edge.serve. rewrite handle_answer. simpl snd.
  set (s := mkSt w (replies e)).
  change (ledger_ok w) with (ledger_ok (world s)).
  change (listings w) with (listings (world s)).
  change (applied w) with (applied (world s)).
  unfold Edge.handler.
  destruct (negb (truthy email)); [simpl; auto|].
  rewrite bind_gets.
  destruct (inMemoryBalances (world s) !! toLowerCase email); [simpl; auto|].
  rewrite bind_gets.
  assert (∃ h s1, (match known_hash (toLowerCase email) (world s) with
                   | Some h => ret (Some h)
                   | None => let* headers := gets pinataCreds in
                             if headers then searchPinata (toLowerCase email) else ret None
                   end) s = (Val h, s1)
                  ∧ index_erase (world s1) = index_erase (world s)) as (h & s1 & Hh & Hs1).
  { destruct (known_hash _ _); [unfold ret; eauto|].
    rewrite bind_gets. destruct (pinataCreds (world s)); [|unfold ret; eauto].
    apply searchPinata_frame. }
  rewrite (bind_val _ _ _ _ _ Hh).
  destruct h as [h|].
  - destruct (tryGateways_frame 5 (toLowerCase email) h s1)
      as (r & s2 & Ht & Hk & Hl & Ha & _).
    rewrite (bind_val _ _ _ _ _ Ht).
    assert (snd ((match r with
                  | Some b => ret (OkBalance b)
                  | None => ret (OkBalance (default_balance (toLowerCase email) (now e)))
                  end) s2) = s2) as -> by (destruct r; reflexivity).
    rewrite Hl, Ha, (frame_listings _ _ Hs1), (frame_applied _ _ Hs1).
    split; [|split; reflexivity].
    intros Hok. apply Hk. now apply (ledger_ok_erase _ _ Hs1).
  - unfold bind, ret. simpl.
    rewrite (frame_listings _ _ Hs1), (frame_applied _ _ Hs1).
    split; [|split; reflexivity]. apply (ledger_ok_erase _ _ Hs1).
Qed.

(** ** The read paths on an account without history, and on an old blob *)

Lemma searchPinata_nothing emailKey s :
  pinList (world s) !! balance_name emailKey = None →
  fst (searchPinata emailKey s) = Val None
  ∧ world (snd (searchPinata emailKey s)) = world s.
Proof.
  intros Hp. unfold searchPinata. run_monad.
  destruct (net s) as [|[| |c] rest]; simpl; rewrite ?Hp; auto.
Qed.

Lemma never_seen_hash emailKey s :
  never_seen emailKey (world s) →
  ∃ s1, (match known_hash emailKey (world s) with
         | Some h => ret (Some h)
         | None => let* headers := gets pinataCreds in
                   if headers then searchPinata emailKey else ret None
         end) s = (Val None, s1) ∧ world s1 = world s.
Proof.
  intros (_ & Hh & Hp). rewrite Hh. cbv iota. rewrite bind_gets.
  destruct (pinataCreds (world s)); [|unfold ret; eauto].
  destruct (searchPinata_nothing emailKey s Hp) as [H1 H2].
  destruct (searchPinata emailKey s) as [r s1]. simpl in *. subst. eauto.
Qed.

(** The internal read grants 0 tokens and 100 rupees. *)
Lemma internal_read_default_grant t email s :
  never_seen (toLowerCase email) (world s) →
  fst (getUserBalanceByEmailInternal t email s)
  = Val (Some (mkUserBalance (toLowerCase email) None None 0 (Some 100) [] t)).
Proof.
  intros Hn. unfold getUserBalanceByEmailInternal.
  rewrite bind_gets. destruct Hn as (Hm & Hn). rewrite Hm, bind_gets.
  destruct (never_seen_hash (toLowerCase email) s (conj Hm Hn)) as (s1 & H & _).
  rewrite (bind_val _ _ _ _ _ H). reflexivity.
Qed.

(** So does the edge route. *)
Lemma edge_read_default_grant e email w :
  email ≠ "" → never_seen (toLowerCase email) w →
  fst (Edge.serve e email w)
  = OkBalance (mkUserBalance (toLowerCase email) None None 0 (Some 100) [] (now e)).
Proof.
  intros He Hn. unfold Edge.serve. rewrite handle_answer. simpl fst.
  unfold Edge.handler. apply truthy_iff in He. rewrite He. cbn [negb].
  rewrite bind_gets. destruct Hn as (Hm & Hn). cbn [world]. rewrite Hm, bind_gets.
  destruct (never_seen_hash (toLowerCase email) (mkSt w (replies e)) (conj Hm Hn))
    as (s1 & H & _).
  rewrite (bind_val _ _ _ _ _ H). reflexivity.
Qed.

(** The public Express route answers the same account without a
    [rupeesBalance]. *)
Lemma public_read_default e email w :
  email ≠ "" → never_seen (toLowerCase email) w →
  fst (serve e (GetBalanceByEmail email) w)
  = OkBalance (mkUserBalance (toLowerCase email) None None 0 None [] (now e)).
Proof.
  intros He Hn. rewrite serve_route. simpl fst. unfold route. rewrite handle_answer.
  simpl fst. unfold getUserBalanceByEmail. apply truthy_iff in He. rewrite He.
  cbn [negb].
  rewrite bind_gets. destruct Hn as (Hm & Hn). cbn [world]. rewrite Hm, bind_gets.
  destruct (never_seen_hash (toLowerCase email) (mkSt w (replies e)) (conj Hm Hn))
    as (s1 & H & _).
  rewrite (bind_val _ _ _ _ _ H). reflexivity.
Qed.

(** A snapshot the internal read did not find in memory has a numeric
    [rupeesBalance]. *)
Lemma internal_read_coerces t email s b s' :
  inMemoryBalances (world s) !! toLowerCase email = None →
  getUserBalanceByEmailInternal t email s = (Val (Some b), s') →
  is_Some (rupeesBalance b).
Proof.
  intros Hm Hread.
  destruct (getUserBalanceByEmailInternal_frame t email s) as (r & s1 & Hget & _ & Hsrc).
  rewrite Hread in Hget. injection Hget as <- <-.
  inversion Hsrc as [b0 H0 | H0 | h bal H0 Hb | H0]; subst; try congruence.
  - eexists. reflexivity.
  - unfold coerce_rupees. destruct (rupeesBalance bal) eqn:E; simpl; [rewrite E|]; eauto.
Qed.

(** ** Validation of a new listing *)

Lemma truthy_false_iff s : truthy s = false ↔ s = "".
Proof. destruct s; simpl; split; congruence. Qed.

Lemma truthy_num_false_iff n : truthy_num n = false ↔ n = 0.
Proof. unfold truthy_num. destruct (Z.eqb_spec n 0); simpl; split; congruence. Qed.

(** Past its validation [createListing] answers the token check, the new
    listing, or the 500 of a failed upload. *)
Lemma createListing_validated t uuid req s :
  negb (truthy (cl_sellerEmail req)) || negb (truthy (cl_sellerWallet req))
  || negb (truthy_num (cl_amountTokens req)) || negb (truthy_num (cl_priceRupees req))
  || negb (truthy (cl_signature req)) = false →
  Nat.ltb (js_length (cl_signature req)) 10 = false →
  ∃ r s', createListing t uuid req s = (r, s')
          ∧ (r = Val InsufficientTokens ∨ (∃ l, r = Val (Created l)) ∨ ∃ e, r = Throw e).
Proof.
  intros H1 H2. unfold createListing. rewrite H1, H2.
  destruct (getUserBalanceByEmailInternal_frame t (cl_sellerEmail req) s)
    as (bal & s1 & Hget & _ & _).
  rewrite (bind_val _ _ _ _ _ Hget).
  destruct (or_zero (from_option totalBalance 0 bal) <? cl_amountTokens req);
    [unfold ret; eauto|].
  rewrite bind_modify.
  match goal with
  | |- ∃ r s', bind saveListings _ ?st = _ ∧ _ =>
      destruct (saveListings_frame st) as ([[]|e] & s3 & Hs3 & _)
  end.
  - rewrite (bind_val _ _ _ _ _ Hs3). unfold ret. eauto 8.
  - rewrite (bind_throw _ _ _ _ _ Hs3). eauto 8.
Qed.

(** ** Two reads in a row *)

Lemma read_memory t email s b :
  inMemoryBalances (world s) !! toLowerCase email = Some b →
  getUserBalanceByEmailInternal t email s = (Val (Some b), s).
Proof.
  intros Hm. unfold getUserBalanceByEmailInternal. rewrite bind_gets, Hm. reflexivity.
Qed.

Lemma read_known t email s h c rest :
  inMemoryBalances (world s) !! toLowerCase email = None →
  known_hash (toLowerCase email) (world s) = Some h →
  net s = NetOk c :: rest →
  getUserBalanceByEmailInternal t email s
  = (Val (coerce_rupees <$> ipfs (world s) !! h), mkSt (world s) rest).
Proof.
  intros Hm Hk Hn. unfold getUserBalanceByEmailInternal.
  rewrite bind_gets, Hm, bind_gets, Hk. run_monad. rewrite Hn. simpl.
  destruct (ipfs (world s) !! h); reflexivity.
Qed.

Lemma known_hash_insert key h w :
  truthy h = true → known_hash key (set_emailToIpfsMap (<[key := h]>) w) = Some h.
Proof. intros Ht. unfold known_hash. simpl. now rewrite lookup_insert_eq, Ht. Qed.

(** ** Account metadata *)

Lemma store_end_stored key nb d w1 written w' :
  store_end key nb d w1 (Val written) w' → written = nb ∧ stored key nb w'.
Proof.
  intros H. inversion H; subst; (split; [reflexivity|]).
  - left. simpl. apply lookup_insert_eq.
  - right. exists cid. destruct (truthy cid); simpl; apply lookup_insert_eq.
Qed.

Lemma store_end_failed key nb d w1 e w' :
  store_end key nb d w1 (Throw e) w' → w' = w1.
Proof. intros H. now inversion H. Qed.

(** ** Account keys *)

Lemma lower_ascii_idem c : lower_ascii (lower_ascii c) = lower_ascii c.
Proof.
  destruct c as [b0 b1 b2 b3 b4 b5 b6 b7].
  destruct b0, b1, b2, b3, b4, b5, b6, b7; reflexivity.
Qed.

Lemma toLowerCase_idem s : toLowerCase (toLowerCase s) = toLowerCase s.
Proof.
  induction s as [|c s IH]; simpl; [reflexivity|].
  now rewrite lower_ascii_idem, IH.
Qed.

(** ** What a delta application writes *)








(** ** The rupees a purchase compares with the price *)

Lemma coerce_rupees_rupees b :
  nullish (rupeesBalance (coerce_rupees b)) 100 = nullish (rupeesBalance b) 100.
Proof.
  unfold coerce_rupees. destruct (rupeesBalance b) eqn:E; simpl; rewrite ?E; reflexivity.
Qed.

(** The rupees the check compares with the price are those seen in the
    state. *)
Lemma buyer_rupees_seen now email s :
  buyer_rupees now email s = rupees_seen (toLowerCase email) (world s) (net s).
Proof.
  unfold buyer_rupees, rupees_seen, getUserBalanceByEmailInternal.
  set (key := toLowerCase email).
  rewrite bind_gets.
  destruct (inMemoryBalances (world s) !! key) as [m|] eqn:Hm; [reflexivity|].
  rewrite bind_gets.
  destruct (known_hash key (world s)) as [h|] eqn:Hk.
  { run_monad. destruct (net s) as [|[| |c] rest]; simpl; try reflexivity.
    destruct (ipfs (world s) !! h) as [b|]; simpl; [apply coerce_rupees_rupees | reflexivity]. }
  run_monad.
  destruct (pinataCreds (world s)) eqn:Hc; simpl; [|reflexivity].
  unfold searchPinata. run_monad.
  destruct (net s) as [|[| |c] rest]; simpl; try reflexivity.
  destruct (pinList (world s) !! balance_name key) as [h|]; simpl; [|reflexivity].
  destruct (truthy h); simpl; [|reflexivity].
  destruct rest as [|[| |c'] rest']; simpl; try reflexivity.
  destruct (ipfs (world s) !! h) as [b|]; simpl; [apply coerce_rupees_rupees | reflexivity].
Qed.

(** ** What a delta application makes of the account metadata *)

Lemma read_known_fails t email s h :
  inMemoryBalances (world s) !! toLowerCase email = None →
  known_hash (toLowerCase email) (world s) = Some h →
  read_fails (net s) →
  ∃ s1, getUserBalanceByEmailInternal t email s = (Val None, s1) ∧ world s1 = world s.
Proof.
  intros Hm Hk Hn. unfold getUserBalanceByEmailInternal.
  rewrite bind_gets, Hm, bind_gets, Hk. run_monad.
  destruct (net s) as [|[| |c] rest]; simpl; try contradiction; eauto.
Qed.

Lemma coerce_rupees_metadata b :
  userId (coerce_rupees b) = userId b ∧ walletAddress (coerce_rupees b) = walletAddress b.
Proof. unfold coerce_rupees. destruct (rupeesBalance b); split; reflexivity. Qed.

Lemma newBal_keeps_metadata t rand args ex :
  keeps_metadata ex (newBal t rand args (Some ex)).
Proof. split; intros [x Hx]; cbn; rewrite Hx; reflexivity. Qed.

Lemma newBal_fresh t rand args :
  userId (newBal t rand args None) = a_userId args
  ∧ walletAddress (newBal t rand args None) = a_walletAddress args
  ∧ length (transactions (newBal t rand args None)) = 1%nat.
Proof.
  unfold newBal. cbn. destruct (a_userId args), (a_walletAddress args); repeat split.
Qed.

(** What the public grant route writes: the snapshot it loaded with the
    grant added, in memory or pinned. *)
Lemma storeUserBalance_writes t rand req s cid bal url note s' :
  storeUserBalance t rand req s = (Val (OkStored cid bal url note), s') →
  let key := toLowerCase (sr_userEmail req) in
  let written := updatedBalance t rand req (loaded_by_grant key s) in
  stored key written (world s') ∧ bal = totalBalance written.
Proof.
  unfold storeUserBalance.
  destruct (negb (truthy (sr_userEmail req)) || negb (truthy_num (sr_amount req))
            || negb (truthy (sr_adminSignature req)) || negb (truthy (sr_ticketId req)));
    [discriminate|].
  set (key := toLowerCase (sr_userEmail req)).
  assert (∃ s0, (match sr_userId req with
                 | Some u => if truthy u then modify (set_userIdToEmail (<[u := key]>))
                             else ret tt
                 | None => ret tt
                 end) s = (Val tt, s0)
                ∧ known_hash key (world s0) = known_hash key (world s)
                ∧ inMemoryBalances (world s0) = inMemoryBalances (world s)
                ∧ ipfs (world s0) = ipfs (world s)
                ∧ net s0 = net s) as (s0 & H0 & Hk0 & Hm0 & Hi0 & Hn0).
  { destruct (sr_userId req) as [u|]; [destruct (truthy u)|]; eexists;
      (split; [reflexivity|]); repeat split. }
  rewrite (bind_val _ _ _ _ _ H0), bind_gets.
  assert (∃ s1, (match known_hash key (world s0) with
                 | Some h => let* o := fetch in
                             match o with
                             | NetOk _ => gets (fun w => ipfs w !! h)
                             | _ => ret None
                             end
                 | None => gets (fun w => inMemoryBalances w !! key)
                 end) s0 = (Val (loaded_by_grant key s), s1)
                ∧ world s1 = world s0) as (s1 & H1 & Hw1).
  { unfold loaded_by_grant. rewrite Hk0, <- Hn0, <- Hm0, <- Hi0.
    destruct (known_hash key (world s)) as [h|].
    - run_monad. destruct (net s0) as [|[| |c] rest]; simpl; eexists; split; reflexivity.
    - eexists. split; reflexivity. }
  rewrite (bind_val _ _ _ _ _ H1), bind_gets.
  set (written := updatedBalance t rand req (loaded_by_grant key s)).
  destruct (pinataCreds (world s1)).
  - unfold bind at 1. unfold fetch.
    destruct (net s1) as [|[| |c] rest]; simpl; intros [= <- <- <- <- <-]; simpl;
      (split; [|reflexivity]).
    + left. apply lookup_insert_eq.
    + left. apply lookup_insert_eq.
    + right. eexists. apply lookup_insert_eq.
  - simpl. intros [= <- <- <- <- <-]. simpl. split; [|reflexivity].
    left. apply lookup_insert_eq.
Qed.

(** * The claims *)



(** C2, as the code has it. The balances are sums of doubles, which are
    exact only within the safe integers.  Starting from a state whose stored
    snapshots satisfy it (the empty state at start-up does), after any
    sequence of requests, delta applications through [storeUserBalance] and
    through purchases and the creation of accounts included, the snapshot
    read for any account has a [totalBalance] equal to the sum of the
    [amount] fields of its [transactions], provided the running totals of
    these amounts (the sum of the first record, of the first two, and so on)
    are all safe integers, between -(2^53 - 1) and 2^53 - 1. *)
Theorem transaction_sum_invariant w0 rs t email replies snapshot s' :
  ledger_ok w0 →
  getUserBalanceByEmailInternal t email (mkSt (serve_all rs w0) replies)
  = (Val (Some snapshot), s') →
  history_safe (transactions snapshot) = true →
  totalBalance snapshot = sum_amounts (transactions snapshot).
Proof.
  intros Hok Hread Hsafe.
  destruct (serve_all_step rs w0) as [_ Hk].
  destruct (getUserBalanceByEmailInternal_frame t email (mkSt (serve_all rs w0) replies))
    as (r & s1 & Hget & _ & Hsrc).
  rewrite Hread in Hget. injection Hget as <- <-.
  refine (snapshot_source_sum _ _ _ _ _ _ Hsrc eq_refl Hsafe). simpl. auto.
Qed.

(** C2 fails as stated: after a grant of 2^53 tokens and a grant of one
    token the snapshot holds 2^53 tokens, one less than the sum of the
    amounts of its two records. *)
Lemma rounded_grant_breaks_the_sum :
  match getUserBalanceByEmailInternal 3 "a@x.com"
          (mkSt (serve_all demo_large_grants (initial false)) []) with
  | (Val (Some snapshot), _) =>
      map tx_amount (transactions snapshot) = [9007199254740992; 1]
      ∧ sum_amounts (transactions snapshot) = 9007199254740993
      ∧ totalBalance snapshot = 9007199254740992
  | _ => False
  end.
Proof. vm_compute. repeat split. Qed.

(** On the sample market, after the purchase: the seller holds 30 tokens, the
    sum of the grant of 50 and the sale of 20. *)
Lemma transaction_sum_invariant_witness :
  match getUserBalanceByEmailInternal 4 "A@x.com"
          (mkSt (serve_all (demo_requests ++ [(demo_env 3, BuyListing demo_buy)])
                           (initial false)) []) with
  | (Val (Some snapshot), _) =>
      totalBalance snapshot = 30 ∧ totalBalance snapshot = sum_amounts (transactions snapshot)
  | _ => False
  end.
Proof.
  destruct (getUserBalanceByEmailInternal 4 "A@x.com"
              (mkSt (serve_all (demo_requests ++ [(demo_env 3, BuyListing demo_buy)])
                               (initial false)) []))
    as [[[snapshot|]|e] s'] eqn:E; try (vm_compute in E; discriminate E).
  split; [vm_compute in E; now injection E as <- _|].
  apply (transaction_sum_invariant (initial false)
           (demo_requests ++ [(demo_env 3, BuyListing demo_buy)])
           4 "A@x.com" [] snapshot s'); [|exact E|].
  - apply initial_ledger_ok.
  - vm_compute in E. now injection E as <- _.
Defined.

(** C3. A listing whose status is [sold] or [cancelled] stays in the
    collection, unchanged, under any sequence of requests: it is only pushed
    back by the listings created since.  A purchase that resolves to it then
    never succeeds and changes nothing: it answers [ListingUnavailable]
    whenever the request carries its required fields (and the missing-fields
    error otherwise). *)
Theorem listing_terminality w L i rs e req :
  listings w !! i = Some L →
  l_status L = sold ∨ l_status L = cancelled →
  let w' := serve_all rs w in
  let created := (length (listings w') - length (listings w))%nat in
  listings w' !! (created + i)%nat = Some L
  ∧ (find_listing (b_listingId req) (listings w') = Some L →
     ¬ bought (fst (serve e (BuyListing req) w'))
     ∧ snd (serve e (BuyListing req) w') = w'
     ∧ (has_required_fields req → fst (serve e (BuyListing req) w') = ListingUnavailable)).
Proof.
  intros Hi Hterm w' created.
  assert (l_status L ≠ active) as Hna by (destruct Hterm as [H|H]; rewrite H; discriminate).
  split.
  - destruct (serve_all_step rs w) as [(pre & kept & Hls & Hkept) _].
    destruct (Forall2_lookup_l _ _ _ _ _ Hkept Hi) as (L' & HL' & Hk).
    apply Forall2_length in Hkept.
    assert (created = length pre) as ->
      by (subst created w'; rewrite Hls, length_app; lia).
    fold w' in Hls. rewrite Hls, lookup_app_r by lia.
    replace (length pre + i - length pre)%nat with i by lia.
    now rewrite HL', (Hk Hna).
  - intros Hfind. rewrite serve_buy. simpl fst. simpl snd.
    destruct (has_required_fields_dec req) as [Hf|Hf].
    + rewrite (buyListing_unavailable _ _ _ _ _ L) by assumption. simpl.
      split; [|split; [reflexivity | reflexivity]].
      intros (? & ? & ? & ? & H). discriminate.
    + rewrite buyListing_missing by exact Hf. simpl.
      split; [|split; [reflexivity | contradiction]].
      intros (? & ? & ? & ? & H). discriminate.
Qed.

(** On the sample market: the sold listing is second once a new listing is
    created, and buying it again answers [ListingUnavailable]. *)
Lemma listing_terminality_witness :
  ∃ L, listings demo_sold !! 0%nat = Some L
       ∧ l_status L = sold
       ∧ listings (serve_all [(demo_env 4, CreateListing demo_relist)] demo_sold) !! 1%nat
         = Some L
       ∧ fst (serve (demo_env 5) (BuyListing demo_buy)
                (serve_all [(demo_env 4, CreateListing demo_relist)] demo_sold))
         = ListingUnavailable.
Proof.
  eexists. split; [vm_compute; reflexivity|]. split; [reflexivity|].
  match goal with
  | |- listings _ !! _ = Some ?L ∧ _ =>
      pose proof (listing_terminality demo_sold L 0
                    [(demo_env 4, CreateListing demo_relist)] (demo_env 5) demo_buy) as H
  end.
  destruct H as [Hstay Hbuy]; [vm_compute; reflexivity | left; reflexivity |].
  split; [exact Hstay|].
  apply Hbuy; [vm_compute; reflexivity|].
  unfold has_required_fields. simpl. repeat split; discriminate.
Defined.

(** C4. A purchase whose buyer, once lower-cased, is the seller of the
    active listing it resolves to never succeeds and changes nothing,
    whatever the balances: it answers [SelfTrade] whenever the request
    carries its required fields (and the missing-fields error otherwise). *)
Theorem self_trade_rejected e req w L :
  find_listing (b_listingId req) (listings w) = Some L →
  l_status L = active →
  toLowerCase (b_buyerEmail req) = l_sellerEmail L →
  ¬ bought (fst (serve e (BuyListing req) w))
  ∧ snd (serve e (BuyListing req) w) = w
  ∧ (has_required_fields req → fst (serve e (BuyListing req) w) = SelfTrade).
Proof.
  intros Hfind Ha Hs. rewrite serve_buy. simpl fst. simpl snd.
  destruct (has_required_fields_dec req) as [Hf|Hf].
  - rewrite (buyListing_self_trade _ _ _ _ _ L) by (try assumption; now symmetry). simpl.
    split; [|split; [reflexivity | reflexivity]].
    intros (? & ? & ? & ? & H). discriminate.
  - rewrite buyListing_missing by exact Hf. simpl.
    split; [|split; [reflexivity | contradiction]].
    intros (? & ? & ? & ? & H). discriminate.
Qed.

(** On the sample market: the seller, written [A@X.com], buys its own
    listing. *)
Lemma self_trade_rejected_witness :
  fst (serve (demo_env 3) (BuyListing demo_self_buy) demo_market) = SelfTrade
  ∧ snd (serve (demo_env 3) (BuyListing demo_self_buy) demo_market) = demo_market.
Proof.
  destruct (self_trade_rejected (demo_env 3) demo_self_buy demo_market
              (mkListing "id-2" "a@x.com" (Some "uid-a") "0xA" 20 20 active 2 2))
    as (_ & Hsame & Hresp); try (vm_compute; reflexivity).
  split; [|exact Hsame].
  apply Hresp. unfold has_required_fields. simpl. repeat split; discriminate.
Defined.

(** C5. The public Express read route ([getUserBalanceByEmail]) answers an
    account it has never seen with [totalBalance = 0] but without any
    [rupeesBalance], where the internal read and the edge route grant 100. *)
Theorem public_read_of_new_account_has_no_rupees :
  fst (serve (mkEnv 7 "" "" []) (GetBalanceByEmail "c@x.com") (initial false))
  = OkBalance (mkUserBalance "c@x.com" None None 0 None [] 7)
  ∧ fst (getUserBalanceByEmailInternal 7 "c@x.com" (mkSt (initial false) []))
    = Val (Some (mkUserBalance "c@x.com" None None 0 (Some 100) [] 7))
  ∧ fst (Edge.serve (mkEnv 7 "" "" []) "c@x.com" (initial false))
    = OkBalance (mkUserBalance "c@x.com" None None 0 (Some 100) [] 7).
Proof. vm_compute. repeat split. Qed.

(** C6, as the code has it. For a purchase that passed the required-fields,
    listing-exists, listing-active and self-trade checks, the rupee balance
    compared with the price is the one the server sees ([rupees_seen]): that
    of the buyer's snapshot in memory when there is one; otherwise that of
    the blob pinned under the buyer's hash when the content store answers;
    and 100 when the snapshot has no numeric [rupeesBalance], when a request
    to the content store fails, or when nothing is found for the buyer.  If
    this balance is below the price, the answer is [InsufficientBalance] and
    no ledger delta is applied (the delta history, the snapshots in memory
    and pinned, the listings and the orders are what they were); otherwise
    the check passes: the answer is the purchase, or the 500 of a failed
    upload, never [InsufficientBalance]. *)
Theorem rupee_check e req w L :
  has_required_fields req →
  find_listing (b_listingId req) (listings w) = Some L →
  l_status L = active →
  l_sellerEmail L ≠ toLowerCase (b_buyerEmail req) →
  let rupees := rupees_seen (toLowerCase (b_buyerEmail req)) w (replies e) in
  let resp := fst (serve e (BuyListing req) w) in
  let w' := snd (serve e (BuyListing req) w) in
  (rupees < l_priceRupees L →
     resp = InsufficientBalance
     ∧ applied w' = applied w
     ∧ inMemoryBalances w' = inMemoryBalances w ∧ ipfs w' = ipfs w
     ∧ listings w' = listings w ∧ orders w' = orders w)
  ∧ (l_priceRupees L ≤ rupees →
     resp ≠ InsufficientBalance ∧ (bought resp ∨ ∃ msg, resp = Err 500 msg)).
Proof.
  intros Hf Hfind Ha Hs rupees resp w'. subst rupees resp w'.
  rewrite serve_buy. simpl fst. simpl snd.
  set (s := mkSt w (replies e)) in *.
  change (rupees_seen (toLowerCase (b_buyerEmail req)) w (replies e))
    with (rupees_seen (toLowerCase (b_buyerEmail req)) (world s) (net s)).
  rewrite <- (buyer_rupees_seen (now e)).
  split; intros Hr.
  - rewrite (buyListing_insufficient _ _ _ _ _ L) by assumption. simpl.
    split; [reflexivity|].
    unfold after_rupee_check.
    destruct (getUserBalanceByEmailInternal_frame (now e) (b_buyerEmail req) s)
      as (bal & s1 & Hget & He & _).
    rewrite Hget. simpl.
    rewrite (frame_applied _ _ He), (frame_inMemoryBalances _ _ He), (frame_ipfs _ _ He),
      (frame_listings _ _ He), (frame_orders _ _ He).
    repeat split.
  - destruct (buyListing_passed (now e) (uuid e) (rand e) req s L Hf Hfind Ha Hs Hr)
      as (r & s' & Hbuy & [_ _ Hres]).
    rewrite Hbuy. simpl. destruct r as [resp|err]; simpl.
    + destruct Hres as ((o & bb & sb & ->) & _). split; [discriminate|].
      left. do 4 eexists. reflexivity.
    + split; [discriminate|]. right. eauto.
Qed.

(** A new account, with its 100 rupees, buys a listing priced 150. *)
Lemma rupee_check_witness :
  fst (serve (demo_env 3) (BuyListing demo_buy) demo_dear_market) = InsufficientBalance
  ∧ applied (snd (serve (demo_env 3) (BuyListing demo_buy) demo_dear_market))
    = applied demo_dear_market.
Proof.
  destruct (rupee_check (demo_env 3) demo_buy demo_dear_market
              (mkListing "id-2" "a@x.com" (Some "uid-a") "0xA" 150 150 active 2 2))
    as [Hlow _].
  - unfold has_required_fields. simpl. repeat split; discriminate.
  - vm_compute. reflexivity.
  - reflexivity.
  - vm_compute. discriminate.
  - destruct Hlow as (Hresp & Happ & _); [vm_compute; reflexivity|].
    split; [exact Hresp | exact Happ].
Defined.

(** C6 fails as stated: the snapshot of [b@x.com], pinned, holds no rupee;
    while the content store does not answer, [b@x.com] buys a listing priced
    50 rupees and is left with 50 rupees in memory. *)
Lemma poor_buyer_buys_when_read_fails :
  (∃ b, ipfs demo_poor_buyer !! "QmB" = Some b
        ∧ known_hash "b@x.com" demo_poor_buyer = Some "QmB"
        ∧ rupeesBalance b = Some 0)
  ∧ (∃ L, find_listing "id-2" (listings demo_poor_buyer) = Some L
          ∧ l_status L = active ∧ l_priceRupees L = 50)
  ∧ fst (serve (demo_env 3) (BuyListing demo_buy) demo_poor_buyer) ≠ InsufficientBalance
  ∧ bought (fst (serve (demo_env 3) (BuyListing demo_buy) demo_poor_buyer))
  ∧ holdings "b@x.com" (snd (serve (demo_env 3) (BuyListing demo_buy) demo_poor_buyer))
    = (20, 50).
Proof.
  split; [eexists; vm_compute; repeat split|].
  split; [eexists; vm_compute; repeat split|].
  split; [vm_compute; discriminate|].
  split; [vm_compute; do 4 eexists; reflexivity | vm_compute; reflexivity].
Qed.

(** C7, as the code has it. [createListing] rejects a request with a
    validation error exactly when [sellerEmail], [sellerWallet] or
    [signature] is empty, [amountTokens] or [priceRupees] is zero, or the
    signature has fewer than 10 UTF-16 code units (the unit of
    [signature.length]; for a signature of ASCII characters, fewer than 10
    characters).  The sign of [amountTokens] and [priceRupees] is not looked
    at. *)
Theorem createListing_validation e req w :
  validation_error (fst (serve e (CreateListing req) w))
  ↔ (cl_sellerEmail req = "" ∨ cl_sellerWallet req = ""
     ∨ cl_amountTokens req = 0 ∨ cl_priceRupees req = 0
     ∨ (js_length (cl_signature req) < 10)%nat).
Proof.
  rewrite serve_route. simpl fst. unfold route. rewrite handle_answer. simpl fst.
  set (s := mkSt w (replies e)).
  destruct (negb (truthy (cl_sellerEmail req)) || negb (truthy (cl_sellerWallet req))
            || negb (truthy_num (cl_amountTokens req))
            || negb (truthy_num (cl_priceRupees req))
            || negb (truthy (cl_signature req))) eqn:Hmiss.
  - unfold createListing. rewrite Hmiss. simpl. split; [intros _|left; reflexivity].
    repeat (apply orb_true_iff in Hmiss; destruct Hmiss as [Hmiss|Hmiss]);
      apply negb_true_iff in Hmiss.
    + left. now apply truthy_false_iff.
    + right; left. now apply truthy_false_iff.
    + right; right; left. now apply truthy_num_false_iff.
    + right; right; right; left. now apply truthy_num_false_iff.
    + right; right; right; right. apply truthy_false_iff in Hmiss. rewrite Hmiss. simpl. lia.
  - destruct (Nat.ltb (js_length (cl_signature req)) 10) eqn:Hsig.
    + unfold createListing. rewrite Hmiss, Hsig. simpl.
      split; [intros _|right; reflexivity].
      apply Nat.ltb_lt in Hsig. tauto.
    + destruct (createListing_validated (now e) (uuid e) req s Hmiss Hsig)
        as (r & s' & Hc & Hr).
      rewrite Hc. simpl.
      repeat (apply orb_false_elim in Hmiss; destruct Hmiss as [Hmiss ?]).
      repeat match goal with H : negb _ = false |- _ => apply negb_false_iff in H end.
      apply Nat.ltb_ge in Hsig.
      split.
      * intros [Hv|Hv]; exfalso;
          destruct Hr as [-> | [(l & ->) | (msg & ->)]]; simpl in Hv; discriminate.
      * intros [Hx|[Hx|[Hx|[Hx|Hx]]]]; exfalso.
        -- apply truthy_false_iff in Hx. congruence.
        -- apply truthy_false_iff in Hx. congruence.
        -- apply truthy_num_false_iff in Hx. congruence.
        -- apply truthy_num_false_iff in Hx. congruence.
        -- lia.
Qed.

(** C7 fails as stated: a listing of -5 tokens for -5 rupees is accepted. *)
Lemma negative_listing_is_accepted :
  cl_amountTokens negative_request < 0 ∧ cl_priceRupees negative_request < 0
  ∧ fst (serve (mkEnv 1 "id-1" "" []) (CreateListing negative_request) (initial false))
    = Created (mkListing "id-1" "a@x.com" None "0xA" (-5) (-5) active 1 1).
Proof. vm_compute. repeat split. Qed.

(** C8, as the code has it. Two reads in a row, with nothing written in
    between, of an account that has a snapshot in memory, or while the
    content store answers every request of the two reads, return the same
    snapshot, unless the server finds nothing for the account (no snapshot
    in memory, no known hash, and no credentials or no pin with a hash under
    the account's name): then, and only then, each read returns the default
    snapshot (0 tokens, 100 rupees, no transactions) stamped with its own
    time, so the two differ in [lastUpdated] alone. *)
Theorem consecutive_reads t1 t2 email s :
  is_Some (inMemoryBalances (world s) !! toLowerCase email) ∨ store_answers s →
  let first := getUserBalanceByEmailInternal t1 email s in
  let second := getUserBalanceByEmailInternal t2 email (snd first) in
  (¬ nothing_found (toLowerCase email) (world s) → fst first = fst second)
  ∧ (nothing_found (toLowerCase email) (world s) →
     fst first = Val (Some (mkUserBalance (toLowerCase email) None None 0 (Some 100) [] t1))
     ∧ fst second
       = Val (Some (mkUserBalance (toLowerCase email) None None 0 (Some 100) [] t2))).
Proof.
  intros H first second. subst first second.
  set (key := toLowerCase email).
  destruct (inMemoryBalances (world s) !! key) as [b|] eqn:Hm.
  { split; [intros _ | intros (Hm' & _); congruence].
    rewrite (read_memory t1 email s b Hm). simpl.
    now rewrite (read_memory t2 email s b Hm). }
  destruct H as [[b Hb]|(c1 & c2 & c3 & rest & Hn)]; [unfold key in Hm; congruence|].
  destruct (known_hash key (world s)) as [h|] eqn:Hk.
  { split; [intros _ | intros (_ & Hk' & _); congruence].
    rewrite (read_known t1 email s h c1 _ Hm Hk Hn). simpl.
    now rewrite (read_known t2 email (mkSt (world s) _) h c2 _ Hm Hk eq_refl). }
  destruct (pinataCreds (world s)) eqn:Hc.
  2:{ split; [intros Hno; exfalso; apply Hno; repeat split; auto | intros _].
      assert (∀ t s0, world s0 = world s →
                fst (getUserBalanceByEmailInternal t email s0)
                = Val (Some (mkUserBalance key None None 0 (Some 100) [] t))
                ∧ world (snd (getUserBalanceByEmailInternal t email s0)) = world s) as Hd.
      { intros t s0 E. unfold getUserBalanceByEmailInternal. fold key.
        rewrite bind_gets, E, Hm, bind_gets, E, Hk. cbv iota.
        run_monad. rewrite E, Hc. simpl. auto. }
      destruct (Hd t1 s eq_refl) as [-> E1]. split; [reflexivity|].
      now destruct (Hd t2 _ E1) as [-> _]. }
  destruct (pinList (world s) !! balance_name key) as [h|] eqn:Hp.
  - destruct (truthy h) eqn:Ht.
    + split.
      2:{ intros (_ & _ & [Hf|Hf]); [congruence|]. specialize (Hf h Hp). congruence. }
      intros _.
      assert (getUserBalanceByEmailInternal t1 email s
              = (Val (coerce_rupees <$> ipfs (world s) !! h),
                 mkSt (set_emailToIpfsMap (<[key := h]>) (world s))
                      (NetOk c3 :: rest))) as E1.
      { unfold getUserBalanceByEmailInternal, searchPinata. fold key.
        rewrite bind_gets, Hm, bind_gets, Hk. cbv iota.
        run_monad. rewrite Hc, Hn. simpl.
        rewrite Hp, Ht. simpl. destruct (ipfs (world s) !! h); reflexivity. }
      rewrite E1. simpl.
      rewrite (read_known t2 email _ h c3 rest); [reflexivity| exact Hm | | reflexivity].
      now apply known_hash_insert.
    + split.
      { intros Hno; exfalso; apply Hno; repeat split; auto.
        right. intros h' Hh'. rewrite Hp in Hh'. injection Hh' as <-. exact Ht. }
      intros _.
      assert (∀ t c tl, getUserBalanceByEmailInternal t email (mkSt (world s) (NetOk c :: tl))
                        = (Val (Some (mkUserBalance key None None 0 (Some 100) [] t)),
                           mkSt (world s) tl)) as Hd.
      { intros t c tl. unfold getUserBalanceByEmailInternal, searchPinata. fold key.
        rewrite bind_gets. cbn [world]. rewrite Hm, bind_gets. cbn [world]. rewrite Hk.
        cbv iota. run_monad. rewrite Hc. simpl. rewrite Hp, Ht. reflexivity. }
      destruct s as [ws ns]. simpl in Hn. subst ns. simpl in *.
      rewrite (Hd t1 c1). simpl. rewrite (Hd t2 c2). auto.
  - split.
    { intros Hno; exfalso; apply Hno; repeat split; auto.
      right. intros h' Hh'. rewrite Hp in Hh'. discriminate Hh'. }
    intros _.
    assert (∀ t c tl, getUserBalanceByEmailInternal t email (mkSt (world s) (NetOk c :: tl))
                      = (Val (Some (mkUserBalance key None None 0 (Some 100) [] t)),
                         mkSt (world s) tl)) as Hd.
    { intros t c tl. unfold getUserBalanceByEmailInternal, searchPinata. fold key.
      rewrite bind_gets. cbn [world]. rewrite Hm, bind_gets. cbn [world]. rewrite Hk.
      cbv iota. run_monad. rewrite Hc. simpl. rewrite Hp. reflexivity. }
    destruct s as [ws ns]. simpl in Hn. subst ns. simpl in *.
    rewrite (Hd t1 c1). simpl. rewrite (Hd t2 c2). auto.
Qed.

(** On the sample market: two reads of the seller, held in memory. *)
Lemma consecutive_reads_witness :
  fst (getUserBalanceByEmailInternal 5 "A@x.com" (mkSt demo_sold []))
  = fst (getUserBalanceByEmailInternal 6 "A@x.com"
           (snd (getUserBalanceByEmailInternal 5 "A@x.com" (mkSt demo_sold [])))).
Proof.
  destruct (consecutive_reads 5 6 "A@x.com" (mkSt demo_sold [])) as [H _].
  - left. vm_compute. eexists. reflexivity.
  - apply H. intros (Hm & _). vm_compute in Hm. discriminate Hm.
Defined.

(** C8 fails as stated: two reads of an account without history, one
    millisecond apart, differ. *)
Lemma reads_of_new_account_differ :
  fst (getUserBalanceByEmailInternal 1 "c@x.com" (mkSt (initial false) []))
  ≠ fst (getUserBalanceByEmailInternal 2 "c@x.com"
           (snd (getUserBalanceByEmailInternal 1 "c@x.com" (mkSt (initial false) [])))).
Proof. vm_compute. discriminate. Qed.

(** C9, as the code has it. A delta application that loads the snapshot of
    the account keeps the [userId] and the [walletAddress] that snapshot
    has, whatever the call passes for them, [undefined] or another value:
    so it is when the snapshot is in memory, and when it is pinned under the
    account's known hash and the content store answers.  But when the read
    of the content store fails, the application starts from a new snapshot:
    what it writes carries the [userId] and the [walletAddress] of the call,
    whatever the pinned snapshot has, and a single record.  This holds for
    [storeUserBalanceInternal], whose snapshot ends up in memory or pinned
    (an application whose upload throws writes nothing), and for the public
    grant route [storeUserBalance], which keeps the metadata of the snapshot
    it loads as they are and takes the call's after a failed read. *)
Theorem metadata_first_write_wins t rand args req s :
  let key := toLowerCase (a_userEmail args) in
  match storeUserBalanceInternal t rand args s with
  | (Val written, s') =>
      stored key written (world s')
      ∧ (∃ ex, snapshot_source t key (world s) ex
               ∧ match ex with
                 | Some loaded => keeps_metadata loaded written
                 | None => userId written = a_userId args
                           ∧ walletAddress written = a_walletAddress args
                 end)
      ∧ (∀ m, inMemoryBalances (world s) !! key = Some m → keeps_metadata m written)
      ∧ (∀ h c rest b,
           inMemoryBalances (world s) !! key = None →
           known_hash key (world s) = Some h →
           net s = NetOk c :: rest →
           ipfs (world s) !! h = Some b →
           keeps_metadata b written)
      ∧ (∀ h,
           inMemoryBalances (world s) !! key = None →
           known_hash key (world s) = Some h →
           read_fails (net s) →
           userId written = a_userId args
           ∧ walletAddress written = a_walletAddress args
           ∧ length (transactions written) = 1%nat)
  | (Throw _, s') =>
      inMemoryBalances (world s') = inMemoryBalances (world s)
      ∧ ipfs (world s') = ipfs (world s)
  end
  ∧ ∀ cid bal url note s',
      storeUserBalance t rand req s = (Val (OkStored cid bal url note), s') →
      let key := toLowerCase (sr_userEmail req) in
      ∃ written,
        stored key written (world s')
        ∧ (∀ m, known_hash key (world s) = None →
                inMemoryBalances (world s) !! key = Some m →
                userId written = userId m ∧ walletAddress written = walletAddress m)
        ∧ (∀ h c rest b,
             known_hash key (world s) = Some h →
             net s = NetOk c :: rest →
             ipfs (world s) !! h = Some b →
             userId written = userId b ∧ walletAddress written = walletAddress b)
        ∧ (∀ h, known_hash key (world s) = Some h →
                read_fails (net s) →
                userId written = sr_userId req
                ∧ walletAddress written = sr_walletAddress req
                ∧ length (transactions written) = 1%nat).
Proof.
  intros key. split.
  - destruct (storeUserBalanceInternal_cases t rand args s)
      as (ex & s0 & r & s' & Hget & He & Hsrc & Hst & Hend).
    fold key in Hget, Hsrc, Hend. rewrite Hst. destruct r as [written|e].
    2:{ apply store_end_failed in Hend. rewrite Hend.
        split; [apply (frame_inMemoryBalances _ _ He) | apply (frame_ipfs _ _ He)]. }
    apply store_end_stored in Hend as [-> Hstored]. split; [exact Hstored|].
    assert (toLowerCase key = key) as Hkey by apply toLowerCase_idem.
    rewrite Hkey in Hsrc.
    split.
    { exists ex. split; [exact Hsrc|]. destruct ex as [loaded|].
      - apply newBal_keeps_metadata.
      - destruct (newBal_fresh t rand args) as (Hu & Hw & _). split; assumption. }
    split.
    { intros m Hm. rewrite <- Hkey in Hm.
      rewrite (read_memory t key s m Hm) in Hget. injection Hget as <- _.
      apply newBal_keeps_metadata. }
    split.
    { intros h c rest b Hm Hk Hn Hb. rewrite <- Hkey in Hm, Hk.
      rewrite (read_known t key s h c rest Hm Hk Hn), Hb in Hget.
      injection Hget as <- _.
      destruct (newBal_keeps_metadata t rand args (coerce_rupees b)) as [Hu Hw].
      destruct (coerce_rupees_metadata b) as [Eu Ew]. rewrite Eu in Hu. rewrite Ew in Hw.
      split; assumption. }
    intros h Hm Hk Hn. rewrite <- Hkey in Hm, Hk.
    destruct (read_known_fails t key s h Hm Hk Hn) as (s1 & Hread & _).
    rewrite Hread in Hget. injection Hget as <- _.
    apply newBal_fresh.
  - intros cid bal url note s' Hrun key'.
    destruct (storeUserBalance_writes t rand req s cid bal url note s' Hrun) as [Hstored _].
    fold key' in Hstored.
    eexists. split; [exact Hstored|].
    unfold loaded_by_grant.
    split; [intros m Hk Hm; rewrite Hk, Hm; split; reflexivity|].
    split; [intros h c rest b Hk Hn Hb; rewrite Hk, Hn, Hb; split; reflexivity|].
    intros h Hk Hn. rewrite Hk.
    destruct (net s) as [|[| |c] rest]; try contradiction; repeat split.
Qed.

(** On the sample market: a delta for the seller that passes another
    [userId] and no [walletAddress]. *)
Lemma metadata_first_write_wins_witness :
  match storeUserBalanceInternal 4 "r4nd0m"
          (mkStoreArgs "A@x.com" (Some "uid-other") None 1 "note" "ticket-2" None)
          (mkSt demo_market []) with
  | (Val written, _) => userId written = Some "uid-a" ∧ walletAddress written = Some "0xA"
  | (Throw _, _) => False
  end.
Proof.
  pose proof (metadata_first_write_wins 4 "r4nd0m"
                (mkStoreArgs "A@x.com" (Some "uid-other") None 1 "note" "ticket-2" None)
                demo_grant (mkSt demo_market [])) as H.
  cbv zeta in H. destruct H as [H _].
  destruct (storeUserBalanceInternal 4 "r4nd0m" _ _) as [[written|e] s'] eqn:E.
  - destruct H as (_ & _ & Hmem & _).
    destruct (Hmem (mkUserBalance "a@x.com" (Some "uid-a") (Some "0xA") 50 (Some 100)
                      [mkTransaction "tx_1_r4nd0m" 50 "0xsignature-admin" 1 "ticket-1"
                                     (Some "0xA") "a@x.com" None] 1)) as [Hu Hw];
      [vm_compute; reflexivity|].
    split; [apply Hu | apply Hw]; eexists; reflexivity.
  - vm_compute in E. discriminate E.
Defined.

(** C9 fails as stated: the pinned snapshot of [old@x.com] has the [userId]
    [uid-o] and one record; a delta application whose read of the content
    store fails, and whose upload succeeds, pins for the account a snapshot
    with the [userId] of the call and that record gone. *)
Lemma failed_read_overwrites_metadata :
  (∃ b, known_hash "old@x.com" old_world = Some "QmOld"
        ∧ ipfs old_world !! "QmOld" = Some b ∧ userId b = Some "uid-o")
  ∧ match storeUserBalanceInternal 4 "r4nd0m"
            (mkStoreArgs "old@x.com" (Some "uid-x") None 1 "note" "ticket-2" None)
            (mkSt old_world [NetFail; NetOk "QmNew"]) with
    | (Val written, s') =>
        known_hash "old@x.com" (world s') = Some "QmNew"
        ∧ ipfs (world s') !! "QmNew" = Some written
        ∧ userId written = Some "uid-x"
        ∧ map tx_amount (transactions written) = [1]
    | (Throw _, _) => False
    end.
Proof. split; [eexists|]; vm_compute; repeat split. Qed.

(** C10. The public Express read route returns a fetched blob that lacks
    [rupeesBalance] as it is, without the coercion to 100 that the internal
    read and the edge route apply to the same blob. *)
Theorem public_read_does_not_coerce :
  fst (serve (mkEnv 9 "" "" [NetOk ""]) (GetBalanceByEmail "old@x.com") old_world)
  = OkBalance old_blob
  ∧ rupeesBalance old_blob = None
  ∧ fst (getUserBalanceByEmailInternal 9 "old@x.com" (mkSt old_world [NetOk ""]))
    = Val (Some (coerce_rupees old_blob))
  ∧ fst (Edge.serve (mkEnv 9 "" "" [NetOk ""]) "old@x.com" old_world)
    = OkBalance (coerce_rupees old_blob)
  ∧ rupeesBalance (coerce_rupees old_blob) = Some 100.
Proof. vm_compute. repeat split. Qed.

(** * Further properties of the ledger and the marketplace *)

(** ** A server without credentials *)

Lemma known_hash_memory_mode key w : memory_mode w → known_hash key w = None.
Proof. intros [_ Hm]. unfold known_hash. now rewrite Hm, lookup_empty. Qed.

Lemma read_memory_mode t email s :
  memory_mode (world s) →
  getUserBalanceByEmailInternal t email s
  = (Val (Some (default (default_balance (toLowerCase email) t)
                        (inMemoryBalances (world s) !! toLowerCase email))), s).
Proof.
  intros Hm. unfold getUserBalanceByEmailInternal. rewrite bind_gets.
  destruct (inMemoryBalances (world s) !! toLowerCase email) as [b|]; [reflexivity|].
  rewrite bind_gets, (known_hash_memory_mode _ _ Hm). cbv iota.
  destruct Hm as [Hc _]. run_monad. now rewrite Hc.
Qed.

Lemma holdings_snapshot key t w :
  holdings key w
  = (let b := default (default_balance key t) (inMemoryBalances w !! key) in
     (or_zero (totalBalance b), nullish (rupeesBalance b) 100)).
Proof.
  unfold holdings. destruct (inMemoryBalances w !! key); simpl;
    now rewrite ?or_zero_id.
Qed.

(** [storeUserBalanceInternal] on such a server: it cannot fail, asks nothing
    of the network and puts its snapshot in memory. *)
Lemma store_memory_mode t rand args s :
  memory_mode (world s) →
  let key := toLowerCase (a_userEmail args) in
  let nb := newBal t rand args
              (Some (default (default_balance key t) (inMemoryBalances (world s) !! key))) in
  storeUserBalanceInternal t rand args s
  = (Val nb,
     mkSt (log_delta (mkDelta key (a_amount args) (nullish (a_deltaRupees args) 0))
                     (set_inMemoryBalances (<[key := nb]>) (world s)))
          (net s)).
Proof.
  intros Hm key nb. subst key nb. unfold storeUserBalanceInternal.
  rewrite (bind_val _ _ _ _ _ (read_memory_mode t (toLowerCase (a_userEmail args)) s Hm)).
  rewrite toLowerCase_idem.
  destruct Hm as [Hc Hi]. rewrite bind_gets, Hc. cbv iota.
  reflexivity.
Qed.

(** What [updateUserBalanceByEmail] does on such a server: it cannot fail,
    asks nothing of the network, and moves the holdings of the one account
    by the two deltas. *)
Lemma update_memory_mode t rand email dt dr reason lid cp s :
  memory_mode (world s) →
  ∃ w',
    updateUserBalanceByEmail t rand email dt dr reason lid cp s
    = (Val (js_add (fst (holdings (toLowerCase email) (world s))) dt,
            js_add (snd (holdings (toLowerCase email) (world s))) dr), mkSt w' (net s))
    ∧ memory_mode w'
    ∧ holdings (toLowerCase email) w'
      = (js_add (fst (holdings (toLowerCase email) (world s))) dt,
         js_add (snd (holdings (toLowerCase email) (world s))) dr)
    ∧ (∀ k, k ≠ toLowerCase email →
            inMemoryBalances w' !! k = inMemoryBalances (world s) !! k)
    ∧ listings w' = listings (world s)
    ∧ orders w' = orders (world s)
    ∧ listingsCid w' = listingsCid (world s)
    ∧ ordersCid w' = ordersCid (world s)
    ∧ ipfs w' = ipfs (world s)
    ∧ applied w' = (applied (world s) ++ [mkDelta (toLowerCase email) dt dr])%list.
Proof.
  intros Hm. unfold updateUserBalanceByEmail.
  rewrite (bind_val _ _ _ _ _ (read_memory_mode t email s Hm)).
  match goal with
  | |- context [storeUserBalanceInternal t rand ?a] =>
      rewrite (bind_val _ _ _ _ _ (store_memory_mode t rand a s Hm))
  end.
  cbn [a_userEmail a_amount a_deltaRupees nullish].
  set (key := toLowerCase email).
  set (cur := default (default_balance key t) (inMemoryBalances (world s) !! key)).
  rewrite (holdings_snapshot key t). fold cur. cbn [fst snd].
  unfold ret. eexists. split; [reflexivity|].
  destruct Hm as [Hc Hi].
  split; [split; [exact Hc | exact Hi]|].
  split.
  { unfold holdings. cbn [inMemoryBalances log_delta set_inMemoryBalances].
    rewrite lookup_insert_eq. reflexivity. }
  split.
  { intros k Hk. cbn [inMemoryBalances log_delta set_inMemoryBalances].
    now rewrite lookup_insert_ne. }
  repeat split.
Qed.

Lemma pinJSON_memory_mode s : memory_mode (world s) → pinJSON s = (Val None, s).
Proof. intros [Hc _]. unfold pinJSON. rewrite bind_gets, Hc. reflexivity. Qed.

Lemma saveListings_memory_mode s : memory_mode (world s) → saveListings s = (Val tt, s).
Proof.
  intros Hm. unfold saveListings.
  now rewrite (bind_val _ _ _ _ _ (pinJSON_memory_mode s Hm)).
Qed.

Lemma saveOrders_memory_mode s : memory_mode (world s) → saveOrders s = (Val tt, s).
Proof.
  intros Hm. unfold saveOrders.
  now rewrite (bind_val _ _ _ _ _ (pinJSON_memory_mode s Hm)).
Qed.


(** ** What a purchase records *)

Lemma find_listing_id listingId ls L :
  find_listing listingId ls = Some L → l_id L = listingId.
Proof.
  unfold find_listing. intros H. apply find_some in H as [_ H].
  now apply String.eqb_eq in H.
Qed.

Lemma find_listing_mark_sold listingId t ls L :
  find_listing listingId ls = Some L →
  find_listing listingId (mark_sold listingId t ls) = Some (sell t L).
Proof.
  unfold find_listing. induction ls as [|l ls IH]; simpl; [discriminate|].
  destruct (String.eqb (l_id l) listingId) eqn:E.
  - intros [= ->]. simpl. now rewrite E.
  - intros H. simpl. rewrite E. auto.
Qed.

(** A purchase that passed every check and returned has recorded one order
    in front of the others. *)
Lemma buyListing_passed_order t uuid rand req s L :
  has_required_fields req →
  find_listing (b_listingId req) (listings (world s)) = Some L →
  l_status L = active →
  l_sellerEmail L ≠ toLowerCase (b_buyerEmail req) →
  l_priceRupees L ≤ buyer_rupees t (b_buyerEmail req) s →
  ∃ r s', buyListing t uuid rand req s = (r, s')
          ∧ match r with
            | Val resp =>
                (∃ bb sb, resp = OkBought (sell t L) (order_of t uuid req L) bb sb)
                ∧ orders (world s') = order_of t uuid req L :: orders (world s)
            | Throw _ => True
            end.
Proof.
  intros Hf Hfind Ha Hs Hr. unfold buyListing.
  rewrite (required_fields_check _ Hf), bind_gets, Hfind.
  rewrite bool_decide_eq_true_2 by exact Ha. simpl.
  apply String.eqb_neq in Hs. rewrite Hs.
  unfold buyer_rupees in Hr.
  destruct (getUserBalanceByEmailInternal_frame t (b_buyerEmail req) s)
    as (bal & s1 & Hget & He1 & _).
  rewrite Hget in Hr. rewrite (bind_val _ _ _ _ _ Hget).
  apply Z.ltb_ge in Hr. rewrite Hr.
  destruct (updateUserBalanceByEmail_frame t rand (b_buyerEmail req)
              (l_amountTokens L) (- l_priceRupees L) "market_buy" (l_id L)
              (l_sellerEmail L) s1) as (r2 & s2 & Hu2 & F2).
  apply (delta_frame_erase _ _ _ _ _ He1) in F2.
  destruct r2 as [bb|e];
    [rewrite (bind_val _ _ _ _ _ Hu2) | rewrite (bind_throw _ _ _ _ _ Hu2); do 2 eexists; split; [reflexivity | exact I]].
  destruct (updateUserBalanceByEmail_frame t rand (l_sellerEmail L)
              (- l_amountTokens L) (l_priceRupees L) "market_sell" (l_id L)
              (b_buyerEmail req) s2) as (r3 & s3 & Hu3 & F3).
  assert (orders (world s3) = orders (world s)) as Ho3
    by (destruct F2, F3; congruence).
  destruct r3 as [sb|e];
    [rewrite (bind_val _ _ _ _ _ Hu3) | rewrite (bind_throw _ _ _ _ _ Hu3); do 2 eexists; split; [reflexivity | exact I]].
  rewrite bind_modify.
  match goal with
  | |- ∃ r s', bind saveListings _ ?st = _ ∧ _ =>
      destruct (saveListings_frame st) as (r5 & s5 & Hs5 & He5)
  end.
  destruct r5 as [[]|e];
    [rewrite (bind_val _ _ _ _ _ Hs5) | rewrite (bind_throw _ _ _ _ _ Hs5); do 2 eexists; split; [reflexivity | exact I]].
  rewrite bind_modify.
  match goal with
  | |- ∃ r s', bind saveOrders _ ?st = _ ∧ _ =>
      destruct (saveOrders_frame st) as (r7 & s7 & Hs7 & He7)
  end.
  destruct r7 as [[]|e];
    [rewrite (bind_val _ _ _ _ _ Hs7) | rewrite (bind_throw _ _ _ _ _ Hs7); do 2 eexists; split; [reflexivity | exact I]].
  unfold ret. do 2 eexists. split; [reflexivity|].
  split; [eauto|].
  rewrite (cframe_orders _ _ He7). simpl.
  rewrite (cframe_orders _ _ He5). simpl. now rewrite Ho3.
Qed.

(** X1. A purchase that answers success was made on an active listing; it
    answers that listing marked [sold] and stamped with the time of the
    purchase, has marked it so in the collection (where a later look-up by
    id finds it sold), and has recorded exactly one new order, in front of
    the others, for the listing's tokens and price, with the buyer's
    lower-cased email and status [completed]. *)
Theorem buy_marks_sold_and_records_order e req w resp w' :
  serve e (BuyListing req) w = (resp, w') →
  bought resp →
  ∃ L bb sb,
    find_listing (b_listingId req) (listings w) = Some L
    ∧ l_status L = active
    ∧ resp = OkBought (sell (now e) L) (order_of (now e) (uuid e) req L) bb sb
    ∧ listings w' = mark_sold (l_id L) (now e) (listings w)
    ∧ find_listing (b_listingId req) (listings w') = Some (sell (now e) L)
    ∧ orders w' = order_of (now e) (uuid e) req L :: orders w.
Proof.
  rewrite serve_buy. intros Hserve Hok.
  set (s := mkSt w (replies e)) in *.
  injection Hserve as Hresp Hw'.
  destruct (buy_check_total (now e) req s) as [Hf|Hf Hn|L Hf Hfind Ha|L Hf Hfind Ha Hs
                                              |L Hf Hfind Ha Hs Hr|L Hf Hfind Ha Hs Hr].
  - rewrite buyListing_missing in Hresp by exact Hf.
    destruct Hok as (? & ? & ? & ? & ->). discriminate.
  - rewrite buyListing_not_found in Hresp by assumption.
    destruct Hok as (? & ? & ? & ? & ->). discriminate.
  - rewrite (buyListing_unavailable _ _ _ _ _ L) in Hresp by assumption.
    destruct Hok as (? & ? & ? & ? & ->). discriminate.
  - rewrite (buyListing_self_trade _ _ _ _ _ L) in Hresp by assumption.
    destruct Hok as (? & ? & ? & ? & ->). discriminate.
  - rewrite (buyListing_insufficient _ _ _ _ _ L) in Hresp by assumption.
    destruct Hok as (? & ? & ? & ? & ->). discriminate.
  - destruct (buyListing_passed (now e) (uuid e) (rand e) req s L Hf Hfind Ha Hs Hr)
      as (r & s' & Hbuy & Hset).
    destruct (buyListing_passed_order (now e) (uuid e) (rand e) req s L Hf Hfind Ha Hs Hr)
      as (r' & s'' & Hbuy' & Hord).
    rewrite Hbuy in Hbuy'. injection Hbuy' as <- <-.
    rewrite Hbuy in Hresp, Hw'. simpl in Hresp, Hw'. subst w'.
    destruct r as [resp0|err].
    + destruct (bs_result _ _ _ _ _ _ Hset) as (_ & _ & Hls).
      destruct Hord as ((bb & sb & ->) & Hord). simpl in Hresp. subst resp.
      exists L, bb, sb. repeat split; try assumption.
      rewrite Hls. rewrite (find_listing_id _ _ _ Hfind).
      now apply find_listing_mark_sold.
    + simpl in Hresp. destruct Hok as (? & ? & ? & ? & ->). discriminate.
Qed.

(** On the sample market. *)
Lemma buy_marks_sold_and_records_order_witness :
  ∃ L bb sb,
    find_listing "id-2" (listings demo_market) = Some L
    ∧ l_status L = active
    ∧ fst (serve (demo_env 3) (BuyListing demo_buy) demo_market)
      = OkBought (sell 3 L) (order_of 3 "id-3" demo_buy L) bb sb
    ∧ listings demo_sold = mark_sold (l_id L) 3 (listings demo_market)
    ∧ find_listing "id-2" (listings demo_sold) = Some (sell 3 L)
    ∧ orders demo_sold = order_of 3 "id-3" demo_buy L :: orders demo_market.
Proof.
  apply (buy_marks_sold_and_records_order (demo_env 3) demo_buy demo_market
           (fst (serve (demo_env 3) (BuyListing demo_buy) demo_market)) demo_sold).
  - apply surjective_pairing.
  - vm_compute. do 4 eexists. reflexivity.
Defined.

(** X2. A purchase turned away with a 4xx answer (missing fields, unknown,
    unavailable or own listing, too few rupees) has changed no balance
    snapshot, no listing, no order and applied no delta. *)
Theorem buy_rejection_changes_nothing e req w code msg w' :
  serve e (BuyListing req) w = (Err code msg, w') →
  code ≠ 500 →
  applied w' = applied w
  ∧ inMemoryBalances w' = inMemoryBalances w ∧ ipfs w' = ipfs w
  ∧ listings w' = listings w ∧ orders w' = orders w
  ∧ userIdToEmail w' = userIdToEmail w.
Proof.
  rewrite serve_buy. intros Hserve Hcode.
  set (s := mkSt w (replies e)) in *.
  injection Hserve as Hresp Hw'.
  destruct (buy_check_total (now e) req s) as [Hf|Hf Hn|L Hf Hfind Ha|L Hf Hfind Ha Hs
                                              |L Hf Hfind Ha Hs Hr|L Hf Hfind Ha Hs Hr].
  - rewrite buyListing_missing in Hw' by exact Hf. subst w'. repeat split.
  - rewrite buyListing_not_found in Hw' by assumption. subst w'. repeat split.
  - rewrite (buyListing_unavailable _ _ _ _ _ L) in Hw' by assumption.
    subst w'. repeat split.
  - rewrite (buyListing_self_trade _ _ _ _ _ L) in Hw' by assumption.
    subst w'. repeat split.
  - rewrite (buyListing_insufficient _ _ _ _ _ L) in Hw' by assumption.
    subst w'. unfold after_rupee_check. simpl.
    destruct (getUserBalanceByEmailInternal_frame (now e) (b_buyerEmail req) s)
      as (bal & s1 & Hget & He & _).
    rewrite Hget. simpl.
    rewrite (frame_applied _ _ He), (frame_inMemoryBalances _ _ He), (frame_ipfs _ _ He),
      (frame_listings _ _ He), (frame_orders _ _ He), (frame_userIdToEmail _ _ He).
    repeat split.
  - exfalso.
    destruct (buyListing_passed (now e) (uuid e) (rand e) req s L Hf Hfind Ha Hs Hr)
      as (r & s' & Hbuy & [_ _ Hres]).
    rewrite Hbuy in Hresp. destruct r as [resp0|err]; simpl in Hresp.
    + destruct Hres as ((o & bb & sb & ->) & _). discriminate.
    + injection Hresp as <- _. contradiction.
Qed.

(** The buyer of the sample run cannot pay the dearer listing. *)
Lemma buy_rejection_changes_nothing_witness :
  applied (snd (serve (demo_env 3) (BuyListing demo_buy) demo_dear_market))
  = applied demo_dear_market
  ∧ inMemoryBalances (snd (serve (demo_env 3) (BuyListing demo_buy) demo_dear_market))
    = inMemoryBalances demo_dear_market.
Proof.
  destruct (buy_rejection_changes_nothing (demo_env 3) demo_buy demo_dear_market
              400 "Insufficient rupees balance"
              (snd (serve (demo_env 3) (BuyListing demo_buy) demo_dear_market)))
    as (Ha & Hm & _).
  - vm_compute. reflexivity.
  - discriminate.
  - split; [exact Ha | exact Hm].
Defined.


(** ** Settlement on a server without credentials *)

Lemma buyer_rupees_memory_mode t email s :
  memory_mode (world s) →
  buyer_rupees t email s = snd (holdings (toLowerCase email) (world s)).
Proof.
  intros Hm. unfold buyer_rupees. rewrite (read_memory_mode t email s Hm).
  rewrite (holdings_snapshot _ t). reflexivity.
Qed.

(** X3. On a server without Pinata credentials, a purchase of an active
    listing by another account that holds at least the price in rupees
    always succeeds.  When the four new holdings are safe integers (between
    -(2^53 - 1) and 2^53 - 1, where the sums of doubles the code computes
    are exact), the buyer's holdings move by [+amountTokens] tokens and
    [-priceRupees] rupees, the seller's by [-amountTokens] and
    [+priceRupees] (so tokens and rupees are conserved between the two), the
    answer carries the two new holdings, and no other account changes.  The
    seller's tokens are not checked: they may go below zero. *)
Theorem buy_settles_in_memory e req w L :
  memory_mode w →
  has_required_fields req →
  find_listing (b_listingId req) (listings w) = Some L →
  l_status L = active →
  toLowerCase (l_sellerEmail L) = l_sellerEmail L →
  l_sellerEmail L ≠ toLowerCase (b_buyerEmail req) →
  l_priceRupees L ≤ snd (holdings (toLowerCase (b_buyerEmail req)) w) →
  safe_integer (fst (holdings (toLowerCase (b_buyerEmail req)) w) + l_amountTokens L) = true →
  safe_integer (snd (holdings (toLowerCase (b_buyerEmail req)) w) - l_priceRupees L) = true →
  safe_integer (fst (holdings (l_sellerEmail L) w) - l_amountTokens L) = true →
  safe_integer (snd (holdings (l_sellerEmail L) w) + l_priceRupees L) = true →
  let buyer := toLowerCase (b_buyerEmail req) in
  let seller := l_sellerEmail L in
  let resp := fst (serve e (BuyListing req) w) in
  let w' := snd (serve e (BuyListing req) w) in
  resp = OkBought (sell (now e) L) (order_of (now e) (uuid e) req L)
                  (holdings buyer w') (holdings seller w')
  ∧ holdings buyer w'
    = (fst (holdings buyer w) + l_amountTokens L, snd (holdings buyer w) - l_priceRupees L)
  ∧ holdings seller w'
    = (fst (holdings seller w) - l_amountTokens L, snd (holdings seller w) + l_priceRupees L)
  ∧ (∀ k, k ≠ buyer → k ≠ seller → inMemoryBalances w' !! k = inMemoryBalances w !! k)
  ∧ memory_mode w'.
Proof.
  intros Hm Hf Hfind Ha Hnorm Hs Hr Hbt Hbr Hst Hsr buyer seller resp w'. subst resp w'.
  rewrite serve_buy. cbn [fst snd].
  set (s := mkSt w (replies e)).
  assert (memory_mode (world s)) as Hms by exact Hm.
  change w with (world s) in Hfind, Hr, Hbt, Hbr, Hst, Hsr |- *.
  fold buyer in Hr, Hbt, Hbr. fold seller in Hst, Hsr.
  unfold buyListing.
  rewrite (required_fields_check _ Hf), bind_gets, Hfind.
  rewrite bool_decide_eq_true_2 by exact Ha. cbn [negb].
  pose proof Hs as Hs'. apply String.eqb_neq in Hs'. rewrite Hs'.
  rewrite (bind_val _ _ _ _ _ (read_memory_mode (now e) (b_buyerEmail req) s Hms)).
  fold buyer.
  match goal with
  | |- context [if ?c then ret (Err 400 "Insufficient rupees balance") else _] =>
      replace c with false
  end.
  2:{ symmetry. apply Z.ltb_ge.
      pose proof (holdings_snapshot buyer (now e) (world s)) as Hh.
      cbv zeta in Hh. rewrite Hh in Hr. exact Hr. }
  destruct (update_memory_mode (now e) (rand e) (b_buyerEmail req)
              (l_amountTokens L) (- l_priceRupees L) "market_buy" (l_id L)
              (l_sellerEmail L) s Hms)
    as (w2 & Hu2 & Hm2 & Hb2 & Ho2 & Hl2 & Hor2 & _ & _ & _ & _).
  rewrite (bind_val _ _ _ _ _ Hu2). fold buyer in Hb2, Ho2.
  destruct (update_memory_mode (now e) (rand e) (l_sellerEmail L)
              (- l_amountTokens L) (l_priceRupees L) "market_sell" (l_id L)
              (b_buyerEmail req) (mkSt w2 (net s)) Hm2)
    as (w3 & Hu3 & Hm3 & Hb3 & Ho3 & Hl3 & Hor3 & _ & _ & _ & _).
  rewrite (bind_val _ _ _ _ _ Hu3).
  cbn [world net] in Hb3, Ho3, Hl3, Hor3. rewrite Hnorm in Hb3, Ho3. fold seller in Hb3, Ho3.
  assert (seller ≠ buyer) as Hsb by exact Hs.
  assert (holdings seller w2 = holdings seller (world s)) as Hsame
    by (unfold holdings; now rewrite (Ho2 seller Hsb)).
  assert (holdings buyer w3 = holdings buyer w2) as Hsame'
    by (unfold holdings; rewrite (Ho3 buyer); [reflexivity | congruence]).
  rewrite bind_modify. cbn [world net].
  set (w4 := set_listings (mark_sold (l_id L) (now e)) w3).
  assert (memory_mode w4) as Hm4 by (destruct Hm3; split; assumption).
  rewrite (bind_val _ _ _ _ _ (saveListings_memory_mode (mkSt w4 (net s)) Hm4)).
  rewrite bind_modify. cbn [world net].
  match goal with
  | |- context [bind saveOrders _ (mkSt ?w5 _)] =>
      assert (memory_mode w5) as Hm5 by (destruct Hm4; split; assumption);
      rewrite (bind_val _ _ _ _ _ (saveOrders_memory_mode (mkSt w5 (net s)) Hm5))
  end.
  unfold ret. cbn [fst snd answer world].
  assert (∀ k, holdings k (set_orders (cons (order_of (now e) (uuid e) req L)) w4)
               = holdings k w3) as Hh by reflexivity.
  rewrite !Hh, Hsame', Hb2, Hb3, Hsame. cbn [world].
  rewrite (js_add_exact _ _ Hbt), (js_add_exact _ (- l_priceRupees L) Hbr),
    (js_add_exact _ (- l_amountTokens L) Hst), (js_add_exact _ _ Hsr).
  split.
  { rewrite ?Hnorm. fold seller. rewrite Hsame. fold buyer.
    rewrite (js_add_exact _ _ Hbt), (js_add_exact _ (- l_priceRupees L) Hbr),
      (js_add_exact _ (- l_amountTokens L) Hst), (js_add_exact _ _ Hsr).
    reflexivity. }
  split; [f_equal; lia|].
  split; [f_equal; lia|].
  split; [|exact Hm5].
  intros k Hkb Hks. cbn [inMemoryBalances set_orders set_listings w4].
  change (inMemoryBalances (set_orders (cons (order_of (now e) (uuid e) req L)) w4) !! k)
    with (inMemoryBalances w3 !! k).
  rewrite (Ho3 k Hks), (Ho2 k Hkb). reflexivity.
Qed.

(** On the sample market: [b@x.com] ends with 20 tokens and 80 rupees,
    [a@x.com] with 30 tokens and 120 rupees. *)
Lemma buy_settles_in_memory_witness :
  holdings "b@x.com" demo_sold = (20, 80) ∧ holdings "a@x.com" demo_sold = (30, 120).
Proof.
  destruct (buy_settles_in_memory (demo_env 3) demo_buy demo_market
              (mkListing "id-2" "a@x.com" (Some "uid-a") "0xA" 20 20 active 2 2))
    as (_ & Hb & Hs & _).
  - split; vm_compute; reflexivity.
  - unfold has_required_fields. simpl. repeat split; discriminate.
  - vm_compute. reflexivity.
  - reflexivity.
  - reflexivity.
  - vm_compute. discriminate.
  - vm_compute. discriminate.
  - reflexivity.
  - reflexivity.
  - reflexivity.
  - reflexivity.
  - split; [exact Hb | exact Hs].
Defined.

(** ** Admin grants *)

Lemma store_fields_check req :
  negb (truthy (sr_userEmail req)) || negb (truthy_num (sr_amount req))
  || negb (truthy (sr_adminSignature req)) || negb (truthy (sr_ticketId req)) = false
  ↔ store_fields_ok req.
Proof.
  unfold store_fields_ok, truthy_num.
  destruct (sr_userEmail req), (sr_adminSignature req), (sr_ticketId req),
    (Z.eqb_spec (sr_amount req) 0); cbn; split;
    try discriminate; try (intros (? & ? & ? & ?); congruence);
    intros _; repeat split; congruence.
Qed.

Lemma store_fields_ok_dec req : {store_fields_ok req} + {¬ store_fields_ok req}.
Proof.
  destruct (negb (truthy (sr_userEmail req)) || negb (truthy_num (sr_amount req))
            || negb (truthy (sr_adminSignature req)) || negb (truthy (sr_ticketId req)))
    eqn:E.
  - right. intros H. apply store_fields_check in H. congruence.
  - left. now apply store_fields_check.
Qed.

Lemma serve_store e req w :
  serve e (StoreBalance req) w
  = (answer "Failed to store balance"
       (fst (storeUserBalance (now e) (rand e) req (mkSt w (replies e)))),
     world (snd (storeUserBalance (now e) (rand e) req (mkSt w (replies e))))).
Proof.
  unfold serve, route, handle.
  destruct (storeUserBalance _ _ _ _) as [[r|m] s']; reflexivity.
Qed.

(** The outcomes of a grant whose fields are present. *)
Lemma storeUserBalance_outcomes t rand req s :
  store_fields_ok req →
  ∃ r s', storeUserBalance t rand req s = (r, s')
    ∧ ((∃ cid bal url note, r = Val (OkStored cid bal url note)) ∨ r = Throw "fetch failed")
    ∧ userIdToEmail (world s')
      = match sr_userId req with
        | Some u => if truthy u then <[u := toLowerCase (sr_userEmail req)]> (userIdToEmail (world s))
                    else userIdToEmail (world s)
        | None => userIdToEmail (world s)
        end.
Proof.
  intros Hf. apply store_fields_check in Hf.
  unfold storeUserBalance. rewrite Hf.
  set (key := toLowerCase (sr_userEmail req)).
  set (ids := match sr_userId req with
              | Some u => if truthy u then <[u := key]> (userIdToEmail (world s))
                          else userIdToEmail (world s)
              | None => userIdToEmail (world s)
              end).
  assert (∃ s0, (match sr_userId req with
                 | Some u => if truthy u then modify (set_userIdToEmail (<[u := key]>))
                             else ret tt
                 | None => ret tt
                 end) s = (Val tt, s0)
                ∧ userIdToEmail (world s0) = ids) as (s0 & H0 & Hi0).
  { subst ids. destruct (sr_userId req) as [u|]; [destruct (truthy u)|]; eexists;
      (split; [reflexivity|]); reflexivity. }
  rewrite (bind_val _ _ _ _ _ H0), bind_gets.
  assert (∃ ex s1, (match known_hash key (world s0) with
                    | Some h => let* o := fetch in
                                match o with
                                | NetOk _ => gets (fun w => ipfs w !! h)
                                | _ => ret None
                                end
                    | None => gets (fun w => inMemoryBalances w !! key)
                    end) s0 = (Val ex, s1)
                   ∧ world s1 = world s0)
    as (ex & s1 & H1 & Hw1).
  { destruct (known_hash key (world s0)) as [h|].
    - run_monad. destruct (net s0) as [|[| |c] rest]; simpl;
        do 2 eexists; (split; [reflexivity|]); reflexivity.
    - run_monad. do 2 eexists. split; reflexivity. }
  rewrite (bind_val _ _ _ _ _ H1), bind_gets.
  rewrite Hw1.
  destruct (pinataCreds (world s0)).
  - unfold bind at 1. unfold fetch.
    destruct (net s1) as [|[| |cid] rest]; simpl; do 2 eexists;
      (split; [reflexivity|]); (split; [eauto 10|]); simpl; rewrite ?Hw1; exact Hi0.
  - simpl. do 2 eexists. split; [reflexivity|]. split; [eauto 10|].
    simpl. rewrite Hw1. exact Hi0.
Qed.

(** X4. A grant is answered 400 exactly when [userEmail], [adminSignature]
    or [ticketId] is empty or [amount] is zero, and then the state is left as
    it was; a grant with its fields is stored (200) or fails on the upload
    (500), and a negative [amount] passes like a positive one. *)
Theorem store_validation e req w :
  (fst (serve e (StoreBalance req) w) = StoreMissingFields ↔ ¬ store_fields_ok req)
  ∧ (¬ store_fields_ok req → snd (serve e (StoreBalance req) w) = w)
  ∧ (store_fields_ok req →
     store_accepted (fst (serve e (StoreBalance req) w))
     ∨ fst (serve e (StoreBalance req) w) = Err 500 "fetch failed").
Proof.
  rewrite serve_store. cbn [fst snd].
  assert (¬ store_fields_ok req →
          storeUserBalance (now e) (rand e) req (mkSt w (replies e))
          = (Val StoreMissingFields, mkSt w (replies e))) as Hbad.
  { intros Hn. unfold storeUserBalance.
    destruct (negb (truthy (sr_userEmail req)) || negb (truthy_num (sr_amount req))
              || negb (truthy (sr_adminSignature req)) || negb (truthy (sr_ticketId req)))
      eqn:E; [reflexivity|].
    apply store_fields_check in E. contradiction. }
  assert (store_fields_ok req →
          store_accepted (answer "Failed to store balance"
             (fst (storeUserBalance (now e) (rand e) req (mkSt w (replies e)))))
          ∨ answer "Failed to store balance"
             (fst (storeUserBalance (now e) (rand e) req (mkSt w (replies e))))
            = Err 500 "fetch failed") as Hgood.
  { intros Hf.
    destruct (storeUserBalance_outcomes (now e) (rand e) req (mkSt w (replies e)) Hf)
      as (r & s' & Hr & [(cid & bal & url & note & ->) | ->] & _); rewrite Hr; cbn.
    - left. unfold store_accepted. eauto.
    - right. reflexivity. }
  split; [split|split].
  - intros Hresp Hf. destruct (Hgood Hf) as [(cid & bal & url & note & Ha) | Ha];
      rewrite Ha in Hresp; discriminate.
  - intros Hn. now rewrite (Hbad Hn).
  - intros Hn. now rewrite (Hbad Hn).
  - exact Hgood.
Qed.

Lemma storeUserBalance_memory_mode t rand req s :
  memory_mode (world s) → store_fields_ok req →
  let key := toLowerCase (sr_userEmail req) in
  let nb := updatedBalance t rand req (inMemoryBalances (world s) !! key) in
  ∃ w', storeUserBalance t rand req s
        = (Val (OkStored "" (totalBalance nb) ""
                         (Some "Stored in-memory (Pinata credentials missing)")),
           mkSt w' (net s))
      ∧ inMemoryBalances w' = <[key := nb]> (inMemoryBalances (world s))
      ∧ memory_mode w'
      ∧ applied w' = (applied (world s) ++ [mkDelta key (sr_amount req) 0])%list
      ∧ listings w' = listings (world s) ∧ orders w' = orders (world s).
Proof.
  intros [Hc Hi] Hf key nb. apply store_fields_check in Hf.
  unfold storeUserBalance. rewrite Hf. fold key.
  assert (∃ s0, (match sr_userId req with
                 | Some u => if truthy u then modify (set_userIdToEmail (<[u := key]>))
                             else ret tt
                 | None => ret tt
                 end) s = (Val tt, s0)
                ∧ index_erase (set_userIdToEmail (fun _ => ∅) (world s0))
                  = index_erase (set_userIdToEmail (fun _ => ∅) (world s))
                ∧ emailToIpfsMap (world s0) = ∅ ∧ net s0 = net s)
    as (s0 & H0 & He0 & Hi0 & Hn0).
  { destruct (sr_userId req) as [u|]; [destruct (truthy u)|]; eexists;
      (split; [reflexivity|]); repeat split; assumption. }
  assert (inMemoryBalances (world s0) = inMemoryBalances (world s)) as Hmem
    by exact (f_equal inMemoryBalances He0).
  assert (pinataCreds (world s0) = false) as Hc0
    by (rewrite <- Hc; exact (f_equal pinataCreds He0)).
  rewrite (bind_val _ _ _ _ _ H0), bind_gets.
  rewrite (known_hash_memory_mode key (world s0)) by (split; assumption).
  rewrite bind_gets, bind_gets, Hc0, Hmem. fold nb.
  rewrite bind_modify, bind_modify. unfold ret. cbn [world net].
  eexists. split; [rewrite Hn0; reflexivity|].
  assert (applied (world s0) = applied (world s)) as Hap by exact (f_equal applied He0).
  cbn. rewrite Hmem, Hap. repeat split; try assumption.
  - exact (f_equal listings He0).
  - exact (f_equal orders He0).
Qed.

Lemma truthy_toLowerCase s : truthy (toLowerCase s) = truthy s.
Proof. destruct s; reflexivity. Qed.

Lemma getUserBalanceByEmail_lower t email :
  getUserBalanceByEmail t (toLowerCase email) = getUserBalanceByEmail t email.
Proof.
  unfold getUserBalanceByEmail. now rewrite truthy_toLowerCase, toLowerCase_idem.
Qed.

Lemma public_read_memory t email s b :
  email ≠ "" → inMemoryBalances (world s) !! toLowerCase email = Some b →
  getUserBalanceByEmail t email s = (Val (OkBalance b), s).
Proof.
  intros Hne Hb. unfold getUserBalanceByEmail.
  destruct email; [congruence|]. cbn [truthy negb].
  rewrite bind_gets, Hb. reflexivity.
Qed.

Lemma serve_read e email w :
  serve e (GetBalanceByEmail email) w
  = (answer "Failed to retrieve balance"
       (fst (getUserBalanceByEmail (now e) email (mkSt w (replies e)))),
     world (snd (getUserBalanceByEmail (now e) email (mkSt w (replies e))))).
Proof.
  unfold serve, route, handle.
  destruct (getUserBalanceByEmail _ _ _) as [[r|m] s']; reflexivity.
Qed.

(** X5. On a server without credentials a grant is stored in memory and
    the next read of that account answers it: when the new total is a safe
    integer (between -(2^53 - 1) and 2^53 - 1, where the sum of doubles the
    code computes is exact), the tokens of the account plus [amount], its
    rupees unchanged (100 for a new account); the read changes nothing. *)
Theorem grant_then_read_in_memory e e' req w :
  memory_mode w → store_fields_ok req →
  safe_integer (fst (holdings (toLowerCase (sr_userEmail req)) w) + sr_amount req) = true →
  let key := toLowerCase (sr_userEmail req) in
  let w' := snd (serve e (StoreBalance req) w) in
  ∃ b, serve e' (GetBalanceByEmail (sr_userEmail req)) w' = (OkBalance b, w')
     ∧ totalBalance b = fst (holdings key w) + sr_amount req
     ∧ rupeesBalance b = Some (snd (holdings key w))
     ∧ lastUpdated b = now e
     ∧ fst (serve e (StoreBalance req) w)
       = OkStored "" (totalBalance b) "" (Some "Stored in-memory (Pinata credentials missing)")
     ∧ memory_mode w'.
Proof.
  intros Hm Hf Hsafe key w'. subst w'. rewrite serve_store. cbn [fst snd].
  fold key in Hsafe.
  destruct (storeUserBalance_memory_mode (now e) (rand e) req (mkSt w (replies e)) Hm Hf)
    as (w1 & Hs & Hmem & Hm1 & _). cbv zeta in Hs, Hmem. fold key in Hs, Hmem.
  cbn [world] in Hs, Hmem.
  rewrite Hs. cbn [fst snd world answer].
  set (nb := updatedBalance (now e) (rand e) req (inMemoryBalances w !! key)) in *.
  exists nb. rewrite serve_read.
  assert (inMemoryBalances w1 !! toLowerCase (sr_userEmail req) = Some nb) as Hnb
    by (rewrite Hmem; apply lookup_insert_eq).
  rewrite (public_read_memory (now e') (sr_userEmail req) (mkSt w1 (replies e')) nb
             (proj1 Hf) Hnb).
  cbn [fst snd world answer].
  split; [reflexivity|]. split; [|split; [|split; [|split; [reflexivity | exact Hm1]]]].
  - unfold nb, updatedBalance. unfold holdings in Hsafe |- *. fold key.
    destruct (inMemoryBalances w !! key); [|reflexivity].
    exact (js_add_exact _ _ Hsafe).
  - unfold nb, updatedBalance, holdings. fold key.
    destruct (inMemoryBalances w !! key); reflexivity.
  - unfold nb, updatedBalance. destruct (inMemoryBalances w !! key); reflexivity.
Qed.

Lemma grant_then_read_in_memory_witness :
  ∃ b, serve (demo_env 2) (GetBalanceByEmail "A@x.com")
         (snd (serve (demo_env 1)
                 (StoreBalance (mkStoreRequest "A@x.com" None None 50 "0xsig" "ticket-1" None))
                 (initial false)))
       = (OkBalance b,
          snd (serve (demo_env 1)
                 (StoreBalance (mkStoreRequest "A@x.com" None None 50 "0xsig" "ticket-1" None))
                 (initial false)))
     ∧ totalBalance b = 50 ∧ rupeesBalance b = Some 100.
Proof.
  destruct (grant_then_read_in_memory (demo_env 1) (demo_env 2)
              (mkStoreRequest "A@x.com" None None 50 "0xsig" "ticket-1" None) (initial false))
    as (b & Hr & Ht & Hp & _).
  - split; reflexivity.
  - repeat split; discriminate.
  - reflexivity.
  - exists b. split; [exact Hr|]. split; [exact Ht | exact Hp].
Defined.

Lemma serve_get e uid w :
  serve e (GetBalance uid) w
  = (answer "Failed to retrieve balance"
       (fst (getUserBalance (now e) uid (mkSt w (replies e)))),
     world (snd (getUserBalance (now e) uid (mkSt w (replies e))))).
Proof.
  unfold serve, route, handle.
  destruct (getUserBalance _ _ _) as [[r|m] s']; reflexivity.
Qed.

(** X6. A grant that names a [userId] records the account of that id, also
    when the upload then fails with 500; from then on the read by id answers
    what the read by e-mail answers. *)
Theorem grant_registers_user_id e e' req u w :
  store_fields_ok req → sr_userId req = Some u → u ≠ "" →
  let w' := snd (serve e (StoreBalance req) w) in
  userIdToEmail w' !! u = Some (toLowerCase (sr_userEmail req))
  ∧ serve e' (GetBalance u) w' = serve e' (GetBalanceByEmail (sr_userEmail req)) w'.
Proof.
  intros Hf Hu Hne w'. subst w'. rewrite serve_store. cbn [snd].
  destruct (storeUserBalance_outcomes (now e) (rand e) req (mkSt w (replies e)) Hf)
    as (r & s' & Hr & _ & Hids).
  rewrite Hr. cbn [snd].
  assert (truthy u = true) as Htu by (destruct u; [congruence | reflexivity]).
  rewrite Hu, Htu in Hids.
  assert (userIdToEmail (world s') !! u = Some (toLowerCase (sr_userEmail req))) as Hl
    by (rewrite Hids; apply lookup_insert_eq).
  split; [exact Hl|].
  rewrite serve_get, serve_read.
  assert (getUserBalance (now e') u (mkSt (world s') (replies e'))
          = getUserBalanceByEmail (now e') (sr_userEmail req) (mkSt (world s') (replies e')))
    as ->; [|reflexivity].
  unfold getUserBalance. rewrite Htu. cbn [negb]. rewrite bind_gets. cbn [world].
  rewrite Hl, truthy_toLowerCase.
  destruct Hf as (Hemail & _).
  destruct (sr_userEmail req) eqn:E; [congruence|]. cbn [truthy].
  rewrite <- E. now rewrite getUserBalanceByEmail_lower.
Qed.

Lemma grant_registers_user_id_witness :
  userIdToEmail (snd (serve (demo_env 1) (StoreBalance demo_grant) (initial false))) !! "uid-a"
  = Some "a@x.com".
Proof.
  refine (proj1 (grant_registers_user_id (demo_env 1) (demo_env 3) demo_grant
                   "uid-a" (initial false) _ _ _)).
  - repeat split; discriminate.
  - reflexivity.
  - discriminate.
Defined.

(** ** Reads *)

Lemma searchPinata_learns key s :
  ∃ r s', searchPinata key s = (Val r, s')
    ∧ index_erase (world s') = index_erase (world s)
    ∧ learns_pinned_hash (world s) (emailToIpfsMap (world s')).
Proof.
  unfold searchPinata, learns_pinned_hash. run_monad.
  destruct (net s) as [|[| |c] rest]; simpl; eauto 10.
  destruct (pinList (world s) !! balance_name key) as [h|] eqn:Hp; simpl; eauto 10.
  destruct (truthy h); simpl; eauto 10.
Qed.

Lemma getUserBalanceByEmail_learns t email s :
  ∃ r s', getUserBalanceByEmail t email s = (Val r, s')
    ∧ index_erase (world s') = index_erase (world s)
    ∧ learns_pinned_hash (world s) (emailToIpfsMap (world s'))
    ∧ ∀ c msg, r = Err c msg → c = 400.
Proof.
  unfold getUserBalanceByEmail.
  assert (learns_pinned_hash (world s) (emailToIpfsMap (world s))) as Hsame by now left.
  destruct (negb (truthy email)).
  { unfold ret. do 2 eexists. repeat split; try exact Hsame. intros c msg [= <- _]. reflexivity. }
  rewrite bind_gets.
  destruct (inMemoryBalances (world s) !! toLowerCase email).
  { unfold ret. do 2 eexists. repeat split; try exact Hsame. discriminate. }
  rewrite bind_gets.
  assert (∃ h s1, (match known_hash (toLowerCase email) (world s) with
                   | Some h => ret (Some h)
                   | None => let* headers := gets pinataCreds in
                             if headers then searchPinata (toLowerCase email) else ret None
                   end) s = (Val h, s1)
                  ∧ index_erase (world s1) = index_erase (world s)
                  ∧ learns_pinned_hash (world s) (emailToIpfsMap (world s1)))
    as (h & s1 & Hh & Hs1 & Hl1).
  { destruct (known_hash _ _); [unfold ret; eauto|].
    rewrite bind_gets. destruct (pinataCreds (world s)); [|unfold ret; eauto].
    apply searchPinata_learns. }
  rewrite (bind_val _ _ _ _ _ Hh).
  destruct h as [h|].
  2:{ unfold ret. do 2 eexists. repeat split; try eassumption. discriminate. }
  run_monad.
  destruct (net s1) as [|[| |c] rest]; simpl;
    try (do 2 eexists; repeat split; try eassumption; discriminate).
  destruct (ipfs (world s1) !! h); simpl;
    do 2 eexists; repeat split; try eassumption; discriminate.
Qed.

Lemma getUserBalance_learns t uid s :
  ∃ r s', getUserBalance t uid s = (Val r, s')
    ∧ index_erase (world s') = index_erase (world s)
    ∧ learns_pinned_hash (world s) (emailToIpfsMap (world s'))
    ∧ ∀ c msg, r = Err c msg → c = 400.
Proof.
  unfold getUserBalance.
  assert (learns_pinned_hash (world s) (emailToIpfsMap (world s))) as Hsame by now left.
  destruct (negb (truthy uid)).
  { unfold ret. do 2 eexists. repeat split; try exact Hsame. intros c msg [= <- _]. reflexivity. }
  rewrite bind_gets.
  destruct (userIdToEmail (world s) !! uid) as [e|].
  2:{ unfold ret. do 2 eexists. repeat split; try exact Hsame. discriminate. }
  destruct (truthy e); [apply getUserBalanceByEmail_learns|].
  unfold ret. do 2 eexists. repeat split; try exact Hsame. discriminate.
Qed.

(** X7. The read requests (balance by id, balance by e-mail, listing the
    collection) never answer 500 and change nothing of the state but the hash
    index, which at most learns the hash the pinning service lists for one
    account. *)
Theorem reads_only_learn_hashes e r w :
  is_read r →
  index_erase (snd (serve e r w)) = index_erase w
  ∧ learns_pinned_hash w (emailToIpfsMap (snd (serve e r w)))
  ∧ ∀ c msg, fst (serve e r w) = Err c msg → c = 400.
Proof.
  intros Hr. rewrite serve_route. cbn [fst snd].
  destruct r as [req|uid|email|req|status|req]; try contradiction; unfold route, handle.
  - destruct (getUserBalance_learns (now e) uid (mkSt w (replies e)))
      as (r & s' & Hg & He & Hl & Hc). rewrite Hg. cbn [fst snd]. auto.
  - destruct (getUserBalanceByEmail_learns (now e) email (mkSt w (replies e)))
      as (r & s' & Hg & He & Hl & Hc). rewrite Hg. cbn [fst snd]. auto.
  - unfold listListings. rewrite bind_gets. unfold ret. cbn [fst snd world].
    repeat split; [now left | discriminate].
Qed.

Lemma reads_only_learn_hashes_witness :
  index_erase (snd (serve (mkEnv 5 "id-5" "r4nd0m" [NetOk ""; NetOk ""])
                      (GetBalanceByEmail "old@x.com")
                      (set_emailToIpfsMap (fun _ => ∅) old_world)))
  = index_erase (set_emailToIpfsMap (fun _ => ∅) old_world).
Proof.
  refine (proj1 (reads_only_learn_hashes (mkEnv 5 "id-5" "r4nd0m" [NetOk ""; NetOk ""])
                   (GetBalanceByEmail "old@x.com")
                   (set_emailToIpfsMap (fun _ => ∅) old_world) _)).
  exact I.
Defined.

(** ** Listings *)

Lemma listing_fields_check req :
  listing_fields_ok req →
  negb (truthy (cl_sellerEmail req)) || negb (truthy (cl_sellerWallet req))
  || negb (truthy_num (cl_amountTokens req)) || negb (truthy_num (cl_priceRupees req))
  || negb (truthy (cl_signature req)) = false
  ∧ Nat.ltb (js_length (cl_signature req)) 10 = false.
Proof.
  intros (He & Hw & Ha & Hp & Hs). unfold truthy_num.
  apply Z.eqb_neq in Ha, Hp. rewrite Ha, Hp.
  split; [|apply Nat.ltb_ge; exact Hs].
  destruct (cl_sellerEmail req); [congruence|].
  destruct (cl_sellerWallet req); [congruence|].
  destruct (cl_signature req); [cbn in Hs; lia | reflexivity].
Qed.

Lemma serve_create e req w :
  serve e (CreateListing req) w
  = (answer "Failed to create listing"
       (fst (createListing (now e) (uuid e) req (mkSt w (replies e)))),
     world (snd (createListing (now e) (uuid e) req (mkSt w (replies e))))).
Proof.
  unfold serve, route, handle.
  destruct (createListing _ _ _ _) as [[r|m] s']; reflexivity.
Qed.

(** X8. Creating a listing reserves nothing: whatever the answer, no
    snapshot in memory or pinned, no order and no ledger delta is added or
    changed, so the seller keeps the listed tokens until a purchase. *)
Theorem createListing_reserves_nothing e req w :
  inMemoryBalances (snd (serve e (CreateListing req) w)) = inMemoryBalances w
  ∧ ipfs (snd (serve e (CreateListing req) w)) = ipfs w
  ∧ orders (snd (serve e (CreateListing req) w)) = orders w
  ∧ applied (snd (serve e (CreateListing req) w)) = applied w.
Proof.
  rewrite serve_create. cbn [snd].
  set (s := mkSt w (replies e)). change w with (world s).
  unfold createListing.
  destruct (negb (truthy (cl_sellerEmail req)) || negb (truthy (cl_sellerWallet req))
            || negb (truthy_num (cl_amountTokens req))
            || negb (truthy_num (cl_priceRupees req))
            || negb (truthy (cl_signature req))); [unfold ret; auto|].
  destruct (Nat.ltb (js_length (cl_signature req)) 10); [unfold ret; auto|].
  destruct (getUserBalanceByEmailInternal_frame (now e) (cl_sellerEmail req) s)
    as (bal & s1 & Hget & He & _).
  rewrite (bind_val _ _ _ _ _ Hget).
  pose proof (frame_inMemoryBalances _ _ He) as Hm.
  pose proof (frame_ipfs _ _ He) as Hi.
  pose proof (frame_orders _ _ He) as Ho.
  pose proof (frame_applied _ _ He) as Ha.
  destruct (or_zero (from_option totalBalance 0 bal) <? cl_amountTokens req);
    [unfold ret; cbn [snd]; auto|].
  rewrite bind_modify.
  match goal with
  | |- context [bind saveListings _ ?st] =>
      set (s2 := st); destruct (saveListings_frame s2) as (r3 & s3 & Hs3 & He3)
  end.
  pose proof (cframe_inMemoryBalances _ _ He3) as Hm3.
  pose proof (cframe_ipfs _ _ He3) as Hi3.
  pose proof (cframe_orders _ _ He3) as Ho3.
  pose proof (cframe_applied _ _ He3) as Ha3.
  cbn [s2 world] in Hm3, Hi3, Ho3, Ha3.
  assert (inMemoryBalances (world s3) = inMemoryBalances (world s)
          ∧ ipfs (world s3) = ipfs (world s)
          ∧ orders (world s3) = orders (world s)
          ∧ applied (world s3) = applied (world s)) as Hfin.
  { rewrite Hm3, Hi3, Ho3, Ha3. cbn. auto. }
  destruct r3 as [[]|msg].
  - rewrite (bind_val _ _ _ _ _ Hs3). unfold ret. exact Hfin.
  - rewrite (bind_throw _ _ _ _ _ Hs3). exact Hfin.
Qed.

(** X9. On a server without credentials a well-formed listing request is
    decided by the seller's tokens alone: with enough tokens the listing is
    created, active, under the lower-cased seller, and only the collection
    changes; otherwise it is refused and nothing changes.  Since nothing is
    reserved, the request that was accepted is accepted again. *)
Theorem listing_decided_by_tokens e e' req w :
  memory_mode w → listing_fields_ok req →
  let tokens := fst (holdings (toLowerCase (cl_sellerEmail req)) w) in
  let w1 := set_listings (cons (listing_of e req)) w in
  (cl_amountTokens req ≤ tokens →
   serve e (CreateListing req) w = (Created (listing_of e req), w1)
   ∧ serve e' (CreateListing req) w1
     = (Created (listing_of e' req), set_listings (cons (listing_of e' req)) w1))
  ∧ (tokens < cl_amountTokens req → serve e (CreateListing req) w = (InsufficientTokens, w)).
Proof.
  intros Hm Hf tokens w1.
  assert (∀ e0 w0, memory_mode w0 →
            createListing (now e0) (uuid e0) req (mkSt w0 (replies e0))
            = if fst (holdings (toLowerCase (cl_sellerEmail req)) w0) <? cl_amountTokens req
              then (Val InsufficientTokens, mkSt w0 (replies e0))
              else (Val (Created (listing_of e0 req)),
                    mkSt (set_listings (cons (listing_of e0 req)) w0) (replies e0))) as Hrun.
  { intros e0 w0 Hm0. unfold createListing.
    destruct (listing_fields_check req Hf) as [-> ->].
    rewrite (bind_val _ _ _ _ _
               (read_memory_mode (now e0) (cl_sellerEmail req) (mkSt w0 (replies e0)) Hm0)).
    cbn [from_option world].
    pose proof (holdings_snapshot (toLowerCase (cl_sellerEmail req)) (now e0) w0) as Hh.
    cbv zeta in Hh. rewrite Hh. cbn [fst].
    destruct (_ <? cl_amountTokens req); [reflexivity|].
    rewrite bind_modify. cbn [world net].
    match goal with
    | |- bind saveListings _ ?st = _ =>
        assert (memory_mode (world st)) as Hm2 by (destruct Hm0; split; assumption);
        rewrite (bind_val _ _ _ _ _ (saveListings_memory_mode st Hm2))
    end.
    reflexivity. }
  assert (memory_mode w1) as Hm1 by (destruct Hm; split; assumption).
  assert (fst (holdings (toLowerCase (cl_sellerEmail req)) w1) = tokens) as Hsame
    by reflexivity.
  split.
  - intros Hle. apply Z.ltb_ge in Hle.
    rewrite !serve_create, (Hrun e w Hm), (Hrun e' w1 Hm1), Hsame. fold tokens.
    rewrite Hle. split; reflexivity.
  - intros Hlt. apply Z.ltb_lt in Hlt.
    rewrite serve_create, (Hrun e w Hm). fold tokens. rewrite Hlt. reflexivity.
Qed.

Lemma listing_decided_by_tokens_witness :
  fst (serve (demo_env 2) (CreateListing demo_relist)
         (snd (serve (demo_env 1) (StoreBalance demo_grant) (initial false))))
  = Created (listing_of (demo_env 2) demo_relist).
Proof.
  destruct (listing_decided_by_tokens (demo_env 2) (demo_env 3) demo_relist
              (snd (serve (demo_env 1) (StoreBalance demo_grant) (initial false))))
    as [Hyes _].
  - split; reflexivity.
  - repeat split; try discriminate. vm_compute. lia.
  - destruct Hyes as [H1 _]; [vm_compute; discriminate|].
    exact (f_equal fst H1).
Defined.

Lemma listing_fields_pass req :
  negb (truthy (cl_sellerEmail req)) || negb (truthy (cl_sellerWallet req))
  || negb (truthy_num (cl_amountTokens req)) || negb (truthy_num (cl_priceRupees req))
  || negb (truthy (cl_signature req)) = false →
  Nat.ltb (js_length (cl_signature req)) 10 = false →
  listing_fields_ok req.
Proof.
  intros E Hs. apply Nat.ltb_ge in Hs.
  repeat (apply orb_false_elim in E; destruct E as [E ?]).
  repeat match goal with H : negb _ = false |- _ => apply negb_false_iff in H end.
  unfold truthy_num in *.
  repeat match goal with
         | H : negb (Z.eqb _ 0) = true |- _ => apply negb_true_iff, Z.eqb_neq in H
         | H : truthy _ = true |- _ => apply truthy_iff in H
         end.
  unfold listing_fields_ok. auto.
Qed.

Lemma createListing_step e req s :
  listing_step e (listings (world s))
    (listings (world (snd (createListing (now e) (uuid e) req s)))).
Proof.
  unfold createListing.
  destruct (negb (truthy (cl_sellerEmail req)) || negb (truthy (cl_sellerWallet req))
            || negb (truthy_num (cl_amountTokens req))
            || negb (truthy_num (cl_priceRupees req))
            || negb (truthy (cl_signature req))) eqn:E; [apply step_same|].
  destruct (Nat.ltb (js_length (cl_signature req)) 10) eqn:Hs; [apply step_same|].
  destruct (getUserBalanceByEmailInternal_frame (now e) (cl_sellerEmail req) s)
    as (bal & s1 & Hget & He & _).
  rewrite (bind_val _ _ _ _ _ Hget).
  pose proof (frame_listings _ _ He) as Hl.
  destruct (or_zero (from_option totalBalance 0 bal) <? cl_amountTokens req).
  { unfold ret. cbn [snd]. rewrite Hl. apply step_same. }
  rewrite bind_modify.
  match goal with
  | |- context [bind saveListings _ ?st] =>
      set (s2 := st); destruct (saveListings_frame s2) as (r3 & s3 & Hs3 & He3)
  end.
  pose proof (cframe_listings _ _ He3) as Hl3. cbn [s2 world] in Hl3.
  assert (listings (world s3) = listing_of e req :: listings (world s)) as Hfin
    by (rewrite Hl3; cbn; now rewrite Hl).
  destruct r3 as [[]|msg].
  - rewrite (bind_val _ _ _ _ _ Hs3). unfold ret. cbn [snd]. rewrite Hfin.
    apply step_new. now apply listing_fields_pass.
  - rewrite (bind_throw _ _ _ _ _ Hs3). cbn [snd]. rewrite Hfin.
    apply step_new. now apply listing_fields_pass.
Qed.

Lemma serve_listing_step e r w :
  listing_step e (listings w) (listings (snd (serve e r w))).
Proof.
  rewrite serve_route. cbn [snd].
  set (s := mkSt w (replies e)).
  change (listings w) with (listings (world s)).
  unfold route.
  destruct r as [req|uid|email|req|status|req]; rewrite handle_answer; cbn [snd].
  - destruct (storeUserBalance_frame (now e) (rand e) req s) as (r & s' & H & Hl & _).
    rewrite H. cbn [snd]. rewrite Hl. apply step_same.
  - destruct (getUserBalance_frame (now e) uid s) as (r & s' & H & He).
    rewrite H. cbn [snd]. rewrite (frame_listings _ _ He). apply step_same.
  - destruct (getUserBalanceByEmail_frame (now e) email s) as (r & s' & H & He).
    rewrite H. cbn [snd]. rewrite (frame_listings _ _ He). apply step_same.
  - apply createListing_step.
  - apply step_same.
  - destruct (buy_check_total (now e) req s) as [Hf|Hf Hn|L Hf Hfind Ha|L Hf Hfind Ha Hs
                                                |L Hf Hfind Ha Hs Hr|L Hf Hfind Ha Hs Hr].
    + rewrite buyListing_missing by exact Hf. apply step_same.
    + rewrite buyListing_not_found by assumption. apply step_same.
    + rewrite (buyListing_unavailable _ _ _ _ _ L) by assumption. apply step_same.
    + rewrite (buyListing_self_trade _ _ _ _ _ L) by assumption. apply step_same.
    + rewrite (buyListing_insufficient _ _ _ _ _ L) by assumption.
      unfold after_rupee_check.
      destruct (getUserBalanceByEmailInternal_frame (now e) (b_buyerEmail req) s)
        as (bal & s1 & Hget & He & _).
      rewrite Hget. cbn [snd]. rewrite (frame_listings _ _ He). apply step_same.
    + destruct (buyListing_passed (now e) (uuid e) (rand e) req s L Hf Hfind Ha Hs Hr)
        as (r & s' & Hbuy & [Hl _ _]).
      rewrite Hbuy. cbn [snd]. destruct Hl as [-> | ->]; [apply step_same | apply step_sold].
Qed.

Lemma mark_sold_wellformed id t ls :
  Forall wellformed ls → Forall wellformed (mark_sold id t ls).
Proof.
  induction 1 as [|l ls Hl Hls IH]; cbn; [constructor|].
  destruct (String.eqb (l_id l) id).
  - constructor; [|exact Hls].
    destruct Hl as (H1 & H2 & H3 & H4 & H5 & _ & _).
    unfold wellformed, sell; cbn. repeat split; try assumption; discriminate.
  - constructor; assumption.
Qed.

Lemma listing_step_wellformed e ls ls' :
  listing_step e ls ls' → Forall wellformed ls → Forall wellformed ls'.
Proof.
  intros [|req (He & Hw & Ha & Hp & Hs)|id] Hok; [exact Hok| |now apply mark_sold_wellformed].
  constructor; [|exact Hok].
  unfold wellformed, listing_of; cbn. rewrite toLowerCase_idem.
  repeat split; try assumption; try discriminate.
  destruct (cl_sellerEmail req); [congruence | discriminate].
Qed.

Lemma serve_all_wellformed rs w :
  Forall wellformed (listings w) → Forall wellformed (listings (serve_all rs w)).
Proof.
  revert w. induction rs as [|[e r] rs IH]; intros w Hw; cbn; [exact Hw|].
  apply IH. exact (listing_step_wellformed e _ _ (serve_listing_step e r w) Hw).
Qed.

(** X10. Every listing of a server that started empty has a lower-case,
    non-empty seller address, a wallet, a non-zero amount and price, and is
    active or sold, never cancelled; an active listing has not been updated
    since it was created. *)
Theorem reachable_listings_wellformed rs creds :
  Forall wellformed (listings (serve_all rs (initial creds))).
Proof. apply serve_all_wellformed. constructor. Qed.

(** X11. On a server that started empty the self-trade check does not
    depend on the case of the buyer's address: a purchase of an active
    listing whose seller address equals the buyer's up to case is refused
    with "Cannot buy your own listing" and changes nothing. *)
Theorem self_trade_ignores_case rs creds e req L :
  has_required_fields req →
  find_listing (b_listingId req) (listings (serve_all rs (initial creds))) = Some L →
  l_status L = active →
  toLowerCase (b_buyerEmail req) = toLowerCase (l_sellerEmail L) →
  serve e (BuyListing req) (serve_all rs (initial creds))
  = (SelfTrade, serve_all rs (initial creds)).
Proof.
  intros Hf Hfind Ha Hsame.
  set (w := serve_all rs (initial creds)) in *.
  assert (wellformed L) as (Hn & _).
  { pose proof (serve_all_wellformed rs (initial creds) (List.Forall_nil _)) as Hall.
    fold w in Hall.
    rewrite List.Forall_forall in Hall. apply Hall.
    unfold find_listing in Hfind. apply find_some in Hfind. tauto. }
  rewrite serve_buy.
  rewrite (buyListing_self_trade (now e) (uuid e) (rand e) req (mkSt w (replies e)) L);
    [reflexivity | assumption | assumption | assumption | congruence].
Qed.

Lemma self_trade_ignores_case_witness :
  serve (demo_env 3) (BuyListing demo_self_buy) demo_market = (SelfTrade, demo_market).
Proof.
  apply (self_trade_ignores_case demo_requests false (demo_env 3) demo_self_buy
           (mkListing "id-2" "a@x.com" (Some "uid-a") "0xA" 20 20 active 2 2)).
  - repeat split; discriminate.
  - vm_compute. reflexivity.
  - reflexivity.
  - reflexivity.
Defined.

(** ** Snapshots in memory on a server with credentials *)

Lemma storeUserBalance_pinned t rand req s :
  store_fields_ok req →
  ∃ r s', storeUserBalance t rand req s = (r, s')
    ∧ ∀ cid bal url, r = Val (OkStored cid bal url None) →
        inMemoryBalances (world s') = inMemoryBalances (world s)
        ∧ emailToIpfsMap (world s') !! toLowerCase (sr_userEmail req) = Some cid
        ∧ ∃ nb, ipfs (world s') !! cid = Some nb ∧ totalBalance nb = bal.
Proof.
  intros Hf. apply store_fields_check in Hf.
  unfold storeUserBalance. rewrite Hf.
  set (key := toLowerCase (sr_userEmail req)).
  assert (∃ s0, (match sr_userId req with
                 | Some u => if truthy u then modify (set_userIdToEmail (<[u := key]>))
                             else ret tt
                 | None => ret tt
                 end) s = (Val tt, s0)
                ∧ inMemoryBalances (world s0) = inMemoryBalances (world s))
    as (s0 & H0 & Hm0).
  { destruct (sr_userId req) as [u|]; [destruct (truthy u)|]; eexists;
      (split; [reflexivity|]); reflexivity. }
  rewrite (bind_val _ _ _ _ _ H0), bind_gets.
  assert (∃ ex s1, (match known_hash key (world s0) with
                    | Some h => let* o := fetch in
                                match o with
                                | NetOk _ => gets (fun w => ipfs w !! h)
                                | _ => ret None
                                end
                    | None => gets (fun w => inMemoryBalances w !! key)
                    end) s0 = (Val ex, s1)
                   ∧ world s1 = world s0)
    as (ex & s1 & H1 & Hw1).
  { destruct (known_hash key (world s0)) as [h|].
    - run_monad. destruct (net s0) as [|[| |c] rest]; simpl;
        do 2 eexists; (split; [reflexivity|]); reflexivity.
    - run_monad. do 2 eexists. split; reflexivity. }
  rewrite (bind_val _ _ _ _ _ H1), bind_gets.
  rewrite Hw1.
  destruct (pinataCreds (world s0)).
  - unfold bind at 1. unfold fetch.
    destruct (net s1) as [|[| |c] rest]; simpl; do 2 eexists;
      (split; [reflexivity|]); intros cid bal url; try discriminate.
    intros [= <- <- <-]. cbn. rewrite Hw1. split; [exact Hm0|].
    split; [apply lookup_insert_eq|].
    eexists. split; [apply lookup_insert_eq | reflexivity].
  - simpl. do 2 eexists. split; [reflexivity|]. discriminate.
Qed.

(** X12. A grant that is pinned (answered with a [cid] and no note) does
    not touch the snapshots in memory: an account that has a snapshot [m] in
    memory keeps being read as [m], while the pinned snapshot carries the new
    balance the grant answered. *)
Theorem pinned_grant_hidden_by_memory_snapshot e e' req w m cid bal url :
  store_fields_ok req →
  inMemoryBalances w !! toLowerCase (sr_userEmail req) = Some m →
  fst (serve e (StoreBalance req) w) = OkStored cid bal url None →
  let w' := snd (serve e (StoreBalance req) w) in
  serve e' (GetBalanceByEmail (sr_userEmail req)) w' = (OkBalance m, w')
  ∧ emailToIpfsMap w' !! toLowerCase (sr_userEmail req) = Some cid
  ∧ ∃ nb, ipfs w' !! cid = Some nb ∧ totalBalance nb = bal.
Proof.
  intros Hf Hm Hresp w'. subst w'. revert Hresp. rewrite serve_store. cbn [fst snd].
  intros Hresp.
  destruct (storeUserBalance_pinned (now e) (rand e) req (mkSt w (replies e)) Hf)
    as (r & s' & Hrun & Hpinned).
  rewrite Hrun in Hresp |- *. cbn [fst snd] in Hresp |- *.
  assert (r = Val (OkStored cid bal url None)) as Hval
    by (destruct r as [r|msg]; cbn in Hresp; [congruence | discriminate]).
  destruct (Hpinned cid bal url Hval) as (Hmem & Hidx & Hpin).
  cbn [world] in Hmem.
  split; [|split; assumption].
  rewrite serve_read.
  rewrite (public_read_memory (now e') (sr_userEmail req) _ m (proj1 Hf));
    [reflexivity|].
  cbn [world]. rewrite Hmem. exact Hm.
Qed.

Lemma pinned_grant_hidden_by_memory_snapshot_witness :
  fst (serve (mkEnv 2 "id-2" "r4nd0m" [NetOk "QmA"]) (StoreBalance demo_grant) demo_fallback)
  = OkStored "QmA" 100 "https://gateway.pinata.cloud/ipfs/QmA" None
  ∧ ∃ m, totalBalance m = 50
       ∧ fst (serve (demo_env 3) (GetBalanceByEmail "a@x.com")
                (snd (serve (mkEnv 2 "id-2" "r4nd0m" [NetOk "QmA"]) (StoreBalance demo_grant)
                        demo_fallback)))
         = OkBalance m.
Proof.
  split; [vm_compute; reflexivity|].
  exists (mkUserBalance "a@x.com" (Some "uid-a") (Some "0xA") 50 (Some 100)
            [mkTransaction "tx_1_r4nd0m" 50 "0xsignature-admin" 1 "ticket-1" (Some "0xA")
                           "a@x.com" None] 1).
  split; [reflexivity|].
  refine (f_equal fst (proj1 (pinned_grant_hidden_by_memory_snapshot
            (mkEnv 2 "id-2" "r4nd0m" [NetOk "QmA"]) (demo_env 3) demo_grant demo_fallback
            _ "QmA" 100 "https://gateway.pinata.cloud/ipfs/QmA" _ _ _))).
  - repeat split; discriminate.
  - vm_compute. reflexivity.
  - vm_compute. reflexivity.
Defined.

Lemma store_internal_pinned t rand args s m cid rest :
  inMemoryBalances (world s) !! toLowerCase (a_userEmail args) = Some m →
  pinataCreds (world s) = true → net s = NetOk cid :: rest →
  storeUserBalanceInternal t rand args s
  = (Val (newBal t rand args (Some m)),
     mkSt (log_delta (mkDelta (toLowerCase (a_userEmail args)) (a_amount args)
                              (nullish (a_deltaRupees args) 0))
             ((if truthy cid
               then set_emailToIpfsMap (<[toLowerCase (a_userEmail args) := cid]>)
               else id)
                (pin_balance (balance_name (toLowerCase (a_userEmail args))) cid
                             (newBal t rand args (Some m)) (world s))))
          rest).
Proof.
  intros Hm Hc Hn. unfold storeUserBalanceInternal.
  assert (inMemoryBalances (world s) !! toLowerCase (toLowerCase (a_userEmail args)) = Some m)
    as Hm' by now rewrite toLowerCase_idem.
  rewrite (bind_val _ _ _ _ _ (read_memory t (toLowerCase (a_userEmail args)) s m Hm')).
  rewrite bind_gets, Hc.
  unfold bind, fetch. rewrite Hn.
  destruct (truthy cid); reflexivity.
Qed.

Lemma store_internal_throws t rand args s m rest :
  inMemoryBalances (world s) !! toLowerCase (a_userEmail args) = Some m →
  pinataCreds (world s) = true → net s = NetThrow :: rest →
  storeUserBalanceInternal t rand args s = (Throw "fetch failed", mkSt (world s) rest).
Proof.
  intros Hm Hc Hn. unfold storeUserBalanceInternal.
  assert (inMemoryBalances (world s) !! toLowerCase (toLowerCase (a_userEmail args)) = Some m)
    as Hm' by now rewrite toLowerCase_idem.
  rewrite (bind_val _ _ _ _ _ (read_memory t (toLowerCase (a_userEmail args)) s m Hm')).
  rewrite bind_gets, Hc.
  unfold bind, fetch. rewrite Hn. reflexivity.
Qed.

Lemma update_pinned t rand email dt dr reason lid cp s m cid rest :
  inMemoryBalances (world s) !! toLowerCase email = Some m →
  pinataCreds (world s) = true → net s = NetOk cid :: rest →
  ∃ w', updateUserBalanceByEmail t rand email dt dr reason lid cp s
        = (Val (js_add (totalBalance m) dt, js_add (nullish (rupeesBalance m) 100) dr),
           mkSt w' rest)
      ∧ inMemoryBalances w' = inMemoryBalances (world s)
      ∧ pinataCreds w' = true
      ∧ listings w' = listings (world s) ∧ orders w' = orders (world s)
      ∧ applied w' = (applied (world s) ++ [mkDelta (toLowerCase email) dt dr])%list
      ∧ ∃ nb, ipfs w' !! cid = Some nb
              ∧ totalBalance nb = js_add (totalBalance m) dt
              ∧ rupeesBalance nb = Some (js_add (nullish (rupeesBalance m) 100) dr).
Proof.
  intros Hm Hc Hn. unfold updateUserBalanceByEmail.
  rewrite (bind_val _ _ _ _ _ (read_memory t email s m Hm)).
  cbn [from_option mbind option_bind]. rewrite or_zero_id.
  erewrite bind_val; [|apply (store_internal_pinned _ _ _ s m cid rest); assumption].
  unfold ret. eexists. split; [reflexivity|].
  cbn [a_userEmail a_amount a_deltaRupees nullish].
  destruct (truthy cid); cbn; rewrite ?or_zero_id;
    (repeat split; try assumption; try reflexivity);
    eexists; (split; [apply lookup_insert_eq|]); cbn; rewrite ?or_zero_id; split; reflexivity.
Qed.

Lemma update_throws t rand email dt dr reason lid cp s m rest :
  inMemoryBalances (world s) !! toLowerCase email = Some m →
  pinataCreds (world s) = true → net s = NetThrow :: rest →
  updateUserBalanceByEmail t rand email dt dr reason lid cp s
  = (Throw "fetch failed", mkSt (world s) rest).
Proof.
  intros Hm Hc Hn. unfold updateUserBalanceByEmail.
  rewrite (bind_val _ _ _ _ _ (read_memory t email s m Hm)).
  erewrite bind_throw; [reflexivity|].
  apply (store_internal_throws _ _ _ s m rest); assumption.
Qed.

Lemma buyListing_to_updates t uuid rand req s L mb :
  has_required_fields req →
  find_listing (b_listingId req) (listings (world s)) = Some L → l_status L = active →
  l_sellerEmail L ≠ toLowerCase (b_buyerEmail req) →
  inMemoryBalances (world s) !! toLowerCase (b_buyerEmail req) = Some mb →
  l_priceRupees L ≤ nullish (rupeesBalance mb) 100 →
  buyListing t uuid rand req s
  = (let* buyerBalance :=
       updateUserBalanceByEmail t rand (b_buyerEmail req)
         (l_amountTokens L) (- l_priceRupees L) "market_buy" (l_id L) (l_sellerEmail L) in
     let* sellerBalance :=
       updateUserBalanceByEmail t rand (l_sellerEmail L)
         (- l_amountTokens L) (l_priceRupees L) "market_sell" (l_id L) (b_buyerEmail req) in
     let* _ := modify (set_listings (mark_sold (l_id L) t)) in
     let* _ := saveListings in
     let* _ := modify (set_orders (cons (order_of t uuid req L))) in
     let* _ := saveOrders in
     ret (OkBought (sell t L) (order_of t uuid req L) buyerBalance sellerBalance)) s.
Proof.
  intros Hf Hfind Ha Hs Hmb Hr. unfold buyListing.
  rewrite (required_fields_check _ Hf), bind_gets, Hfind.
  rewrite bool_decide_eq_true_2 by exact Ha. cbn [negb].
  apply String.eqb_neq in Hs. rewrite Hs.
  rewrite (bind_val _ _ _ _ _ (read_memory t (b_buyerEmail req) s mb Hmb)).
  cbn [mbind option_bind].
  apply Z.ltb_ge in Hr. rewrite Hr. reflexivity.
Qed.

(** X13. On a server with credentials, when buyer and seller both have a
    snapshot in memory and the two balance uploads of a purchase succeed, the
    purchase pins the new balances and answers them, but leaves every
    snapshot in memory as it was: the next read, and the rupee check of the
    next purchase, still see the balances from before the purchase. *)
Theorem pinned_purchase_hidden_by_memory_snapshots e req w L mb ms c1 c2 rest :
  pinataCreds w = true → has_required_fields req →
  find_listing (b_listingId req) (listings w) = Some L → l_status L = active →
  l_sellerEmail L ≠ toLowerCase (b_buyerEmail req) →
  inMemoryBalances w !! toLowerCase (b_buyerEmail req) = Some mb →
  inMemoryBalances w !! toLowerCase (l_sellerEmail L) = Some ms →
  l_priceRupees L ≤ nullish (rupeesBalance mb) 100 →
  replies e = NetOk c1 :: NetOk c2 :: rest →
  let w' := snd (serve e (BuyListing req) w) in
  inMemoryBalances w' = inMemoryBalances w
  ∧ applied w' = (applied w ++ [buyer_delta req L; seller_delta L])%list
  ∧ (fst (serve e (BuyListing req) w)
     = OkBought (sell (now e) L) (order_of (now e) (uuid e) req L)
         (js_add (totalBalance mb) (l_amountTokens L),
          js_add (nullish (rupeesBalance mb) 100) (- l_priceRupees L))
         (js_add (totalBalance ms) (- l_amountTokens L),
          js_add (nullish (rupeesBalance ms) 100) (l_priceRupees L))
     ∨ ∃ msg, fst (serve e (BuyListing req) w) = Err 500 msg)
  ∧ ∀ e', buyer_rupees (now e') (b_buyerEmail req) (mkSt w' (replies e'))
          = nullish (rupeesBalance mb) 100.
Proof.
  intros Hc Hf Hfind Ha Hs Hmb Hms Hr Hn w'.
  assert (inMemoryBalances w' = inMemoryBalances w
          ∧ applied w' = (applied w ++ [buyer_delta req L; seller_delta L])%list
          ∧ (fst (serve e (BuyListing req) w)
             = OkBought (sell (now e) L) (order_of (now e) (uuid e) req L)
                 (js_add (totalBalance mb) (l_amountTokens L),
                  js_add (nullish (rupeesBalance mb) 100) (- l_priceRupees L))
                 (js_add (totalBalance ms) (- l_amountTokens L),
                  js_add (nullish (rupeesBalance ms) 100) (l_priceRupees L))
             ∨ ∃ msg, fst (serve e (BuyListing req) w) = Err 500 msg)) as (Hmem & Hap & Hresp).
  2:{ split; [exact Hmem|]. split; [exact Hap|]. split; [exact Hresp|].
      intros e'. unfold buyer_rupees.
      rewrite (read_memory (now e') (b_buyerEmail req) (mkSt w' (replies e')) mb);
        [reflexivity|]. cbn [world]. rewrite Hmem. exact Hmb. }
  subst w'. rewrite serve_buy. cbn [fst snd].
  set (s := mkSt w (replies e)).
  rewrite (buyListing_to_updates (now e) (uuid e) (rand e) req s L mb Hf Hfind Ha Hs Hmb Hr).
  destruct (update_pinned (now e) (rand e) (b_buyerEmail req) (l_amountTokens L)
              (- l_priceRupees L) "market_buy" (l_id L) (l_sellerEmail L) s mb c1
              (NetOk c2 :: rest) Hmb Hc Hn)
    as (w2 & Hu2 & Hm2 & Hc2 & Hl2 & Ho2 & Ha2 & _).
  rewrite (bind_val _ _ _ _ _ Hu2).
  assert (inMemoryBalances (world (mkSt w2 (NetOk c2 :: rest)))
            !! toLowerCase (l_sellerEmail L) = Some ms) as Hms2
    by (cbn [world]; rewrite Hm2; exact Hms).
  destruct (update_pinned (now e) (rand e) (l_sellerEmail L) (- l_amountTokens L)
              (l_priceRupees L) "market_sell" (l_id L) (b_buyerEmail req)
              (mkSt w2 (NetOk c2 :: rest)) ms c2 rest Hms2 Hc2 eq_refl)
    as (w3 & Hu3 & Hm3 & Hc3 & Hl3 & Ho3 & Ha3 & _).
  rewrite (bind_val _ _ _ _ _ Hu3).
  cbn [world] in Hm2, Ha2, Hm3, Ha3.
  rewrite bind_modify. cbn [world net].
  match goal with
  | |- context [bind saveListings _ ?st] =>
      destruct (saveListings_frame st) as (r4 & s4 & Hs4 & He4)
  end.
  pose proof (cframe_inMemoryBalances _ _ He4) as Hm4.
  pose proof (cframe_applied _ _ He4) as Ha4.
  cbn [world set_listings inMemoryBalances applied] in Hm4, Ha4.
  assert (applied w3 = (applied w ++ [buyer_delta req L; seller_delta L])%list) as Hdeltas.
  { rewrite Ha3, Ha2, <- app_assoc. reflexivity. }
  destruct r4 as [[]|msg].
  2:{ rewrite (bind_throw _ _ _ _ _ Hs4). cbn [fst snd answer].
      rewrite Hm4, Ha4, Hm3, Hm2. split; [reflexivity|]. split; [exact Hdeltas|].
      right. eauto. }
  rewrite (bind_val _ _ _ _ _ Hs4), bind_modify.
  match goal with
  | |- context [bind saveOrders _ ?st] =>
      destruct (saveOrders_frame st) as (r5 & s5 & Hs5 & He5)
  end.
  pose proof (cframe_inMemoryBalances _ _ He5) as Hm5.
  pose proof (cframe_applied _ _ He5) as Ha5.
  cbn [world set_orders inMemoryBalances applied] in Hm5, Ha5.
  destruct r5 as [[]|msg].
  - rewrite (bind_val _ _ _ _ _ Hs5). unfold ret. cbn [fst snd answer].
    rewrite Hm5, Ha5, Hm4, Ha4, Hm3, Hm2. split; [reflexivity|]. split; [exact Hdeltas|].
    left. reflexivity.
  - rewrite (bind_throw _ _ _ _ _ Hs5). cbn [fst snd answer].
    rewrite Hm5, Ha5, Hm4, Ha4, Hm3, Hm2. split; [reflexivity|]. split; [exact Hdeltas|].
    right. eauto.
Qed.

Lemma pinned_purchase_hidden_by_memory_snapshots_witness :
  holdings "b@x.com"
    (snd (serve (mkEnv 4 "id-4" "r4nd0m" [NetOk "QmB"; NetOk "QmA"])
            (BuyListing demo_fallback_buy) demo_fallback_market))
  = holdings "b@x.com" demo_fallback_market.
Proof.
  unfold holdings.
  rewrite (proj1 (pinned_purchase_hidden_by_memory_snapshots
                    (mkEnv 4 "id-4" "r4nd0m" [NetOk "QmB"; NetOk "QmA"])
                    demo_fallback_buy demo_fallback_market
                    (mkListing "id-3" "a@x.com" (Some "uid-a") "0xA" 20 20 active 3 3)
                    (mkUserBalance "b@x.com" (Some "uid-b") (Some "0xB") 10 (Some 100)
                       [mkTransaction "tx_2_r4nd0m" 10 "0xsignature-admin" 2 "ticket-2"
                                      (Some "0xB") "b@x.com" None] 2)
                    (mkUserBalance "a@x.com" (Some "uid-a") (Some "0xA") 50 (Some 100)
                       [mkTransaction "tx_1_r4nd0m" 50 "0xsignature-admin" 1 "ticket-1"
                                      (Some "0xA") "a@x.com" None] 1)
                    "QmB" "QmA" []
                    ltac:(reflexivity) ltac:(repeat split; discriminate)
                    ltac:(vm_compute; reflexivity) ltac:(reflexivity)
                    ltac:(discriminate) ltac:(vm_compute; reflexivity)
                    ltac:(vm_compute; reflexivity) ltac:(cbn; lia) ltac:(reflexivity))).
  reflexivity.
Defined.

(** X14. A purchase is not atomic: when the buyer's balance upload
    succeeds and the seller's throws, the purchase answers 500 with the
    buyer's delta applied and pinned (tokens credited, rupees debited), the
    seller's delta missing, the listing still active and no order recorded. *)
Theorem purchase_is_not_atomic e req w L mb ms c1 rest :
  pinataCreds w = true → has_required_fields req →
  find_listing (b_listingId req) (listings w) = Some L → l_status L = active →
  l_sellerEmail L ≠ toLowerCase (b_buyerEmail req) →
  inMemoryBalances w !! toLowerCase (b_buyerEmail req) = Some mb →
  inMemoryBalances w !! toLowerCase (l_sellerEmail L) = Some ms →
  l_priceRupees L ≤ nullish (rupeesBalance mb) 100 →
  replies e = NetOk c1 :: NetThrow :: rest →
  let w' := snd (serve e (BuyListing req) w) in
  fst (serve e (BuyListing req) w) = Err 500 "fetch failed"
  ∧ applied w' = (applied w ++ [buyer_delta req L])%list
  ∧ listings w' = listings w ∧ orders w' = orders w
  ∧ ∃ nb, ipfs w' !! c1 = Some nb
          ∧ totalBalance nb = js_add (totalBalance mb) (l_amountTokens L)
          ∧ rupeesBalance nb
            = Some (js_add (nullish (rupeesBalance mb) 100) (- l_priceRupees L)).
Proof.
  intros Hc Hf Hfind Ha Hs Hmb Hms Hr Hn w'. subst w'.
  rewrite serve_buy. cbn [fst snd].
  set (s := mkSt w (replies e)).
  rewrite (buyListing_to_updates (now e) (uuid e) (rand e) req s L mb Hf Hfind Ha Hs Hmb Hr).
  destruct (update_pinned (now e) (rand e) (b_buyerEmail req) (l_amountTokens L)
              (- l_priceRupees L) "market_buy" (l_id L) (l_sellerEmail L) s mb c1
              (NetThrow :: rest) Hmb Hc Hn)
    as (w2 & Hu2 & Hm2 & Hc2 & Hl2 & Ho2 & Ha2 & Hnb).
  rewrite (bind_val _ _ _ _ _ Hu2).
  assert (inMemoryBalances (world (mkSt w2 (NetThrow :: rest)))
            !! toLowerCase (l_sellerEmail L) = Some ms) as Hms2
    by (cbn [world]; rewrite Hm2; exact Hms).
  rewrite (bind_throw _ _ _ _ _
             (update_throws (now e) (rand e) (l_sellerEmail L) (- l_amountTokens L)
                (l_priceRupees L) "market_sell" (l_id L) (b_buyerEmail req)
                (mkSt w2 (NetThrow :: rest)) ms rest Hms2 Hc2 eq_refl)).
  cbn [fst snd answer world truthy].
  split; [reflexivity|]. split; [exact Ha2|]. split; [exact Hl2|]. split; [exact Ho2|].
  exact Hnb.
Qed.

Lemma purchase_is_not_atomic_witness :
  fst (serve (mkEnv 4 "id-4" "r4nd0m" [NetOk "QmB"; NetThrow])
         (BuyListing demo_fallback_buy) demo_fallback_market)
  = Err 500 "fetch failed".
Proof.
  refine (proj1 (purchase_is_not_atomic
                   (mkEnv 4 "id-4" "r4nd0m" [NetOk "QmB"; NetThrow])
                   demo_fallback_buy demo_fallback_market
                   (mkListing "id-3" "a@x.com" (Some "uid-a") "0xA" 20 20 active 3 3)
                   (mkUserBalance "b@x.com" (Some "uid-b") (Some "0xB") 10 (Some 100)
                      [mkTransaction "tx_2_r4nd0m" 10 "0xsignature-admin" 2 "ticket-2"
                                     (Some "0xB") "b@x.com" None] 2)
                   (mkUserBalance "a@x.com" (Some "uid-a") (Some "0xA") 50 (Some 100)
                      [mkTransaction "tx_1_r4nd0m" 50 "0xsignature-admin" 1 "ticket-1"
                                     (Some "0xA") "a@x.com" None] 1)
                   "QmB" [] _ _ _ _ _ _ _ _ _)).
  - reflexivity.
  - repeat split; discriminate.
  - vm_compute. reflexivity.
  - reflexivity.
  - discriminate.
  - vm_compute. reflexivity.
  - vm_compute. reflexivity.
  - cbn. lia.
  - reflexivity.
Defined.


(** ** The gateways of the edge read *)

Lemma tryGateways_skip fails : ∀ m key h w rest,
  Forall gateway_failed fails →
  Edge.tryGateways (length fails + m) key h (mkSt w (fails ++ rest))
  = Edge.tryGateways m key h (mkSt w rest).
Proof.
  induction fails as [|o fails IH]; intros m key h w rest Hf; [reflexivity|].
  inversion Hf as [|? ? Ho Hf']; subst.
  cbn [length Nat.add Edge.tryGateways app].
  unfold bind at 1. unfold fetch. cbn [net world].
  destruct o as [| |c]; [| |contradiction]; apply IH; exact Hf'.
Qed.

Lemma tryGateways_all_failed n : ∀ key h s,
  Forall gateway_failed (firstn n (net s)) →
  Edge.tryGateways n key h s = (Val None, mkSt (world s) (skipn n (net s))).
Proof.
  induction n as [|n IH]; intros key h s Hf.
  - destruct s; reflexivity.
  - cbn [Edge.tryGateways]. unfold bind at 1. unfold fetch.
    destruct (net s) as [|o rest] eqn:Hn.
    + rewrite IH by (rewrite Hn, firstn_nil; constructor).
      rewrite Hn, skipn_nil. reflexivity.
    + cbn [firstn] in Hf. inversion Hf as [|? ? Ho Hf']; subst.
      destruct o as [| |c]; [| |contradiction]; rewrite IH by exact Hf'; reflexivity.
Qed.

Lemma edge_handler_known t email s h :
  email ≠ "" →
  inMemoryBalances (world s) !! toLowerCase email = None →
  known_hash (toLowerCase email) (world s) = Some h →
  Edge.handler t email s
  = (let* balanceData := Edge.tryGateways 5 (toLowerCase email) h in
     match balanceData with
     | Some b => ret (OkBalance b)
     | None => ret (OkBalance (default_balance (toLowerCase email) t))
     end) s.
Proof.
  intros He Hm Hk. unfold Edge.handler.
  apply truthy_iff in He. rewrite He. cbn [negb].
  rewrite bind_gets, Hm, bind_gets, Hk. reflexivity.
Qed.

Lemma edge_handler_memory t email s b :
  email ≠ "" → inMemoryBalances (world s) !! toLowerCase email = Some b →
  Edge.handler t email s = (Val (OkBalance b), s).
Proof.
  intros He Hm. unfold Edge.handler.
  apply truthy_iff in He. rewrite He. cbn [negb].
  rewrite bind_gets, Hm. reflexivity.
Qed.

(** X15. The edge read of an account without snapshot in memory whose hash
    is known and pinned walks the gateways in order: with fewer than five
    failures before the first gateway that answers, it answers the pinned
    snapshot with [rupeesBalance] defaulted to 100 and caches it in memory;
    every later edge read of the account answers that cached snapshot without
    changing the state, whatever the network does. *)
Theorem edge_read_caches_fetched_snapshot e e' email w h b fails c rest :
  email ≠ "" →
  inMemoryBalances w !! toLowerCase email = None →
  known_hash (toLowerCase email) w = Some h →
  ipfs w !! h = Some b →
  replies e = (fails ++ NetOk c :: rest)%list → Forall gateway_failed fails →
  (length fails < 5)%nat →
  let w' := set_inMemoryBalances (<[toLowerCase email := coerce_rupees b]>) w in
  Edge.serve e email w = (OkBalance (coerce_rupees b), w')
  ∧ Edge.serve e' email w' = (OkBalance (coerce_rupees b), w').
Proof.
  intros He Hm Hk Hb Hn Hf Hlen w'. unfold Edge.serve. rewrite !handle_answer.
  rewrite (edge_handler_known (now e) email (mkSt w (replies e)) h He Hm Hk).
  rewrite (edge_handler_memory (now e') email (mkSt w' (replies e')) (coerce_rupees b) He)
    by (cbn; apply lookup_insert_eq).
  split; [|reflexivity].
  rewrite Hn.
  replace 5%nat with (length fails + S (4 - length fails))%nat by lia.
  erewrite bind_val.
  2:{ rewrite tryGateways_skip by exact Hf.
      cbn [Edge.tryGateways]. unfold bind at 1. unfold fetch. cbn [net world].
      rewrite bind_gets. cbn [world]. rewrite Hb, bind_modify. reflexivity. }
  reflexivity.
Qed.

Lemma edge_read_caches_fetched_snapshot_witness :
  fst (Edge.serve (mkEnv 5 "id-5" "r4nd0m" [NetFail; NetThrow; NetOk ""]) "Old@x.com" old_world)
  = OkBalance (coerce_rupees old_blob).
Proof.
  refine (f_equal fst (proj1 (edge_read_caches_fetched_snapshot
            (mkEnv 5 "id-5" "r4nd0m" [NetFail; NetThrow; NetOk ""]) (demo_env 6)
            "Old@x.com" old_world "QmOld" old_blob [NetFail; NetThrow] "" []
            _ _ _ _ _ _ _))).
  - discriminate.
  - reflexivity.
  - reflexivity.
  - reflexivity.
  - reflexivity.
  - repeat constructor.
  - cbn. lia.
Defined.

(** X16. When the hash of an account is known but the five gateways all
    fail, the edge read answers the default snapshot (0 tokens, 100 rupees)
    although a balance is pinned, and leaves the state as it was: nothing is
    cached. *)
Theorem edge_read_when_gateways_fail e email w h :
  email ≠ "" →
  inMemoryBalances w !! toLowerCase email = None →
  known_hash (toLowerCase email) w = Some h →
  Forall gateway_failed (firstn 5 (replies e)) →
  Edge.serve e email w = (OkBalance (default_balance (toLowerCase email) (now e)), w).
Proof.
  intros He Hm Hk Hf. unfold Edge.serve. rewrite handle_answer.
  rewrite (edge_handler_known (now e) email (mkSt w (replies e)) h He Hm Hk).
  rewrite (bind_val _ _ _ _ _
             (tryGateways_all_failed 5 (toLowerCase email) h (mkSt w (replies e)) Hf)).
  reflexivity.
Qed.

Lemma edge_read_when_gateways_fail_witness :
  Edge.serve (mkEnv 5 "id-5" "r4nd0m" [NetFail; NetThrow; NetFail]) "old@x.com" old_world
  = (OkBalance (default_balance "old@x.com" 5), old_world).
Proof.
  apply (edge_read_when_gateways_fail
           (mkEnv 5 "id-5" "r4nd0m" [NetFail; NetThrow; NetFail]) "old@x.com" old_world "QmOld").
  - discriminate.
  - reflexivity.
  - reflexivity.
  - repeat constructor.
Defined.

(** * The Cloudflare Pages router *)

Lemma append_cons c a b : String c a +:+ b = String c (a +:+ b).
Proof. reflexivity. Qed.

Lemma append_nil b : "" +:+ b = b.
Proof. reflexivity. Qed.

Lemma prefix_app a b s : String.prefix (a +:+ b) s = true → String.prefix a s = true.
Proof.
  revert s. induction a as [|c a IH]; intros s H; [destruct s; reflexivity|].
  destruct s as [|d s]; [discriminate|]. rewrite append_cons in H. cbn in H |- *.
  destruct (ascii_dec c d); [apply IH; exact H | discriminate].
Qed.

Lemma prefix_eqb a s : String.eqb s a = true → String.prefix a s = true.
Proof.
  intros H. apply String.eqb_eq in H. subst s.
  induction a as [|c a IH]; [reflexivity|]. cbn.
  destruct (ascii_dec c c); [exact IH | congruence].
Qed.

Ltac dispatch_cases :=
  unfold Router.dispatch, Router.startsWith;
  repeat match goal with
         | |- context [if ?c then _ else _] => destruct c eqn:?; try discriminate
         end.

(** X17. The router never passes a request to [getUserBalanceByEmail]: the
    case of [GET /balance/...] comes first in the [switch], so every
    [GET /balance/email/<address>] is answered by [getUserBalance] with the
    user id ["email"]. *)
Theorem by_email_route_is_shadowed method path rest :
  (∀ x, Router.dispatch method path ≠ Router.GetUserBalanceByEmail x)
  ∧ Router.dispatch "GET" ("/balance/email/" +:+ rest) = Router.GetUserBalance (Some "email").
Proof.
  split.
  - intros x. dispatch_cases.
    repeat match goal with
           | H : _ && _ = true |- _ => apply andb_true_iff in H; destruct H
           end.
    match goal with
    | H : String.prefix "/balance/email/" path = true |- _ =>
        apply (prefix_app "/balance/" "email/") in H
    end.
    match goal with
    | H : String.prefix "/balance/" path && _ = false |- _ =>
        apply andb_false_iff in H; destruct H; congruence
    end.
  - unfold Router.dispatch, Router.startsWith, Router.segment.
    rewrite !append_cons, append_nil. cbn.
    destruct (Router.split "/" rest); reflexivity.
Qed.

Lemma delete_tickets_shadow method path p :
  String.eqb path ("/tickets/" +:+ p) && String.eqb method "DELETE" = true →
  String.prefix "/tickets/" path && String.eqb method "DELETE" = false → False.
Proof.
  intros H1 H2. apply andb_true_iff in H1 as [Hp Hm].
  apply prefix_eqb, prefix_app in Hp. rewrite Hp, Hm in H2. discriminate.
Qed.

(** X18. The router never passes a request to [clearAllTickets] or
    [clearTicketsByStatus]: [DELETE /tickets/clear/all] and
    [DELETE /tickets/clear/status] are taken by the case of
    [DELETE /tickets/...] and reach [deleteTicket] with the id ["clear"]. *)
Theorem clear_routes_are_shadowed method path :
  Router.dispatch method path ≠ Router.ClearAllTickets
  ∧ Router.dispatch method path ≠ Router.ClearTicketsByStatus
  ∧ Router.dispatch "DELETE" "/tickets/clear/all" = Router.DeleteTicket (Some "clear")
  ∧ Router.dispatch "DELETE" "/tickets/clear/status" = Router.DeleteTicket (Some "clear").
Proof.
  split; [|split; [|split; reflexivity]].
  - dispatch_cases. exfalso. eapply (delete_tickets_shadow method path "clear/all"); eassumption.
  - dispatch_cases. exfalso.
    eapply (delete_tickets_shadow method path "clear/status"); eassumption.
Qed.

(** * The ticket desk *)

Section DeskProperties.

Context {AnalysisResult : Type}.

Implicit Types (st : Tickets.Store AnalysisResult) (tk : Tickets.Ticket AnalysisResult).

Lemma validateAdmin_spec now token st :
  (fst (Tickets.validateAdmin now token st) = true ↔ admin_valid now token st)
  ∧ Tickets.tickets (snd (Tickets.validateAdmin now token st)) = Tickets.tickets st
  ∧ (fst (Tickets.validateAdmin now token st) = true →
     snd (Tickets.validateAdmin now token st) = st).
Proof.
  unfold Tickets.validateAdmin, admin_valid.
  destruct token as [tok|]; cbn [truthy_opt negb default from_option id].
  2:{ split; [|split; [reflexivity | discriminate]].
      split; [discriminate | intros (? & ? & ? & _); discriminate]. }
  destruct (truthy tok) eqn:Ht; cbn [negb].
  2:{ apply truthy_false_iff in Ht. subst tok.
      split; [|split; [reflexivity | discriminate]].
      split; [discriminate | intros (? & ? & [= <-] & ? & _); congruence]. }
  destruct (Tickets.adminSessions st !! tok) as [exp|] eqn:Hs.
  2:{ split; [|split; [reflexivity | discriminate]].
      split; [discriminate | intros (? & ? & [= <-] & ? & ? & _); congruence]. }
  destruct (truthy_num exp) eqn:He; cbn [negb].
  2:{ apply truthy_num_false_iff in He. subst exp.
      split; [|split; [reflexivity | discriminate]].
      split; [discriminate | intros (? & ? & [= <-] & ? & ? & ? & _); congruence]. }
  destruct (Z.gtb_spec now exp) as [Hgt|Hle]; cbn [fst snd].
  - split; [|split; [reflexivity | discriminate]].
    split; [discriminate | intros (? & ? & [= <-] & ? & ? & ? & ?)].
    assert (x0 = exp) by congruence. lia.
  - split; [|split; reflexivity].
    split; [intros _ | reflexivity].
    exists tok, exp. repeat split; try assumption.
    + apply truthy_iff. exact Ht.
    + unfold truthy_num in He. apply negb_true_iff, Z.eqb_neq in He. exact He.
Qed.

Lemma validateAdmin_cases now token st :
  (admin_valid now token st ∧ Tickets.validateAdmin now token st = (true, st))
  ∨ (¬ admin_valid now token st
     ∧ ∃ st1, Tickets.validateAdmin now token st = (false, st1)
              ∧ Tickets.tickets st1 = Tickets.tickets st).
Proof.
  destruct (validateAdmin_spec now token st) as (Hiff & Ht & Hsame).
  destruct (Tickets.validateAdmin now token st) as [[|] st1] eqn:Hv; cbn [fst snd] in *.
  - left. split; [now apply Hiff|]. now rewrite Hsame.
  - right. split; [intros Hv'; apply Hiff in Hv'; discriminate|]. eauto.
Qed.

(** X19. A successful admin login opens a session of eight hours under the
    token drawn for it: up to the expiry every validation of the token
    succeeds and leaves the sessions alone; the first validation after the
    expiry fails and deletes the session, after which the token is refused at
    any time. *)
Theorem admin_session_lifetime user pass e u p st tok exp st' t :
  Tickets.adminLogin user pass e u p st = (Tickets.Session tok exp, st') →
  Tickets.token e ≠ "" → 0 ≤ Tickets.now e →
  tok = Tickets.token e ∧ exp = Tickets.now e + 28800000
  ∧ Tickets.tickets st' = Tickets.tickets st
  ∧ (t ≤ exp → Tickets.validateAdmin t (Some tok) st' = (true, st'))
  ∧ (exp < t →
     ∃ st'', Tickets.validateAdmin t (Some tok) st' = (false, st'')
       ∧ Tickets.adminSessions st'' !! tok = None
       ∧ ∀ t', Tickets.validateAdmin t' (Some tok) st'' = (false, st'')).
Proof.
  unfold Tickets.adminLogin, Tickets.createAdminSession.
  destruct (negb _ || negb _); [discriminate|].
  intros [= <- <- <-] Htok Hnow.
  assert (truthy (Tickets.token e) = true) as Htr by now apply truthy_iff.
  assert (truthy_num (Tickets.now e + 8 * 60 * 60 * 1000) = true) as Hex.
  { unfold truthy_num. apply negb_true_iff, Z.eqb_neq. lia. }
  split; [reflexivity|]. split; [lia|]. split; [reflexivity|].
  unfold Tickets.validateAdmin. cbn [truthy_opt default from_option id].
  rewrite Htr. cbn [negb Tickets.adminSessions Tickets.set_adminSessions].
  rewrite lookup_insert_eq, Hex. cbn [negb].
  split.
  - intros Hle. destruct (Z.gtb_spec t (Tickets.now e + 8 * 60 * 60 * 1000)); [lia|].
    reflexivity.
  - intros Hlt. destruct (Z.gtb_spec t (Tickets.now e + 8 * 60 * 60 * 1000)); [|lia].
    eexists. split; [reflexivity|]. cbn [Tickets.adminSessions Tickets.tickets].
    split; [apply lookup_delete_eq|].
    intros t'. cbn [Tickets.adminSessions Tickets.set_adminSessions].
    rewrite lookup_delete_eq. reflexivity.
Qed.

End DeskProperties.

Lemma admin_session_lifetime_witness :
  Tickets.validateAdmin 28800005 (Some "t0k3n")
    (snd (Tickets.adminLogin None None (Tickets.mkEnv 5 "id-5" "t0k3n" true)
            (Some "admin") (Some "admin") demo_desk))
  = (true, snd (Tickets.adminLogin None None (Tickets.mkEnv 5 "id-5" "t0k3n" true)
                  (Some "admin") (Some "admin") demo_desk)).
Proof.
  destruct (admin_session_lifetime None None (Tickets.mkEnv 5 "id-5" "t0k3n" true)
              (Some "admin") (Some "admin") demo_desk "t0k3n" 28800005
              (snd (Tickets.adminLogin None None (Tickets.mkEnv 5 "id-5" "t0k3n" true)
                      (Some "admin") (Some "admin") demo_desk)) 28800005)
    as (_ & _ & _ & Hvalid & _).
  - reflexivity.
  - discriminate.
  - cbn. lia.
  - apply Hvalid. lia.
Defined.

Section DeskRoutes.

Context {AnalysisResult : Type}.

Implicit Types (st : Tickets.Store AnalysisResult) (tk : Tickets.Ticket AnalysisResult).

Lemma getTicketById_tickets id st st1 :
  Tickets.tickets st1 = Tickets.tickets st →
  Tickets.getTicketById id st1 = Tickets.getTicketById id st.
Proof. unfold Tickets.getTicketById. now intros ->. Qed.

Lemma owner_check queryWallet body walletAddress tk :
  Tickets.wallet_given queryWallet body = Some walletAddress →
  negb (truthy_opt walletAddress)
  || negb (Tickets.same_wallet (default "" walletAddress) tk)
  = false
  ↔ owner_of queryWallet body tk.
Proof.
  unfold owner_of, Tickets.same_wallet. intros ->.
  destruct walletAddress as [w|];
    cbn [truthy_opt default from_option id negb orb].
  2:{ split; [discriminate | intros (? & ? & _); discriminate]. }
  destruct (truthy w) eqn:Hw; cbn [negb orb].
  - apply truthy_iff in Hw.
    split.
    + intros H. apply negb_false_iff, String.eqb_eq in H. eauto.
    + intros (w' & [= <-] & _ & H). apply negb_false_iff, String.eqb_eq. exact H.
  - apply truthy_false_iff in Hw. subst w.
    split; [discriminate | intros (w' & [= <-] & H & _); congruence].
Qed.

(** X20. The tickets change only through an authorized request: creating
    a ticket is open to everyone, a status update and the two clear routes
    need the token of an unexpired admin session, and a deletion needs such a
    token or the wallet of the ticket (compared without case). Logging in,
    validating a session, listing and fetching never change a ticket. *)
Theorem ticket_changes_are_authorized user pass e r st :
  Tickets.tickets (snd (Tickets.serve user pass e r st)) ≠ Tickets.tickets st →
  authorized e r st.
Proof.
  intros Hchg. destruct r as [u p|tok|tok w|id|body|tok id body|tok id qw bw|tok|tok s];
    cbn [Tickets.serve authorized] in *.
  - exfalso. apply Hchg. unfold Tickets.adminLogin, Tickets.createAdminSession.
    destruct (negb _ || negb _); reflexivity.
  - exfalso. apply Hchg. unfold Tickets.validateAdminSession.
    destruct (validateAdmin_spec (Tickets.now e) tok st) as (_ & Ht & _).
    destruct (Tickets.validateAdmin _ _ _) as [[|] st1]; exact Ht.
  - exfalso. apply Hchg. unfold Tickets.listTickets.
    destruct (validateAdmin_spec (Tickets.now e) tok st) as (_ & Ht & _).
    destruct (Tickets.validateAdmin _ _ _) as [[|] st1]; cbn [negb snd] in *;
      repeat match goal with |- context [if ?c then _ else _] => destruct c end; exact Ht.
  - exfalso. apply Hchg. unfold Tickets.getTicket.
    destruct (Tickets.getTicketById id st); reflexivity.
  - exact I.
  - destruct (validateAdmin_cases (Tickets.now e) tok st) as [[Hv _]|(_ & st1 & Hv & Ht)];
      [exact Hv|].
    exfalso. apply Hchg. unfold Tickets.updateTicketStatus. rewrite Hv. exact Ht.
  - destruct (validateAdmin_cases (Tickets.now e) tok st) as [[Hv _]|(_ & st1 & Hv & Ht)];
      [left; exact Hv|].
    unfold Tickets.deleteTicketRoute in Hchg. rewrite Hv in Hchg.
    rewrite (getTicketById_tickets id st st1 Ht) in Hchg.
    destruct (Tickets.getTicketById id st) as [tk|] eqn:Hfind; [|contradiction].
    destruct (Tickets.wallet_given qw bw) as [wa|] eqn:Hw; [|contradiction].
    cbn [negb andb] in Hchg.
    destruct (negb (truthy_opt _) || negb (Tickets.same_wallet _ tk)) eqn:Ho;
      [contradiction|].
    right. exists tk. split; [reflexivity|]. now apply (owner_check qw bw wa).
  - destruct (validateAdmin_cases (Tickets.now e) tok st) as [[Hv _]|(_ & st1 & Hv & Ht)];
      [exact Hv|].
    exfalso. apply Hchg. unfold Tickets.clearAllTickets. rewrite Hv. exact Ht.
  - destruct (validateAdmin_cases (Tickets.now e) tok st) as [[Hv _]|(_ & st1 & Hv & Ht)];
      [exact Hv|].
    exfalso. apply Hchg. unfold Tickets.clearTicketsByStatus. rewrite Hv. exact Ht.
Qed.

Lemma apply_action_id now body tk :
  Tickets.t_id (Tickets.apply_action now body tk) = Tickets.t_id tk.
Proof.
  unfold Tickets.apply_action.
  repeat match goal with |- context [if ?c then _ else _] => destruct c end; reflexivity.
Qed.

Lemma find_update_first id f (all : list (Tickets.Ticket AnalysisResult)) :
  (∀ tk, Tickets.t_id (f tk) = Tickets.t_id tk) →
  List.find (fun t => String.eqb (Tickets.t_id t) id) (Tickets.update_first id f all)
  = f <$> List.find (fun t => String.eqb (Tickets.t_id t) id) all.
Proof.
  intros Hid. induction all as [|t rest IH]; [reflexivity|]. cbn.
  destruct (String.eqb (Tickets.t_id t) id) eqn:E; cbn.
  - now rewrite Hid, E.
  - now rewrite E.
Qed.

Lemma find_update_first_ne id id' f (all : list (Tickets.Ticket AnalysisResult)) :
  (∀ tk, Tickets.t_id (f tk) = Tickets.t_id tk) → id' ≠ id →
  List.find (fun t => String.eqb (Tickets.t_id t) id') (Tickets.update_first id f all)
  = List.find (fun t => String.eqb (Tickets.t_id t) id') all.
Proof.
  intros Hid Hne. induction all as [|t rest IH]; [reflexivity|]. cbn.
  destruct (String.eqb (Tickets.t_id t) id) eqn:E; cbn.
  - rewrite Hid. apply String.eqb_eq in E.
    destruct (String.eqb (Tickets.t_id t) id') eqn:E'; [|reflexivity].
    apply String.eqb_eq in E'. congruence.
  - now rewrite IH.
Qed.

Lemma map_id_update_first id f (all : list (Tickets.Ticket AnalysisResult)) :
  (∀ tk, Tickets.t_id (f tk) = Tickets.t_id tk) →
  map Tickets.t_id (Tickets.update_first id f all) = map Tickets.t_id all.
Proof.
  intros Hid. induction all as [|t rest IH]; [reflexivity|]. cbn.
  destruct (String.eqb (Tickets.t_id t) id); cbn; [now rewrite Hid | now rewrite IH].
Qed.

(** X21. With the token of an unexpired admin session, a status update of
    an existing ticket rewrites the first ticket of that id and answers it:
    [approve] and [reject] set the status whatever it was before (a rejected
    ticket can be approved, an approved one rejected), every action stamps
    [updatedAt]; the ids in the store and every ticket of another id stay as
    they were. If the write of the file fails the request is left unanswered
    but the ticket is updated all the same. *)
Theorem status_update_overrides_previous_status e adminToken id body st tk :
  admin_valid (Tickets.now e) adminToken st →
  Tickets.getTicketById id st = Some tk →
  let out := Tickets.updateTicketStatus e adminToken id body st in
  let tk' := Tickets.apply_action (Tickets.now e) body tk in
  fst out = (if Tickets.disk e then Tickets.OkTicket 200 (Some tk')
             else Tickets.Unhandled "write failed")
  ∧ Tickets.getTicketById id (snd out) = Some tk'
  ∧ map Tickets.t_id (Tickets.tickets (snd out)) = map Tickets.t_id (Tickets.tickets st)
  ∧ (∀ id', id' ≠ id → Tickets.getTicketById id' (snd out) = Tickets.getTicketById id' st)
  ∧ (Tickets.u_action body = "approve" → Tickets.t_status tk' = Tickets.approved)
  ∧ (Tickets.u_action body = "reject" → Tickets.t_status tk' = Tickets.rejected)
  ∧ Tickets.adminSessions (snd out) = Tickets.adminSessions st.
Proof.
  intros Hv Hfind out tk'. subst out.
  destruct (validateAdmin_cases (Tickets.now e) adminToken st) as [[_ Hval]|[Hn _]];
    [|contradiction].
  unfold Tickets.updateTicketStatus. rewrite Hval. cbn [negb]. rewrite Hfind.
  unfold Tickets.updateTicket. rewrite Hfind.
  unfold Tickets.saveTickets, Tickets.unhandled.
  set (f := Tickets.apply_action (Tickets.now e) body).
  assert (∀ t0, Tickets.t_id (f t0) = Tickets.t_id t0) as Hid
    by (intros t0; apply apply_action_id).
  assert (Tickets.getTicketById id
            (Tickets.set_tickets (Tickets.update_first id f (Tickets.tickets st)) st)
          = Some tk') as Hnew.
  { unfold Tickets.getTicketById in *. cbn [Tickets.tickets Tickets.set_tickets].
    rewrite (find_update_first id f _ Hid), Hfind. reflexivity. }
  destruct (Tickets.disk e); cbn [fst snd]; rewrite ?Hnew;
    (split; [reflexivity|]); (split; [first [exact Hnew | reflexivity]|]);
    (split; [apply (map_id_update_first id f _ Hid)|]);
    (split; [intros id' Hne; unfold Tickets.getTicketById;
             apply (find_update_first_ne id id' f _ Hid Hne)|]);
    (split; [intros Ha; subst tk'; unfold Tickets.apply_action; rewrite Ha; reflexivity|]);
    (split; [intros Ha; subst tk'; unfold Tickets.apply_action; rewrite Ha; reflexivity
            | reflexivity]).
Qed.

End DeskRoutes.

Lemma ticket_changes_are_authorized_witness :
  authorized (Tickets.mkEnv 20 "t-2" "t0k3n" true)
             (Tickets.DeleteTicket None "t-1" (Some "0xABC") None) demo_desk.
Proof.
  apply (ticket_changes_are_authorized None None).
  vm_compute. discriminate.
Defined.

Lemma status_update_overrides_previous_status_witness :
  fst (Tickets.updateTicketStatus (Tickets.mkEnv 20 "t-2" "t0k3n" true) (Some "s3cr3t") "t-1"
         (Tickets.mkUpdateTicketRequest "reject" None) demo_desk)
  = Tickets.OkTicket 200
      (Some (Tickets.mkTicket "t-1" "0xAbC" "uid-a" "a@x.com" "QmReport" "report.pdf"
                              "analysis" Tickets.rejected None 10 20)).
Proof.
  refine (proj1 (status_update_overrides_previous_status
                   (Tickets.mkEnv 20 "t-2" "t0k3n" true) (Some "s3cr3t") "t-1"
                   (Tickets.mkUpdateTicketRequest "reject" None) demo_desk demo_ticket _ _)).
  - exists "s3cr3t", 1000. repeat split; try discriminate; try reflexivity; try (cbn; lia).
  - reflexivity.
Defined.

Section DeskDeletion.

Context {AnalysisResult : Type}.

Implicit Types (st : Tickets.Store AnalysisResult) (tk : Tickets.Ticket AnalysisResult).

Lemma length_remove_first id (all : list (Tickets.Ticket AnalysisResult)) tk :
  List.find (fun t => String.eqb (Tickets.t_id t) id) all = Some tk →
  S (length (Tickets.remove_first id all)) = length all.
Proof.
  induction all as [|t rest IH]; [discriminate|]. cbn.
  destruct (String.eqb (Tickets.t_id t) id); [reflexivity|].
  intros H. cbn. now rewrite IH.
Qed.

Lemma find_remove_first_ne id id' (all : list (Tickets.Ticket AnalysisResult)) :
  id' ≠ id →
  List.find (fun t => String.eqb (Tickets.t_id t) id') (Tickets.remove_first id all)
  = List.find (fun t => String.eqb (Tickets.t_id t) id') all.
Proof.
  intros Hne. induction all as [|t rest IH]; [reflexivity|]. cbn.
  destruct (String.eqb (Tickets.t_id t) id) eqn:E; cbn.
  - apply String.eqb_eq in E.
    destruct (String.eqb (Tickets.t_id t) id') eqn:E'; [|reflexivity].
    apply String.eqb_eq in E'. congruence.
  - now rewrite IH.
Qed.

(** X22. A deletion is decided by the ticket and the requester: an unknown
    id is answered 404.  For a known ticket, a request that names no wallet
    in its query and has no body is answered 500, with the tickets
    untouched, whoever sends it, an admin included: reading the wallet of
    the missing body raises before the requester is looked at.  Otherwise
    the ticket is removed exactly when the request carries the token of an
    unexpired admin session or the ticket's wallet (compared without case),
    and is otherwise answered 401 with the tickets untouched.  The removal
    takes the first ticket of that id only, and happens even when the write
    of the file fails and the answer is 500. *)
Theorem delete_needs_admin_or_owner e adminToken id queryWallet body st :
  let out := Tickets.deleteTicketRoute e adminToken id queryWallet body st in
  (Tickets.getTicketById id st = None →
   fst out = Tickets.Err 404 "Not found" ∧ Tickets.tickets (snd out) = Tickets.tickets st)
  ∧ (∀ tk, Tickets.getTicketById id st = Some tk →
       Tickets.wallet_given queryWallet body = None →
       fst out = Tickets.Err 500 Tickets.no_body
       ∧ Tickets.tickets (snd out) = Tickets.tickets st)
  ∧ (∀ tk, Tickets.getTicketById id st = Some tk →
       Tickets.wallet_given queryWallet body ≠ None →
       ¬ (admin_valid (Tickets.now e) adminToken st ∨ owner_of queryWallet body tk) →
       fst out = Tickets.Err 401 "Unauthorized"
       ∧ Tickets.tickets (snd out) = Tickets.tickets st)
  ∧ (∀ tk, Tickets.getTicketById id st = Some tk →
       Tickets.wallet_given queryWallet body ≠ None →
       admin_valid (Tickets.now e) adminToken st ∨ owner_of queryWallet body tk →
       fst out = (if Tickets.disk e then Tickets.Success else Tickets.Err 500 "write failed")
       ∧ Tickets.tickets (snd out) = Tickets.remove_first id (Tickets.tickets st)
       ∧ S (length (Tickets.tickets (snd out))) = length (Tickets.tickets st)
       ∧ ∀ id', id' ≠ id →
           Tickets.getTicketById id' (snd out) = Tickets.getTicketById id' st).
Proof.
  intros out. subst out. unfold Tickets.deleteTicketRoute.
  destruct (validateAdmin_cases (Tickets.now e) adminToken st)
    as [[Hv Hval]|(Hn & st1 & Hval & Ht)]; rewrite Hval.
  - split; [intros Hnone; rewrite Hnone; split; reflexivity|].
    split; [intros tk Hfind Hw; rewrite Hfind, Hw; split; reflexivity|].
    split; [intros tk Hfind _ Hno; exfalso; apply Hno; left; exact Hv|].
    intros tk Hfind Hw _. rewrite Hfind.
    destruct (Tickets.wallet_given queryWallet body) as [wa|]; [|congruence].
    cbn [negb andb].
    unfold Tickets.deleteTicket. rewrite Hfind. unfold Tickets.saveTickets.
    destruct (Tickets.disk e); cbn [fst snd negb Tickets.tickets Tickets.set_tickets];
      (split; [reflexivity|]); (split; [reflexivity|]);
      (split; [apply (length_remove_first id _ tk Hfind)|]);
      intros id' Hne; apply (find_remove_first_ne id id' _ Hne).
  - rewrite (getTicketById_tickets id st st1 Ht).
    split; [intros Hnone; rewrite Hnone; split; [reflexivity | exact Ht]|].
    split; [intros tk Hfind Hw; rewrite Hfind, Hw; split; [reflexivity | exact Ht]|].
    split.
    + intros tk Hfind Hw Hno. rewrite Hfind.
      destruct (Tickets.wallet_given queryWallet body) as [wa|] eqn:Hwa; [|congruence].
      cbn [negb andb].
      destruct (negb (truthy_opt _) || negb (Tickets.same_wallet _ tk)) eqn:Ho.
      * split; [reflexivity | exact Ht].
      * exfalso. apply Hno. right. now apply (owner_check queryWallet body wa).
    + intros tk Hfind Hw [Hv|Ho]; [contradiction|].
      rewrite Hfind.
      destruct (Tickets.wallet_given queryWallet body) as [wa|] eqn:Hwa; [|congruence].
      cbn [negb andb].
      apply (owner_check queryWallet body wa tk Hwa) in Ho. rewrite Ho.
      unfold Tickets.deleteTicket. rewrite (getTicketById_tickets id st st1 Ht), Hfind.
      unfold Tickets.saveTickets.
      destruct (Tickets.disk e); cbn [fst snd negb Tickets.tickets Tickets.set_tickets];
        rewrite Ht;
        (split; [reflexivity|]); (split; [reflexivity|]);
        (split; [apply (length_remove_first id _ tk Hfind)|]);
        intros id' Hne; apply (find_remove_first_ne id id' _ Hne).
Qed.

(** X23. Without the token of an unexpired admin session the list route
    answers exactly the tickets of the wallet it is asked for, compared
    without case, and refuses a request that names no wallet; an expired or
    unknown token is treated like no token, not refused. A valid admin naming
    no wallet is answered every ticket. Listing changes no ticket. *)
Theorem list_shows_only_own_tickets e adminToken walletAddress st :
  let out := Tickets.listTickets e adminToken walletAddress st in
  Tickets.tickets (snd out) = Tickets.tickets st
  ∧ (¬ admin_valid (Tickets.now e) adminToken st →
     (truthy_opt walletAddress = false → fst out = Tickets.Err 400 "walletAddress required")
     ∧ ∀ w, walletAddress = Some w → w ≠ "" →
         ∃ ts, fst out = Tickets.OkTickets ts
               ∧ ∀ tk, In tk ts ↔ In tk (Tickets.tickets st)
                                  ∧ toLowerCase (Tickets.t_walletAddress tk) = toLowerCase w)
  ∧ (admin_valid (Tickets.now e) adminToken st → truthy_opt walletAddress = false →
     fst out = Tickets.OkTickets (Tickets.tickets st)).
Proof.
  intros out. subst out. unfold Tickets.listTickets.
  destruct (validateAdmin_cases (Tickets.now e) adminToken st)
    as [[Hv Hval]|(Hn & st1 & Hval & Ht)]; rewrite Hval; cbn [negb].
  - split; [destruct (truthy _); reflexivity|].
    split; [intros Hno; contradiction|].
    intros _ Hw. rewrite Hw. reflexivity.
  - split; [destruct (negb (truthy _)); exact Ht|].
    split; [|intros Hv; contradiction].
    intros _. split.
    + intros Hw. rewrite Hw. reflexivity.
    + intros w -> Hne. apply truthy_iff in Hne. cbn [truthy_opt default from_option id].
      rewrite Hne. cbv iota. rewrite Hne. cbn [negb fst]. eexists. split; [reflexivity|].
      intros tk. rewrite filter_In. unfold Tickets.same_wallet.
      split; intros [Hin Hw]; (split; [exact Hin|]);
        [apply String.eqb_eq; exact Hw | apply String.eqb_eq in Hw; exact Hw].
Qed.

(** X24. With the token of an unexpired admin session, clearing by status
    keeps exactly the tickets of another status; the two counts it answers
    add up to the number of tickets there were, and a status name that no
    ticket can have clears nothing. *)
Theorem clear_by_status_counts e adminToken s st :
  admin_valid (Tickets.now e) adminToken st → s ≠ "" → Tickets.disk e = true →
  ∃ c r st', Tickets.clearTicketsByStatus e adminToken (Some s) st
             = (Tickets.Cleared c (Some r), st')
    ∧ c + r = Z.of_nat (length (Tickets.tickets st))
    ∧ 0 ≤ c
    ∧ r = Z.of_nat (length (Tickets.tickets st'))
    ∧ (∀ tk, In tk (Tickets.tickets st')
             ↔ In tk (Tickets.tickets st) ∧ Tickets.status_name (Tickets.t_status tk) ≠ s)
    ∧ (s ≠ "pending" → s ≠ "approved" → s ≠ "rejected" →
       Tickets.tickets st' = Tickets.tickets st ∧ c = 0).
Proof.
  intros Hv Hs Hd.
  destruct (validateAdmin_cases (Tickets.now e) adminToken st) as [[_ Hval]|[Hn _]];
    [|contradiction].
  unfold Tickets.clearTicketsByStatus. rewrite Hval. cbn [negb truthy_opt].
  apply truthy_iff in Hs. rewrite Hs. cbn [negb default from_option id].
  unfold Tickets.saveTickets. rewrite Hd.
  set (keep := fun t : Tickets.Ticket AnalysisResult =>
                 negb (String.eqb (Tickets.status_name (Tickets.t_status t)) s)).
  do 3 eexists. split; [reflexivity|]. cbn [Tickets.tickets Tickets.set_tickets].
  pose proof (filter_length_le keep (Tickets.tickets st)) as Hle.
  split; [lia|]. split; [lia|]. split; [reflexivity|].
  split.
  - intros tk. rewrite filter_In. unfold keep.
    split; intros [Hin Hk]; (split; [exact Hin|]).
    + apply negb_true_iff, String.eqb_neq in Hk. exact Hk.
    + apply negb_true_iff, String.eqb_neq. exact Hk.
  - intros H1 H2 H3.
    assert (List.filter keep (Tickets.tickets st) = Tickets.tickets st) as Hall.
    { induction (Tickets.tickets st) as [|t rest IH]; [reflexivity|]. cbn.
      assert (keep t = true) as ->.
      { unfold keep. apply negb_true_iff, String.eqb_neq.
        destruct (Tickets.t_status t); cbn; congruence. }
      f_equal. apply IH. cbn in Hle.
      apply filter_length_le. }
    rewrite Hall. split; [reflexivity | lia].
Qed.

(** X25. A ticket request with all its fields creates a pending ticket in
    front of the store, stamped with the time of the request; fetching the id
    it was given answers that ticket, also when an older ticket has the same
    id. If the write of the file fails the request is left unanswered, but
    the ticket is in the store all the same. *)
Theorem created_ticket_is_pending_and_found e body analysis st :
  Tickets.c_analysis body = Some analysis →
  Tickets.c_walletAddress body ≠ "" → Tickets.c_reportCid body ≠ "" →
  Tickets.c_reportName body ≠ "" → Tickets.c_userId body ≠ "" →
  Tickets.c_userEmail body ≠ "" →
  let ticket :=
    Tickets.mkTicket (Tickets.uuid e) (Tickets.c_walletAddress body) (Tickets.c_userId body)
                     (Tickets.c_userEmail body) (Tickets.c_reportCid body)
                     (Tickets.c_reportName body) analysis Tickets.pending None
                     (Tickets.now e) (Tickets.now e) in
  let out := Tickets.createTicket e body st in
  fst out = (if Tickets.disk e then Tickets.OkTicket 201 (Some ticket)
             else Tickets.Unhandled "write failed")
  ∧ Tickets.tickets (snd out) = ticket :: Tickets.tickets st
  ∧ Tickets.adminSessions (snd out) = Tickets.adminSessions st
  ∧ Tickets.getTicket (Tickets.uuid e) (snd out) = (Tickets.OkTicket 200 (Some ticket), snd out).
Proof.
  intros Ha Hw Hc Hn Hu He ticket out. subst out.
  unfold Tickets.createTicket. rewrite Ha.
  apply truthy_iff in Hw, Hc, Hn, Hu, He. rewrite Hw, Hc, Hn, Hu, He. cbn [negb orb].
  unfold Tickets.addTicket, Tickets.saveTickets, Tickets.unhandled. fold ticket.
  assert (Tickets.getTicket (Tickets.uuid e)
            (Tickets.set_tickets (ticket :: Tickets.tickets st) st)
          = (Tickets.OkTicket 200 (Some ticket),
             Tickets.set_tickets (ticket :: Tickets.tickets st) st)) as Hget.
  { unfold Tickets.getTicket, Tickets.getTicketById. cbn. rewrite String.eqb_refl.
    reflexivity. }
  destruct (Tickets.disk e); cbn [fst snd]; repeat split; exact Hget.
Qed.

End DeskDeletion.

Lemma delete_needs_admin_or_owner_witness :
  fst (Tickets.deleteTicketRoute (Tickets.mkEnv 20 "t-2" "t0k3n" true) None "t-1"
         (Some "0xABC") None demo_desk) = Tickets.Success
  ∧ Tickets.tickets
      (snd (Tickets.deleteTicketRoute (Tickets.mkEnv 20 "t-2" "t0k3n" true) None "t-1"
              (Some "0xABC") None demo_desk)) = [].
Proof.
  destruct (delete_needs_admin_or_owner (Tickets.mkEnv 20 "t-2" "t0k3n" true) None "t-1"
              (Some "0xABC") None demo_desk) as (_ & _ & _ & Hok).
  destruct (Hok demo_ticket eq_refl) as (Hresp & Htickets & _).
  - discriminate.
  - right. exists "0xABC". repeat split; try discriminate; reflexivity.
  - split; [exact Hresp | exact Htickets].
Defined.

Lemma clear_by_status_counts_witness :
  ∃ c r st', Tickets.clearTicketsByStatus (Tickets.mkEnv 20 "t-2" "t0k3n" true)
               (Some "s3cr3t") (Some "pending") demo_desk
             = (Tickets.Cleared c (Some r), st')
             ∧ c + r = 1.
Proof.
  destruct (clear_by_status_counts (Tickets.mkEnv 20 "t-2" "t0k3n" true) (Some "s3cr3t")
              "pending" demo_desk) as (c & r & st' & Hrun & Hsum & _).
  - exists "s3cr3t", 1000. repeat split; try discriminate; try reflexivity; try (cbn; lia).
  - discriminate.
  - reflexivity.
  - exists c, r, st'. split; [exact Hrun | exact Hsum].
Defined.

Lemma created_ticket_is_pending_and_found_witness :
  Tickets.tickets
    (snd (Tickets.createTicket (Tickets.mkEnv 20 "t-1" "t0k3n" true)
            (Tickets.mkCreateTicketRequest "0xDeF" "QmOther" "other.pdf" (Some "analysis")
                                           "uid-d" "d@x.com") demo_desk))
  = [Tickets.mkTicket "t-1" "0xDeF" "uid-d" "d@x.com" "QmOther" "other.pdf" "analysis"
                      Tickets.pending None 20 20; demo_ticket].
Proof.
  refine (proj1 (proj2 (created_ticket_is_pending_and_found
                          (Tickets.mkEnv 20 "t-1" "t0k3n" true)
                          (Tickets.mkCreateTicketRequest "0xDeF" "QmOther" "other.pdf"
                                                         (Some "analysis") "uid-d" "d@x.com")
                          "analysis" demo_desk _ _ _ _ _ _))); try discriminate.
  reflexivity.
Defined.

(** * The serverless ticket desk *)

Section ServerlessDesk.

Context {AnalysisResult : Type}.

Implicit Types (st : Serverless.State AnalysisResult) (tk : Tickets.Ticket AnalysisResult).

(** X26. The serverless deletion of a known ticket succeeds in exactly two
    cases: the request carries an admin token whose session has not expired,
    or it carries no admin token and names the ticket's wallet letter for
    letter. A request with a stale admin token is refused with 401 even when
    it names the owner's wallet. A successful deletion removes the first
    ticket of that id; a refused one changes nothing. *)
Theorem serverless_delete_authorization now adminToken walletAddress id st tk :
  Serverless.find_ticket id st = Some tk →
  let out := Serverless.handleDeleteTicket now adminToken walletAddress id st in
  (fst out = Serverless.Success
   ↔ (truthy_opt adminToken = true
      ∧ Serverless.session_ok now (default "" adminToken) st = true)
     ∨ (truthy_opt adminToken = false
        ∧ walletAddress = Some (Tickets.t_walletAddress tk)
        ∧ Tickets.t_walletAddress tk ≠ ""))
  ∧ (fst out = Serverless.Success →
     Serverless.tickets (snd out) = Tickets.remove_first id (Serverless.tickets st)
     ∧ Serverless.sessions (snd out) = Serverless.sessions st)
  ∧ (fst out ≠ Serverless.Success → snd out = st)
  ∧ (truthy_opt adminToken = true →
     Serverless.session_ok now (default "" adminToken) st = false →
     fst out = Serverless.Err 401 "Invalid or expired admin token").
Proof.
  intros Hfind out. subst out. unfold Serverless.handleDeleteTicket. rewrite Hfind.
  destruct (truthy_opt adminToken) eqn:Hadmin.
  - destruct (Serverless.session_ok now (default "" adminToken) st) eqn:Hs; cbn [negb fst snd].
    + split; [split; [intros _; left; split; reflexivity | reflexivity]|].
      split; [intros _; split; reflexivity|]. split; [congruence | discriminate].
    + split; [split; [discriminate | intros [[_ H]|[H _]]; discriminate]|].
      split; [discriminate|]. split; reflexivity.
  - destruct walletAddress as [w|]; cbn [truthy_opt default from_option Datatypes.id andb].
    2:{ cbn [fst snd].
        split; [split; [discriminate | intros [[H _]|(_ & H & _)]; discriminate]|].
        split; [discriminate|]. split; [reflexivity | discriminate]. }
    destruct (truthy w) eqn:Hw; cbn [andb].
    + destruct (String.eqb (Tickets.t_walletAddress tk) w) eqn:He; cbn [fst snd].
      * apply String.eqb_eq in He. subst w.
        split; [split; [intros _; right; repeat split; now apply truthy_iff | reflexivity]|].
        split; [intros _; split; reflexivity|]. split; [congruence | discriminate].
      * apply String.eqb_neq in He.
        split; [split; [discriminate | intros [[H _]|(_ & [= H] & _)]; congruence]|].
        split; [discriminate|]. split; [reflexivity | discriminate].
    + apply truthy_false_iff in Hw. subst w. cbn [fst snd].
      split; [split; [discriminate | intros [[H _]|(_ & [= H] & Hne)]; congruence]|].
      split; [discriminate|]. split; [reflexivity | discriminate].
Qed.

Lemma truthy_admin_token (now : Z) rand :
  truthy ("admin_" +:+ pretty now +:+ "_" +:+ rand) = true.
Proof. rewrite append_cons. reflexivity. Qed.

(** X27. The serverless login opens a session exactly for the user
    [admin] with the password [admin123]; the session lasts 24 hours: up to
    the expiry the validation route accepts its token and leaves the sessions
    alone, after it the route answers 401 and deletes the session. *)
Theorem serverless_login_opens_a_day_session now rand username password st t :
  let out := Serverless.login now rand "POST" username password st in
  let tok := "admin_" +:+ pretty now +:+ "_" +:+ rand in
  ((∃ token exp, fst out = Serverless.Session token exp)
   ↔ username = Some "admin" ∧ password = Some "admin123")
  ∧ Serverless.tickets (snd out) = Serverless.tickets st
  ∧ (username = Some "admin" → password = Some "admin123" →
     fst out = Serverless.Session tok (now + 86400000)
     ∧ (t ≤ now + 86400000 →
        Serverless.validate t "GET" (Some tok) (snd out) = (Serverless.Valid, snd out))
     ∧ (now + 86400000 < t →
        fst (Serverless.validate t "GET" (Some tok) (snd out))
        = Serverless.Err 401 "Invalid or expired token"
        ∧ Serverless.sessions (snd (Serverless.validate t "GET" (Some tok) (snd out))) !! tok
          = None)).
Proof.
  intros out tok. subst out tok. unfold Serverless.login. cbn [String.eqb Ascii.eqb negb].
  cbn -[pretty Z.add Z.mul].
  destruct username as [u|], password as [p|]; cbn [truthy_opt negb orb];
    rewrite ?orb_true_r.
  all: try (split; [split; [intros (? & ? & H); discriminate
                           | intros [H1 H2]; discriminate]|];
            split; [reflexivity|]; discriminate).
  destruct (truthy u) eqn:Hu, (truthy p) eqn:Hp; cbn [negb orb].
  all: try (split; [split; [intros (? & ? & H); discriminate
                           | intros [[= ->] [= ->]]; discriminate]|];
            split; [reflexivity|]; intros [= ->] [= ->]; discriminate).
  destruct (decide (Some u = Some "admin")) as [Hua|Hua];
    [rewrite (bool_decide_eq_true_2 _ Hua) | rewrite (bool_decide_eq_false_2 _ Hua)];
    cbn [negb orb].
  2:{ split; [split; [intros (? & ? & H); discriminate | intros [H _]; contradiction]|].
      split; [reflexivity|]. intros H; contradiction. }
  destruct (decide (Some p = Some "admin123")) as [Hpa|Hpa];
    [rewrite (bool_decide_eq_true_2 _ Hpa) | rewrite (bool_decide_eq_false_2 _ Hpa)];
    cbn [negb orb fst snd].
  2:{ split; [split; [intros (? & ? & H); discriminate | intros [_ H]; contradiction]|].
      split; [reflexivity|]. intros _ H; contradiction. }
  split; [split; [intros _; split; assumption | intros _; eauto]|].
  split; [reflexivity|]. intros _ _.
  split; [f_equal; lia|].
  unfold Serverless.validate. cbn [String.eqb Ascii.eqb negb truthy_opt].
  cbn -[pretty Z.add Z.mul Z.gtb].
  rewrite (truthy_admin_token now rand). cbn [negb].
  unfold Serverless.session_ok. cbn [Serverless.sessions Serverless.set_sessions].
  rewrite lookup_insert_eq.
  split.
  - intros Hle. destruct (Z.gtb_spec t (now + 24 * 60 * 60 * 1000)); [lia|]. reflexivity.
  - intros Hlt. destruct (Z.gtb_spec t (now + 24 * 60 * 60 * 1000)); [|lia].
    cbn [negb fst snd Serverless.sessions Serverless.set_sessions].
    split; [reflexivity | apply lookup_delete_eq].
Qed.

(** X28. With the token of an unexpired session, the serverless status
    update of a known ticket rewrites the first ticket of that id and answers
    it: [approve] and [reject] set the status whatever it was, only [approve]
    stores a transaction hash, and every action, known or not, stamps
    [updatedAt]. Without such a token nothing changes. *)
Theorem serverless_status_update now adminToken id body st tk :
  Serverless.find_ticket id st = Some tk →
  let out := Serverless.handleUpdateTicket now adminToken id body st in
  let tk' := Serverless.update_action now body tk in
  (truthy_opt adminToken = true →
   Serverless.session_ok now (default "" adminToken) st = true →
   out = (Serverless.OkTicket 200 tk',
          Serverless.set_tickets (Tickets.update_first id (Serverless.update_action now body))
                                 st)
   ∧ Serverless.find_ticket id (snd out) = Some tk'
   ∧ Tickets.t_updatedAt tk' = now
   ∧ (Tickets.u_action body ≠ "approve" → Tickets.t_txHash tk' = Tickets.t_txHash tk)
   ∧ (Tickets.u_action body = "approve" → Tickets.t_status tk' = Tickets.approved)
   ∧ (Tickets.u_action body = "reject" → Tickets.t_status tk' = Tickets.rejected))
  ∧ (truthy_opt adminToken = false
     ∨ Serverless.session_ok now (default "" adminToken) st = false →
     snd out = st ∧ ∃ msg, fst out = Serverless.Err 401 msg).
Proof.
  intros Hfind out tk'. subst out. unfold Serverless.handleUpdateTicket.
  split.
  - intros Ha Hs. rewrite Ha, Hs, Hfind. cbn [negb].
    split; [reflexivity|]. cbn [snd].
    split.
    { unfold Serverless.find_ticket in *. cbn [Serverless.tickets Serverless.set_tickets].
      rewrite find_update_first by reflexivity. rewrite Hfind. reflexivity. }
    split; [reflexivity|].
    split.
    { intros Hne. apply String.eqb_neq in Hne. subst tk'. unfold Serverless.update_action.
      cbn. rewrite Hne. reflexivity. }
    split; intros Hact; subst tk'; unfold Serverless.update_action; cbn; rewrite Hact;
      reflexivity.
  - intros [Ha|Hs].
    + rewrite Ha. cbn [negb fst snd]. eauto.
    + destruct (truthy_opt adminToken); cbn [negb]; [rewrite Hs|]; cbn [negb fst snd]; eauto.
Qed.

End ServerlessDesk.

(** The serverless desk holding [demo_ticket], with the session [s3cr3t]
    that expires at 1000. *)
Lemma serverless_delete_authorization_witness :
  fst (Serverless.handleDeleteTicket 2000 (Some "s3cr3t") (Some "0xAbC") "t-1"
         (Serverless.mkState [demo_ticket] {["s3cr3t" := 1000]}))
  = Serverless.Err 401 "Invalid or expired admin token".
Proof.
  refine (proj2 (proj2 (proj2 (serverless_delete_authorization 2000 (Some "s3cr3t")
            (Some "0xAbC") "t-1" (Serverless.mkState [demo_ticket] {["s3cr3t" := 1000]})
            demo_ticket _))) _ _); reflexivity.
Defined.

Lemma serverless_status_update_witness :
  fst (Serverless.handleUpdateTicket 20 (Some "s3cr3t") "t-1"
         (Tickets.mkUpdateTicketRequest "setTxHash" (Some "0xhash"))
         (Serverless.mkState [demo_ticket] {["s3cr3t" := 1000]}))
  = Serverless.OkTicket 200
      (Tickets.mkTicket "t-1" "0xAbC" "uid-a" "a@x.com" "QmReport" "report.pdf" "analysis"
                        Tickets.pending None 10 20).
Proof.
  refine (f_equal fst (proj1 (proj1 (serverless_status_update 20 (Some "s3cr3t") "t-1"
            (Tickets.mkUpdateTicketRequest "setTxHash" (Some "0xhash"))
            (Serverless.mkState [demo_ticket] {["s3cr3t" := 1000]}) demo_ticket _) _ _)));
    reflexivity.
Defined.

(** * The edge purchase *)

Lemma agree_bind {A} (m : M A) (k1 : A → M (option Response)) (k2 : A → M Response) s :
  (∀ a s', agree (k1 a s') (k2 a s')) → agree (bind m k1 s) (bind m k2 s).
Proof.
  intros Hk. unfold bind. destruct (m s) as [[a|msg] s']; [apply Hk|].
  repeat split.
Qed.

Lemma agree_ret resp s : agree (ret (Some resp) s) (ret resp s).
Proof. repeat split. Qed.

Lemma pinJSON_cases s :
  ∃ r rest, pinJSON s = (r, mkSt (world s) rest)
    ∧ ∀ w', pinataCreds w' = pinataCreds (world s) →
            pinJSON (mkSt w' (net s)) = (r, mkSt w' rest).
Proof.
  destruct s as [w n]. unfold pinJSON. run_monad.
  destruct (pinataCreds w) eqn:Hc; simpl.
  - destruct n as [|[| |h] rest]; simpl; do 2 eexists;
      (split; [reflexivity|]); intros w' ->; reflexivity.
  - do 2 eexists. split; [reflexivity|]. intros w' ->. reflexivity.
Qed.

Lemma agree_tail s1 s2 resp order :
  net s1 = net s2 → cids_erase (world s1) = cids_erase (world s2) →
  agree
    ((let* _ := EdgeMarket.saveListings in
      let* _ := modify (set_orders (cons order)) in
      let* _ := EdgeMarket.saveOrders in
      ret (Some resp)) s1)
    ((let* _ := saveListings in
      let* _ := modify (set_orders (cons order)) in
      let* _ := saveOrders in
      ret resp) s2).
Proof.
  intros Hn He.
  assert (∀ (s1 s2 : St), net s1 = net s2 → cids_erase (world s1) = cids_erase (world s2) →
            ∃ r rest, pinJSON s1 = (r, mkSt (world s1) rest)
                      ∧ pinJSON s2 = (r, mkSt (world s2) rest)) as Hpin.
  { intros [w1 n1] [w2 n2] Hn' He'. cbn [net world] in *. subst n2.
    destruct (pinJSON_cases (mkSt w1 n1)) as (r & rest & H1 & H2).
    exists r, rest. split; [exact H1|]. apply H2.
    cbn [world]. symmetry. exact (f_equal pinataCreds He'). }
  unfold EdgeMarket.saveListings, EdgeMarket.saveOrders, saveListings, saveOrders.
  destruct (Hpin s1 s2 Hn He) as (r & rest & H1 & H2).
  unfold bind at 1. rewrite H1.
  unfold bind at 3. unfold bind at 3. rewrite H2.
  destruct r as [cid|msg]; [|repeat split; exact He].
  rewrite bind_modify. cbn [world net].
  set (t1 := mkSt (set_orders (cons order) (world s1)) rest).
  assert (∃ t2, (if truthy_opt cid then modify (set_listingsCid cid) else ret tt)
                  (mkSt (world s2) rest) = (Val tt, t2)
                ∧ net t2 = rest ∧ cids_erase (world t2) = cids_erase (world s2))
    as (t2 & Ht2 & Hn2 & He2).
  { destruct (truthy_opt cid); eexists; (split; [reflexivity|]); split; reflexivity. }
  rewrite Ht2, bind_modify.
  set (t3 := mkSt (set_orders (cons order) (world t2)) (net t2)).
  assert (cids_erase (world t1) = cids_erase (world t3)) as He3.
  { subst t1 t3. cbn [world].
    change (cids_erase (set_orders (cons order) (world s1)))
      with (set_orders (cons order) (cids_erase (world s1))).
    change (cids_erase (set_orders (cons order) (world t2)))
      with (set_orders (cons order) (cids_erase (world t2))).
    now rewrite He2, He. }
  assert (net t1 = net t3) as Hn3 by (subst t1 t3; cbn [net]; now rewrite Hn2).
  destruct (Hpin t1 t3 Hn3 He3) as (r' & rest' & H1' & H2').
  unfold bind at 1. rewrite H1'.
  unfold bind at 1. unfold bind at 1. rewrite H2'.
  destruct r' as [cid'|msg']; [|repeat split; exact He3].
  destruct (truthy_opt cid'); cbn; repeat split; exact He3.
Qed.

(** X29. The edge purchase handler answers a [POST] exactly as the
    Express route does on the same state and network: the same answer, and
    the same final state up to the two collection ids, which the edge
    handler never records. It answers [OPTIONS] with 204 and every other
    method with 405, in both cases without touching the state. *)
Theorem edge_buy_agrees_with_express e method req w :
  (method = "POST" →
   fst (EdgeMarket.serve e method req w) = Some (fst (serve e (BuyListing req) w))
   ∧ cids_erase (snd (EdgeMarket.serve e method req w))
     = cids_erase (snd (serve e (BuyListing req) w)))
  ∧ (method = "OPTIONS" → EdgeMarket.serve e method req w = (None, w))
  ∧ (method ≠ "POST" → method ≠ "OPTIONS" →
     EdgeMarket.serve e method req w = (Some (Err 405 "Method not allowed"), w)).
Proof.
  split; [|split].
  - intros ->.
    assert (agree (EdgeMarket.handler (now e) (uuid e) (rand e) "POST" req (mkSt w (replies e)))
                  (buyListing (now e) (uuid e) (rand e) req (mkSt w (replies e)))) as Hag.
    { unfold EdgeMarket.handler, buyListing. cbn [String.eqb Ascii.eqb negb].
      cbn -[getUserBalanceByEmailInternal updateUserBalanceByEmail saveListings saveOrders
            EdgeMarket.saveListings EdgeMarket.saveOrders toLowerCase truthy].
      destruct (negb (truthy (b_listingId req)) || negb (truthy (b_buyerEmail req))
                || negb (truthy (b_buyerWallet req)) || negb (truthy (b_signature req)));
        [apply agree_ret|].
      apply agree_bind. intros [listing|] s1; [|apply agree_ret].
      destruct (negb (bool_decide (l_status listing = active))); [apply agree_ret|].
      destruct (String.eqb (l_sellerEmail listing) (toLowerCase (b_buyerEmail req)));
        [apply agree_ret|].
      apply agree_bind. intros balBuyer s2.
      destruct (nullish (balBuyer ≫= rupeesBalance) 100 <? l_priceRupees listing);
        [apply agree_ret|].
      apply agree_bind. intros buyerBalance s3.
      apply agree_bind. intros sellerBalance s4.
      apply agree_bind. intros _ s5.
      apply agree_tail; reflexivity. }
    rewrite serve_buy. unfold EdgeMarket.serve.
    destruct Hag as (Hr & _ & He).
    destruct (EdgeMarket.handler _ _ _ _ _ _) as [r1 s1].
    destruct (buyListing _ _ _ _ _) as [r2 s2]. cbn [fst snd] in *.
    subst r1. destruct r2 as [resp|msg]; cbn [fst snd answer]; split; try reflexivity;
      exact He.
  - intros ->. reflexivity.
  - intros Hp Ho. unfold EdgeMarket.serve, EdgeMarket.handler.
    apply String.eqb_neq in Hp, Ho. rewrite Hp, Ho. reflexivity.
Qed.

(** ** Listing the collection *)

Lemma serve_list e status w :
  serve e (ListListings status) w
  = (OkListings (List.filter (fun l => String.eqb (status_name (l_status l))
                                                   (if truthy status then status else "active"))
                             (listings w)), w).
Proof. reflexivity. Qed.

Lemma filter_by_status (ls : list MarketplaceListing) :
  Forall wellformed ls →
  List.filter (fun l => String.eqb (status_name (l_status l)) "cancelled") ls = []
  ∧ (length (List.filter (fun l => String.eqb (status_name (l_status l)) "active") ls)
     + length (List.filter (fun l => String.eqb (status_name (l_status l)) "sold") ls)
     = length ls)%nat.
Proof.
  induction 1 as [|l ls Hl Hls [IHc IHn]]; [split; reflexivity|].
  destruct Hl as (_ & _ & _ & _ & _ & Hnc & _). cbn [List.filter].
  destruct (l_status l) eqn:Hst; [| |congruence]; cbn; (split; [exact IHc | lia]).
Qed.

(** X30. On a server that started empty the listing route sorts the
    collection into two answers: asked for no status or for [active] it
    answers the active listings, asked for [sold] the sold ones, every
    listing is in exactly one of the two, and asked for [cancelled] it answers
    nothing. The route changes nothing. *)
Theorem listing_answers_partition rs creds e :
  let w := serve_all rs (initial creds) in
  ∃ act sld,
    serve e (ListListings "") w = (OkListings act, w)
    ∧ serve e (ListListings "active") w = (OkListings act, w)
    ∧ serve e (ListListings "sold") w = (OkListings sld, w)
    ∧ serve e (ListListings "cancelled") w = (OkListings [], w)
    ∧ (∀ l, In l (listings w)
            ↔ (In l act ∧ l_status l = active) ∨ (In l sld ∧ l_status l = sold))
    ∧ (length act + length sld = length (listings w))%nat.
Proof.
  intros w. rewrite !serve_list. cbn [truthy].
  pose proof (serve_all_wellformed rs (initial creds) (List.Forall_nil _)) as Hwf.
  fold w in Hwf. destruct (filter_by_status (listings w) Hwf) as [Hc Hn].
  do 2 eexists. split; [reflexivity|]. split; [reflexivity|]. split; [reflexivity|].
  split; [now rewrite Hc|]. split; [|exact Hn].
  intros l. rewrite !filter_In. split.
  - intros Hin. rewrite List.Forall_forall in Hwf.
    destruct (Hwf l Hin) as (_ & _ & _ & _ & _ & Hnc & _).
    destruct (l_status l) eqn:Hst; [left | right | congruence]; repeat split; assumption.
  - intros [[[Hin _] _]|[[Hin _] _]]; exact Hin.
Qed.
